(** * Digital-twins avatar pipeline: profile rings, mesh assembly,
      morph-target synthesis and the GLB asset serializer.

    The development embeds the procedural avatar builders
    [create_ultra_detailed_avatar.py] and [create_fixed_avatar.py]
    (and the variant writer of [generate_hq_avatar.py]).

    Numeric model.  The Python code computes on IEEE floats (NumPy
    float32 arrays, float64 scalars).  Here every scalar is an ideal real
    number of [R]; index arithmetic, array lengths and byte offsets are
    natural numbers and stay executable.  Python exceptions are explicit
    through the [result] type. *)

From Stdlib Require Import String Ascii Strings.Byte NArith.
From Stdlib Require Import Reals Lra Lia Arith PeanoNat Bool List.
Import ListNotations.

Open Scope R_scope.

(* ================================================================== *)
(** ** Python exceptions as an error monad *)

Inductive PyError : Type :=
| IndexError
| ZeroDivisionError
| ValueError
| KeyError.

Inductive result (A : Type) : Type :=
| Ok (a : A)
| Raise (e : PyError).

Arguments Ok {A} a.
Arguments Raise {A} e.

Definition bind {A B : Type} (m : result A) (k : A -> result B) : result B :=
  match m with
  | Ok a => k a
  | Raise e => Raise e
  end.

Notation "x <- m ;; k" := (bind m (fun x => k))
  (at level 61, m at next level, right associativity).

Definition is_ok {A : Type} (m : result A) : bool :=
  match m with Ok _ => true | Raise _ => false end.

(** [for x in xs: st = body x st], stopping at the first exception. *)
Fixpoint for_each {A S : Type} (xs : list A) (body : A -> S -> result S)
         (st : S) : result S :=
  match xs with
  | [] => Ok st
  | x :: rest => st' <- body x st ;; for_each rest body st'
  end.

(** Python's [a // b] and [a % b] on non-negative integers. *)
Definition py_floordiv (a b : nat) : result nat :=
  if Nat.eqb b 0 then Raise ZeroDivisionError else Ok (Nat.div a b).

Definition py_mod (a b : nat) : result nat :=
  if Nat.eqb b 0 then Raise ZeroDivisionError else Ok (Nat.modulo a b).

(** [xs[-1]] *)
Definition py_last {A : Type} (xs : list A) : result A :=
  match rev xs with
  | [] => Raise IndexError
  | x :: _ => Ok x
  end.

(** [xs[i]] for [0 <= i]. *)
Definition py_index {A : Type} (xs : list A) (i : nat) : result A :=
  match nth_error xs i with
  | Some x => Ok x
  | None => Raise IndexError
  end.

(* ================================================================== *)
(** ** Scalars, comparisons and vectors *)

Definition Rltb (x y : R) : bool := if Rlt_dec x y then true else false.

(** [np.sign] *)
Definition np_sign (x : R) : R :=
  if Rltb x 0 then -1 else if Rltb 0 x then 1 else 0.

Definition vec3 : Type := (R * R * R)%type.

Definition vx (v : vec3) : R := fst (fst v).
Definition vy (v : vec3) : R := snd (fst v).
Definition vz (v : vec3) : R := snd v.

Definition vzero : vec3 := (0, 0, 0).

Definition vscale (v : vec3) (k : R) : vec3 := (vx v * k, vy v * k, vz v * k).
Definition vadd (a b : vec3) : vec3 := (vx a + vx b, vy a + vy b, vz a + vz b).

(** An [(n, 3)] array is a list of rows. *)
Definition field : Type := list vec3.

(** [arr * k] and [a + b] broadcast over rows; NumPy raises [ValueError]
    when two [(n, 3)] and [(m, 3)] operands have [n <> m] (neither 1). *)
Definition arr_scale (a : field) (k : R) : field := map (fun v => vscale v k) a.

Fixpoint arr_add (a b : field) : field :=
  match a, b with
  | x :: a', y :: b' => vadd x y :: arr_add a' b'
  | _, _ => []
  end.

Definition radial (x z : R) : R := sqrt (x ^ 2 + z ^ 2).

(* ================================================================== *)
(** ** Python lists and dicts *)

(** [enumerate(xs)] *)
Definition enumerate {A : Type} (xs : list A) : list (nat * A) :=
  combine (seq 0 (length xs)) xs.

(** [xs.index(x)] on a list of strings: first position, or [ValueError]. *)
Fixpoint list_index (xs : list string) (x : string) : result nat :=
  match xs with
  | [] => Raise ValueError
  | y :: rest =>
      if String.eqb y x then Ok 0%nat
      else i <- list_index rest x ;; Ok (S i)
  end.

(** [xs[i] = v] *)
Fixpoint list_set {A : Type} (xs : list A) (i : nat) (v : A) : result (list A) :=
  match xs, i with
  | [], _ => Raise IndexError
  | _ :: rest, O => Ok (v :: rest)
  | y :: rest, S i' => rest' <- list_set rest i' v ;; Ok (y :: rest')
  end.

(** [[f(x) for x in xs]] where [f] may raise. *)
Fixpoint map_result {A B : Type} (f : A -> result B) (xs : list A)
  : result (list B) :=
  match xs with
  | [] => Ok []
  | x :: rest => y <- f x ;; ys <- map_result f rest ;; Ok (y :: ys)
  end.

(** A Python [dict] with string keys: an association list in insertion
    order.  Assigning to a key that is present keeps its position. *)
Definition dict (V : Type) : Type := list (string * V).

Fixpoint dict_set {V : Type} (d : dict V) (k : string) (v : V) : dict V :=
  match d with
  | [] => [(k, v)]
  | (k', v') :: d' =>
      if String.eqb k' k then (k', v) :: d' else (k', v') :: dict_set d' k v
  end.

Fixpoint dict_get {V : Type} (d : dict V) (k : string) : result V :=
  match d with
  | [] => Raise KeyError
  | (k', v') :: d' => if String.eqb k' k then Ok v' else dict_get d' k
  end.

Definition dict_keys {V : Type} (d : dict V) : list string := map fst d.
Definition dict_items {V : Type} (d : dict V) : list (string * V) := d.

(** The invariant of a dict: no key occurs twice. *)
Definition dict_wf {V : Type} (d : dict V) : Prop := NoDup (dict_keys d).

(* ================================================================== *)
(** ** NumPy reductions and byte images *)

(** [a.max()] / [a.min()] of a one-dimensional array; NumPy raises
    [ValueError] on a zero-size array. *)
Definition arr_max (xs : list R) : result R :=
  match xs with
  | [] => Raise ValueError
  | x :: rest => Ok (fold_left Rmax rest x)
  end.

Definition arr_min (xs : list R) : result R :=
  match xs with
  | [] => Raise ValueError
  | x :: rest => Ok (fold_left Rmin rest x)
  end.

(** [a.max(axis=0).tolist()] and [a.min(axis=0).tolist()] of an [(n, 3)] array. *)
Definition axis0_max (a : field) : result (list R) :=
  mx <- arr_max (map vx a) ;;
  my <- arr_max (map vy a) ;;
  mz <- arr_max (map vz a) ;;
  Ok [mx; my; mz].

Definition axis0_min (a : field) : result (list R) :=
  mx <- arr_min (map vx a) ;;
  my <- arr_min (map vy a) ;;
  mz <- arr_min (map vz a) ;;
  Ok [mx; my; mz].

(** [np.linalg.norm] of a 3-vector. *)
Definition norm3 (v : vec3) : R := sqrt (vx v ^ 2 + vy v ^ 2 + vz v ^ 2).

Definition face : Type := (nat * nat * nat)%type.

(** [faces.flatten()] *)
Definition flatten (fs : list face) : list nat :=
  flat_map (fun f => [fst (fst f); snd (fst f); snd f]) fs.

Definition byte_of_N (n : N) : byte :=
  match Byte.of_N (n mod 256) with
  | Some b => b
  | None => x00
  end.

(** Little-endian image of one [uint32] element. *)
Definition u32_bytes (n : nat) : list byte :=
  let v := N.of_nat n in
  [byte_of_N v; byte_of_N (v / 256); byte_of_N (v / 65536);
   byte_of_N (v / 16777216)].

(** [a.tobytes()] of a [uint32] vector and its [a.nbytes]. *)
Definition tobytes_u32 (a : list nat) : list byte := flat_map u32_bytes a.
Definition nbytes_u32 (a : list nat) : nat := 4 * length a.

Section Float32Image.

(** The four-byte IEEE image of one [float32] element is left abstract. *)
Variable f32_bytes : R -> list byte.

(** [a.tobytes()] of a [float32] array of shape [(n, 3)].  All arrays
    that reach the serializers are [float32], so [astype(np.float32)] is
    the identity on them. *)
Definition tobytes_f32 (a : field) : list byte :=
  flat_map (fun v => f32_bytes (vx v) ++ f32_bytes (vy v) ++ f32_bytes (vz v)) a.

End Float32Image.

(** [a.nbytes] of a [float32] array of shape [(n, 3)]. *)
Definition nbytes_f32 (a : field) : nat := 4 * (3 * length a).

(* ================================================================== *)
(** ** The glTF container (the fields of [pygltflib] that the writers set) *)

Record BufferView : Type := mkBufferView {
  buffer : nat;
  byteOffset : nat;
  byteLength : nat;
  target : N
}.

Record Accessor : Type := mkAccessor {
  bufferView : nat;
  componentType : N;
  count : nat;
  elem_type : string;
  acc_max : option (list R);
  acc_min : option (list R)
}.

Record Material : Type := mkMaterial {
  baseColorFactor : list R;
  metallicFactor : R;
  roughnessFactor : R;
  doubleSided : bool
}.

(** A primitive; [targets] holds the accessor index of each
    [{"POSITION": idx}] entry. *)
Record Primitive : Type := mkPrimitive {
  attr_POSITION : nat;
  attr_NORMAL : nat;
  indices : nat;
  material : nat;
  targets : list nat
}.

Record GLTFMesh : Type := mkGLTFMesh {
  primitives : list Primitive;
  weights : list R;
  targetNames : list string
}.

Record Node : Type := mkNode { node_mesh : nat; node_name : option string }.

Record GLTF2 : Type := mkGLTF2 {
  buffers : list nat;            (* byteLength of each buffer *)
  bufferViews : list BufferView;
  accessors : list Accessor;
  materials : list Material;
  meshes : list GLTFMesh;
  nodes : list Node;
  scenes : list (list nat);
  scene : nat;
  binary_blob : list byte
}.

(** [gltf.meshes[0].weights = ws] *)
Definition set_mesh_weights (g : GLTF2) (ws : list R) : result GLTF2 :=
  match meshes g with
  | [] => Raise IndexError
  | m :: rest =>
      Ok (mkGLTF2 (buffers g) (bufferViews g) (accessors g) (materials g)
                  (mkGLTFMesh (primitives m) ws (targetNames m) :: rest)
                  (nodes g) (scenes g) (scene g) (binary_blob g))
  end.

(** The files written so far: [gltf.save(name)] appends a snapshot. *)
Definition saved_files : Type := list (string * GLTF2).

(** Bytes [blob[off : off + len]]. *)
Definition slice {A : Type} (blob : list A) (off len : nat) : list A :=
  firstn len (skipn off blob).

(* ================================================================== *)
(** ** Meshes *)

Record mesh : Type := Mesh { vertices : list vec3; faces : list face }.

(** Loop state of the ring-stacking loops: the two growing Python lists
    and the running vertex index. *)
Record asm_state : Type := AsmState {
  st_vertices : list vec3;
  st_faces : list face;
  current_idx : nat
}.

(** [for j in range(n): faces.append(f j)] *)
Definition append_faces (n : nat) (f : nat -> face) (fs : list face) : list face :=
  fs ++ map f (seq 0 n).

(** [for i, v in enumerate(vertices): arr[i] = upd arr[i] v] on an array
    with one row per vertex. *)
Definition update_rows (upd : vec3 -> vec3 -> vec3) (arr vs : field) : field :=
  map (fun p => upd (fst p) (snd p)) (combine arr vs).

(* ================================================================== *)
(** ** [create_ultra_detailed_avatar.py] *)

Module Ultra.

(** *** Profile generator ([create_ellipsoid_profile]) *)

(** [np.linspace(0, 2*np.pi, n_pts, endpoint=False)] *)
Definition linspace_open (n_pts : nat) : list R :=
  map (fun i => INR i * (2 * PI / INR n_pts)) (seq 0 n_pts).

Definition profile_point (width_x depth_z front_flat back_flat side_bulge : R)
           (angle : R) : R * R :=
  let x := width_x * cos angle in
  let z := depth_z * sin angle in
  let z := if Rltb z 0 then z * (1.0 - back_flat) else z in
  let z := if Rltb 0 z then z * (1.0 - front_flat * 0.3) else z in
  let x := if Rltb 0.7 (Rabs (cos angle)) then x * (1.0 + side_bulge) else x in
  (x, z).

Definition create_ellipsoid_profile (width_x depth_z : R) (n_pts : nat)
           (front_flat back_flat side_bulge : R) : list (R * R) :=
  map (profile_point width_x depth_z front_flat back_flat side_bulge)
      (linspace_open n_pts).


(** *** Mesh assembler ([create_detailed_human_body]) *)

(** One row of the [anatomy] table:
    [(y_rel, width_x, depth_z, n_points, front_flat, back_flat, side_bulge)]. *)
Record anatomy_row : Type := arow {
  y_rel : R;
  w_x : R;
  d_z : R;
  n_pts : nat;
  f_flat : R;
  b_flat : R;
  s_bulge : R
}.

Definition anatomy : list anatomy_row := [
    arow 0.000 0.045 0.11 24 0.0 0.0 0.0;
    arow 0.008 0.042 0.10 24 0.0 0.0 0.0;
    arow 0.020 0.038 0.06 24 0.0 0.0 0.0;
    arow 0.040 0.040 0.045 32 0.0 0.1 0.0;
    arow 0.080 0.042 0.048 32 0.0 0.1 0.0;
    arow 0.120 0.044 0.052 32 0.0 0.1 0.0;
    arow 0.160 0.046 0.056 32 0.0 0.1 0.0;
    arow 0.200 0.044 0.052 32 0.0 0.1 0.0;
    arow 0.240 0.048 0.055 32 0.0 0.15 0.0;
    arow 0.260 0.052 0.058 32 0.0 0.2 0.0;
    arow 0.280 0.050 0.056 32 0.0 0.15 0.0;
    arow 0.320 0.058 0.062 32 0.0 0.1 0.0;
    arow 0.360 0.068 0.072 32 0.0 0.1 0.0;
    arow 0.400 0.078 0.082 32 0.0 0.1 0.05;
    arow 0.440 0.088 0.090 32 0.0 0.1 0.08;
    arow 0.470 0.092 0.092 32 0.0 0.1 0.1;
    arow 0.500 0.145 0.095 40 0.0 0.15 0.05;
    arow 0.520 0.155 0.100 40 0.0 0.15 0.05;
    arow 0.540 0.160 0.105 40 0.0 0.15 0.05;
    arow 0.560 0.155 0.100 40 0.0 0.2 0.0;
    arow 0.580 0.148 0.095 40 0.0 0.2 0.0;
    arow 0.600 0.142 0.092 40 0.0 0.25 0.0;
    arow 0.620 0.135 0.088 40 0.0 0.25 0.0;
    arow 0.640 0.130 0.085 40 0.0 0.25 0.0;
    arow 0.660 0.132 0.087 40 0.0 0.25 0.0;
    arow 0.680 0.138 0.090 40 0.0 0.2 0.0;
    arow 0.700 0.148 0.095 40 0.0 0.2 0.0;
    arow 0.720 0.158 0.100 40 0.0 0.18 0.0;
    arow 0.740 0.168 0.105 40 0.0 0.15 0.0;
    arow 0.760 0.175 0.108 40 0.0 0.12 0.0;
    arow 0.780 0.180 0.112 40 0.0 0.1 0.0;
    arow 0.800 0.182 0.115 40 0.0 0.08 0.0;
    arow 0.820 0.178 0.110 40 0.0 0.1 0.0;
    arow 0.840 0.170 0.100 40 0.0 0.12 0.0;
    arow 0.855 0.190 0.090 40 0.0 0.15 0.0;
    arow 0.870 0.195 0.085 40 0.0 0.18 0.0;
    arow 0.880 0.165 0.078 36 0.0 0.2 0.0;
    arow 0.895 0.065 0.065 28 0.0 0.1 0.0;
    arow 0.910 0.058 0.058 28 0.0 0.1 0.0;
    arow 0.925 0.052 0.052 28 0.0 0.1 0.0;
    arow 0.940 0.048 0.050 28 0.0 0.1 0.0;
    arow 0.950 0.055 0.060 32 0.1 0.0 0.0;
    arow 0.965 0.068 0.075 32 0.1 0.0 0.0;
    arow 0.980 0.072 0.082 32 0.08 0.0 0.0;
    arow 1.000 0.075 0.088 32 0.05 0.0 0.0;
    arow 1.020 0.074 0.085 32 0.0 0.0 0.0;
    arow 1.045 0.072 0.082 32 0.0 0.0 0.0;
    arow 1.070 0.065 0.072 28 0.0 0.0 0.0;
    arow 1.090 0.045 0.050 20 0.0 0.0 0.0;
    arow 1.100 0.020 0.022 12 0.0 0.0 0.0
  ].

(** Body of [for j in range(max(prev_n, curr_n))].  The running index
    [current_idx] is the sum of the point counts of the rows already
    visited, so [current_idx - prev_n] never goes below zero. *)
Definition stitch_step (prev_n curr_n prev_start curr_start : nat)
           (j : nat) (fs : list face) : result (list face) :=
  let m := Nat.max prev_n curr_n in
  pq <- py_floordiv (j * prev_n) m ;;
  pr <- py_mod pq prev_n ;;
  let p_idx := (prev_start + pr)%nat in
  cq <- py_floordiv (j * curr_n) m ;;
  cr <- py_mod cq curr_n ;;
  let c_idx := (curr_start + cr)%nat in
  npq <- py_floordiv ((j + 1) * prev_n) m ;;
  npr <- py_mod npq prev_n ;;
  let np_idx := (prev_start + npr)%nat in
  ncq <- py_floordiv ((j + 1) * curr_n) m ;;
  ncr <- py_mod ncq curr_n ;;
  let nc_idx := (curr_start + ncr)%nat in
  if negb (Nat.eqb p_idx np_idx) || negb (Nat.eqb c_idx nc_idx) then
    let fs := fs ++ [(p_idx, c_idx, nc_idx)] in
    if negb (Nat.eqb p_idx np_idx)
    then Ok (fs ++ [(p_idx, nc_idx, np_idx)])
    else Ok fs
  else Ok fs.

(** Body of [for i, (...) in enumerate(anatomy)]. *)
Definition ring_step (table : list anatomy_row) (height : R)
           (ir : nat * anatomy_row) (st : asm_state) : result asm_state :=
  let '(i, r) := ir in
  let y := y_rel r * height in
  let profile :=
    create_ellipsoid_profile (w_x r) (d_z r) (n_pts r)
                                     (f_flat r) (b_flat r) (s_bulge r) in
  let vs := st_vertices st ++ map (fun p => (fst p, y, snd p)) profile in
  fs <- (if Nat.ltb 0 i then
           prev <- py_index table (i - 1) ;;
           let prev_n := n_pts prev in
           let curr_n := n_pts r in
           let prev_start := (current_idx st - prev_n)%nat in
           let curr_start := current_idx st in
           for_each (seq 0 (Nat.max prev_n curr_n))
                    (stitch_step prev_n curr_n prev_start curr_start)
                    (st_faces st)
         else Ok (st_faces st)) ;;
  Ok (AsmState vs fs (current_idx st + n_pts r)).

(** The assembler, with the profile table as an argument. *)
Definition assemble (table : list anatomy_row) (height : R) : result mesh :=
  st <- for_each (enumerate table) (ring_step table height)
                 (AsmState [] [] 0) ;;
  (* Fechar topo *)
  top <- py_last table ;;
  let top_n := n_pts top in
  let top_start := (current_idx st - top_n)%nat in
  let top_center := length (st_vertices st) in
  let vs := st_vertices st ++ [(0, y_rel top * height + 0.01, 0)] in
  let fs := append_faces top_n
              (fun j => ((top_start + j)%nat, top_center,
                         (top_start + (j + 1) mod top_n)%nat))
              (st_faces st) in
  (* Fechar fundo *)
  bottom <- py_index table 0 ;;
  let bottom_n := n_pts bottom in
  let bottom_center := length vs in
  let vs := vs ++ [(0, 0.005, 0.04)] in
  let fs := append_faces bottom_n
              (fun j => (j, ((j + 1) mod bottom_n)%nat, bottom_center)) fs in
  Ok (Mesh vs fs).

Definition create_detailed_human_body (height : R) : result mesh :=
  assemble anatomy height.

(** *** Morph-target synthesis ([create_morph_targets]) *)

(** Row of the [Weight] loop. *)
Definition weight_row (height : R) (v : vec3) : vec3 :=
  let y_norm := vy v / height in
  let dx := vx v in
  let dz := vz v in
  let dist := sqrt (dx ^ 2 + dz ^ 2) in
  if Rltb 0.01 dist then
    let torso_factor := exp ((- ((y_norm - 0.65) ^ 2)) / 0.08) in
    let factor := 0.07 * (0.25 + 0.75 * torso_factor) in
    (dx / dist * factor, 0, dz / dist * factor)
  else vzero.

(** Row of the [AbdomenGirth] loop. *)
Definition abdomen_row (height : R) (v : vec3) : vec3 :=
  let y_norm := vy v / height in
  let y_factor := exp ((- ((y_norm - 0.60) ^ 2)) / 0.015) in
  if Rltb 0 (vz v) then
    let front_factor := Rmin (vz v / 0.08) 1.0 in
    let a2 := 0.15 * y_factor * front_factor in
    let a0 := if Rltb 0.05 (Rabs (vx v))
              then np_sign (vx v) * 0.03 * y_factor else 0 in
    (a0, 0, a2)
  else vzero.

(** Row of the [MuscleMass] loop; the four zone tests accumulate with [+=]. *)
Definition muscle_row (height : R) (v : vec3) : vec3 :=
  let y_norm := vy v / height in
  let m0 := 0 in
  let m2 := 0 in
  let m2 := if (Rltb 0.75 y_norm && Rltb y_norm 0.82) && Rltb 0.02 (vz v)
            then m2 + 0.03 * exp ((- ((y_norm - 0.79) ^ 2)) / 0.003)
            else m2 in
  let m0 := if (Rltb 0.84 y_norm && Rltb y_norm 0.89) && Rltb 0.12 (Rabs (vx v))
            then m0 + np_sign (vx v) * 0.025 else m0 in
  let m0 := if Rltb 0.2 (Rabs (vx v)) && (Rltb 0.5 y_norm && Rltb y_norm 0.85)
            then m0 + np_sign (vx v) * 0.02 else m0 in
  let m02 :=
    if Rltb y_norm 0.48 && Rltb 0.28 y_norm then
      let dist_xz := sqrt (vx v ^ 2 + vz v ^ 2) in
      if Rltb 0.04 dist_xz then
        let thigh_factor := exp ((- ((y_norm - 0.40) ^ 2)) / 0.01) in
        (m0 + vx v / dist_xz * 0.02 * thigh_factor,
         m2 + vz v / dist_xz * 0.02 * thigh_factor)
      else (m0, m2)
    else (m0, m2) in
  (fst m02, 0, snd m02).

(** Row of the [Posture] loop. *)
Definition posture_row (height : R) (v : vec3) : vec3 :=
  let y_norm := vy v / height in
  if Rltb 0.82 y_norm then
    let factor := (y_norm - 0.82) / 0.18 in
    (0, - 0.07 * factor ^ 2, 0.08 * factor)
  else vzero.

(** Row update of the [DiabetesEffect] loop (fluid retention in the legs). *)
Definition diabetes_fluid (height : R) (d v : vec3) : vec3 :=
  let y_norm := vy v / height in
  if Rltb y_norm 0.3 then
    let dist := sqrt (vx v ^ 2 + vz v ^ 2) in
    if Rltb 0.02 dist then
      (vx d + vx v / dist * 0.015, vy d, vz d + vz v / dist * 0.015)
    else d
  else d.

Definition weight_field (vs : field) (height : R) : field :=
  map (weight_row height) vs.
Definition abdomen_field (vs : field) (height : R) : field :=
  map (abdomen_row height) vs.
Definition muscle_field (vs : field) (height : R) : field :=
  map (muscle_row height) vs.
Definition posture_field (vs : field) (height : R) : field :=
  map (posture_row height) vs.

Definition zeros_like (a : field) : field := map (fun _ => vzero) a.

Definition diabetes_field (weight abdomen : field) (vs : field) (height : R)
  : field :=
  let diabetes :=
    arr_add (arr_add (arr_scale weight 0.35) (arr_scale abdomen 0.55))
            (zeros_like weight) in
  update_rows (diabetes_fluid height) diabetes vs.

Definition hypertension_field (weight abdomen : field) : field :=
  arr_add (arr_scale weight 0.25) (arr_scale abdomen 0.35).

Definition heart_field (weight posture abdomen : field) : field :=
  arr_add (arr_add (arr_scale weight 0.45) (arr_scale posture 0.35))
          (arr_scale abdomen 0.2).

Definition create_morph_targets (vs : field) (height : R) : dict field :=
  let morph := [] in
  let weight := weight_field vs height in
  let morph := dict_set morph "Weight" weight in
  let abdomen := abdomen_field vs height in
  let morph := dict_set morph "AbdomenGirth" abdomen in
  let muscle := muscle_field vs height in
  let morph := dict_set morph "MuscleMass" muscle in
  let posture := posture_field vs height in
  let morph := dict_set morph "Posture" posture in
  let morph := dict_set morph "DiabetesEffect"
                        (diabetes_field weight abdomen vs height) in
  let morph := dict_set morph "HypertensionEffect"
                        (hypertension_field weight abdomen) in
  let morph := dict_set morph "HeartDiseaseEffect"
                        (heart_field weight posture abdomen) in
  morph.

(** *** Asset serializer ([export_glb]) and the variants of [main] *)

Section Serializer.

Variable f32_bytes : R -> list byte.

(** First loop over [morphs.items()]: record the offset, extend the buffer. *)
Definition write_morph (st : dict nat * list byte) (nd : string * field)
  : dict nat * list byte :=
  let '(m_offs, buf) := st in
  let '(name, delta) := nd in
  (dict_set m_offs name (length buf), buf ++ tobytes_f32 f32_bytes delta).

(** Second loop over [morphs.items()]: one bufferView and one accessor. *)
Definition describe_morph (m_offs : dict nat) (nd : string * field)
           (st : list BufferView * list Accessor * dict nat)
  : result (list BufferView * list Accessor * dict nat) :=
  let '(bv, ac, m_acc) := st in
  let '(name, delta) := nd in
  let bvi := length bv in
  off <- dict_get m_offs name ;;
  let bv := bv ++ [mkBufferView 0 off (nbytes_f32 delta) 34962] in
  let aci := length ac in
  dmax <- axis0_max delta ;;
  dmin <- axis0_min delta ;;
  let ac := ac ++ [mkAccessor bvi 5126 (length delta) "VEC3"
                              (Some dmax) (Some dmin)] in
  Ok (bv, ac, dict_set m_acc name aci).

(** [export_glb]: the container it saves and the [names] it returns. *)
Definition export_glb (verts : field) (fcs : list face) (normals : field)
           (morphs : dict field) : result (GLTF2 * list string) :=
  let buf : list byte := [] in
  let v_off := length buf in
  let buf := buf ++ tobytes_f32 f32_bytes verts in
  let n_off := length buf in
  let buf := buf ++ tobytes_f32 f32_bytes normals in
  let i_off := length buf in
  let idxs := flatten fcs in
  let buf := buf ++ tobytes_u32 idxs in
  let '(m_offs, buf) := fold_left write_morph (dict_items morphs) ([], buf) in
  let gltf_buffers := [length buf] in
  let bv := [] in
  let ac := [] in
  let bv := bv ++ [mkBufferView 0 v_off (nbytes_f32 verts) 34962] in
  vmax <- axis0_max verts ;;
  vmin <- axis0_min verts ;;
  let ac := ac ++ [mkAccessor 0 5126 (length verts) "VEC3"
                              (Some vmax) (Some vmin)] in
  let bv := bv ++ [mkBufferView 0 n_off (nbytes_f32 normals) 34962] in
  let ac := ac ++ [mkAccessor 1 5126 (length normals) "VEC3" None None] in
  let bv := bv ++ [mkBufferView 0 i_off (nbytes_u32 idxs) 34963] in
  let ac := ac ++ [mkAccessor 2 5125 (length idxs) "SCALAR" None None] in
  st <- for_each (dict_items morphs) (describe_morph m_offs) (bv, ac, []) ;;
  let '(bv, ac, m_acc) := st in
  let mats := [mkMaterial [0.85; 0.82; 0.80; 1.0] 0.0 0.40 true] in
  let names := dict_keys morphs in
  tgts <- map_result (fun n => dict_get m_acc n) names ;;
  let ms := [mkGLTFMesh [mkPrimitive 0 1 2 0 tgts]
                        (repeat 0.0 (length morphs)) names] in
  Ok (mkGLTF2 gltf_buffers bv ac mats ms [mkNode 0 (Some "Avatar"%string)] [[0%nat]] 0
              buf,
      names).

(** Lines "Exportar GLB" to "avatar_clinical.glb" of [main]: the files
    written, in order, and whether the run ended with an exception.
    Files saved before an exception stay written. *)
Definition main_export (verts : field) (fcs : list face) (normals : field)
           (morphs : dict field) : saved_files * result unit :=
  match export_glb verts fcs normals morphs with
  | Raise e => ([], Raise e)
  | Ok (gltf, names) =>
      let saved := [("avatar_morphable.glb"%string, gltf)] in
      match set_mesh_weights gltf (repeat 0.0 (length morphs)) with
      | Raise e => (saved, Raise e)
      | Ok gltf =>
          let saved := saved ++ [("avatar_baseline.glb"%string, gltf)] in
          let ws := repeat 0.0 (length morphs) in
          match (i <- list_index names "Weight" ;;
                 ws <- list_set ws i 0.6 ;;
                 i <- list_index names "AbdomenGirth" ;;
                 ws <- list_set ws i 0.7 ;;
                 i <- list_index names "DiabetesEffect" ;;
                 ws <- list_set ws i 0.5 ;;
                 set_mesh_weights gltf ws) with
          | Raise e => (saved, Raise e)
          | Ok gltf => (saved ++ [("avatar_clinical.glb"%string, gltf)], Ok tt)
          end
      end
  end.

End Serializer.

(** *** Arms ([add_arms]) *)

(** One row of [arm_segments]:
    [(dist_from_center, y_rel, radius_x, radius_z, n_pts)]. *)
Record arm_segment : Type := sgrow {
  seg_dist : R;
  seg_y_rel : R;
  seg_rx : R;
  seg_rz : R;
  seg_n : nat
}.

Definition arm_segments : list arm_segment := [
    sgrow 0.195 0.870 0.045 0.040 20;
    sgrow 0.220 0.840 0.040 0.038 20;
    sgrow 0.240 0.800 0.038 0.036 20;
    sgrow 0.255 0.750 0.036 0.034 20;
    sgrow 0.265 0.700 0.034 0.032 20;
    sgrow 0.270 0.650 0.030 0.028 18;
    sgrow 0.275 0.600 0.028 0.025 18;
    sgrow 0.278 0.550 0.026 0.023 18;
    sgrow 0.280 0.500 0.022 0.020 16;
    sgrow 0.282 0.470 0.024 0.012 14;
    sgrow 0.283 0.450 0.020 0.010 12
  ].

(** [sum(s[4] for s in segs)] *)
Definition seg_total (segs : list arm_segment) : nat :=
  list_sum (map seg_n segs).

Definition arm_point (s : arm_segment) (height side : R) (j : nat) : vec3 :=
  let y := seg_y_rel s * height in
  let x_center := seg_dist s * side in
  let angle := 2 * PI * INR j / INR (seg_n s) in
  let x := x_center + seg_rx s * cos angle * side * 0.8 in
  let z := seg_rz s * sin angle in
  (x, y, z).

(** Body of the stitching loop of [add_arms]: the first triangle is
    appended without a test. *)
Definition arm_stitch_step (prev_n curr_n prev_start curr_start : nat)
           (j : nat) (fs : list face) : result (list face) :=
  let m := Nat.max prev_n curr_n in
  pq <- py_floordiv (j * prev_n) m ;;
  pr <- py_mod pq prev_n ;;
  let pi := (prev_start + pr)%nat in
  cq <- py_floordiv (j * curr_n) m ;;
  cr <- py_mod cq curr_n ;;
  let ci := (curr_start + cr)%nat in
  npq <- py_floordiv ((j + 1) * prev_n) m ;;
  npr <- py_mod npq prev_n ;;
  let npi := (prev_start + npr)%nat in
  ncq <- py_floordiv ((j + 1) * curr_n) m ;;
  ncr <- py_mod ncq curr_n ;;
  let nci := (curr_start + ncr)%nat in
  let fs := fs ++ [(pi, ci, nci)] in
  if negb (Nat.eqb pi npi) then Ok (fs ++ [(pi, nci, npi)]) else Ok fs.

(** Body of [for i, (...) in enumerate(arm_segments)]; the state is the
    pair [(arm_verts, arm_faces)]. *)
Definition arm_ring_step (segs : list arm_segment) (height side : R)
           (base_idx : nat) (isg : nat * arm_segment)
           (st : list vec3 * list face) : result (list vec3 * list face) :=
  let '(i, s) := isg in
  let '(arm_verts, arm_faces) := st in
  let arm_verts := arm_verts ++ map (arm_point s height side) (seq 0 (seg_n s)) in
  fs <- (if Nat.ltb 0 i then
           prev <- py_index segs (i - 1) ;;
           let prev_n := seg_n prev in
           let curr_n := seg_n s in
           let prev_start := (base_idx + seg_total (firstn (i - 1) segs))%nat in
           let curr_start := (base_idx + seg_total (firstn i segs))%nat in
           for_each (seq 0 (Nat.max prev_n curr_n))
                    (arm_stitch_step prev_n curr_n prev_start curr_start)
                    arm_faces
         else Ok arm_faces) ;;
  Ok (arm_verts, fs).

(** Body of [for side in [-1, 1]]. *)
Definition add_arm_side (segs : list arm_segment) (height : R) (side : R)
           (st : list vec3 * list face) : result (list vec3 * list face) :=
  let base_idx := length (fst st) in
  st <- for_each (enumerate segs) (arm_ring_step segs height side base_idx) st ;;
  let '(arm_verts, arm_faces) := st in
  (* Fechar mão *)
  let hand_start := (base_idx + seg_total (removelast segs))%nat in
  last <- py_last segs ;;
  let hand_n := seg_n last in
  let hand_center := length arm_verts in
  let arm_verts :=
    arm_verts ++ [(seg_dist last * side, seg_y_rel last * height - 0.01, 0)] in
  let arm_faces :=
    append_faces hand_n
      (fun j => ((hand_start + j)%nat, hand_center,
                 (hand_start + (j + 1) mod hand_n)%nat))
      arm_faces in
  Ok (arm_verts, arm_faces).

(** [add_arms], with the segment table as an argument. *)
Definition add_arms_with (segs : list arm_segment) (verts : list vec3)
           (fcs : list face) (height : R) : result mesh :=
  st <- for_each [-1; 1] (add_arm_side segs height) (verts, fcs) ;;
  Ok (Mesh (fst st) (snd st)).

Definition add_arms (verts : list vec3) (fcs : list face) (height : R)
  : result mesh :=
  add_arms_with arm_segments verts fcs height.

(** The first two steps of [main]: the body, then the arms. *)
Definition main_geometry (height : R) : result mesh :=
  body <- create_detailed_human_body height ;;
  add_arms (vertices body) (faces body) height.

End Ultra.

(* ================================================================== *)
(** ** [create_fixed_avatar.py] *)

Module Fixed.

(** *** Torso assembler ([create_torso_mesh]) *)

(** One row of [torso_profiles]: [(altura_rel, largura_x, profundidade_z, n_pts)]. *)
Record torso_row : Type := trow {
  h_rel : R;
  width_x : R;
  depth_z : R;
  n_pts : nat
}.

Definition torso_profiles : list torso_row := [
    trow 0.50 0.16 0.10 48;
    trow 0.51 0.165 0.105 48;
    trow 0.53 0.17 0.11 48;
    trow 0.55 0.173 0.115 48;
    trow 0.56 0.175 0.12 48;
    trow 0.57 0.17 0.115 48;
    trow 0.58 0.16 0.11 48;
    trow 0.60 0.158 0.105 48;
    trow 0.62 0.155 0.10 48;
    trow 0.64 0.152 0.098 48;
    trow 0.66 0.15 0.095 48;
    trow 0.68 0.155 0.098 48;
    trow 0.70 0.16 0.10 48;
    trow 0.72 0.17 0.102 48;
    trow 0.75 0.18 0.105 48;
    trow 0.77 0.19 0.108 48;
    trow 0.80 0.20 0.11 48;
    trow 0.82 0.205 0.112 48;
    trow 0.83 0.21 0.115 48;
    trow 0.85 0.205 0.112 48;
    trow 0.86 0.20 0.11 48;
    trow 0.87 0.21 0.10 48;
    trow 0.88 0.22 0.09 48;
    trow 0.89 0.18 0.085 40;
    trow 0.90 0.14 0.08 36;
    trow 0.905 0.10 0.07 32;
    trow 0.91 0.065 0.065 28;
    trow 0.92 0.06 0.06 28;
    trow 0.93 0.055 0.055 28;
    trow 0.94 0.052 0.052 28;
    trow 0.95 0.05 0.05 28;
    trow 0.955 0.055 0.06 28;
    trow 0.96 0.06 0.07 28;
    trow 0.97 0.07 0.08 28;
    trow 0.98 0.075 0.09 28;
    trow 0.99 0.078 0.092 28;
    trow 1.00 0.08 0.095 28;
    trow 1.01 0.08 0.098 28;
    trow 1.02 0.08 0.10 28;
    trow 1.03 0.078 0.098 28;
    trow 1.05 0.075 0.095 28;
    trow 1.06 0.07 0.088 24;
    trow 1.07 0.06 0.08 20;
    trow 1.08 0.04 0.05 16;
    trow 1.085 0.02 0.03 12
  ].

Definition ring_point (r : torso_row) (height : R) (j : nat) : vec3 :=
  let y := h_rel r * height in
  let angle := 2 * PI * INR j / INR (n_pts r) in
  let x := width_x r * cos angle in
  let z := depth_z r * sin angle in
  let z := if Rltb z 0 && (Rltb 0.55 (h_rel r) && Rltb (h_rel r) 0.90)
           then z * 0.85 else z in
  (x, y, z).

(** Body of [for j in range(max(prev_n, curr_n))]. *)
Definition stitch_step (prev_n curr_n cur : nat)
           (j : nat) (fs : list face) : result (list face) :=
  pr <- py_mod j prev_n ;;
  let prev_idx := (cur - prev_n + pr)%nat in
  cr <- py_mod j curr_n ;;
  let curr_idx_v := (cur + cr)%nat in
  npr <- py_mod (j + 1) prev_n ;;
  let next_prev := (cur - prev_n + npr)%nat in
  ncr <- py_mod (j + 1) curr_n ;;
  let next_curr := (cur + ncr)%nat in
  Ok (fs ++ [(prev_idx, curr_idx_v, next_curr); (prev_idx, next_curr, next_prev)]).

(** Body of [for i, (...) in enumerate(torso_profiles)]. *)
Definition ring_step (table : list torso_row) (height : R)
           (ir : nat * torso_row) (st : asm_state) : result asm_state :=
  let '(i, r) := ir in
  let vs := st_vertices st ++ map (ring_point r height) (seq 0 (n_pts r)) in
  fs <- (if Nat.ltb 0 i then
           prev <- py_index table (i - 1) ;;
           let prev_n := n_pts prev in
           let curr_n := n_pts r in
           for_each (seq 0 (Nat.max prev_n curr_n))
                    (stitch_step prev_n curr_n (current_idx st))
                    (st_faces st)
         else Ok (st_faces st)) ;;
  Ok (AsmState vs fs (current_idx st + n_pts r)).

Definition assemble (table : list torso_row) (height : R) : result mesh :=
  st <- for_each (enumerate table) (ring_step table height)
                 (AsmState [] [] 0) ;;
  (* Fechar topo *)
  top <- py_last table ;;
  let top_n := n_pts top in
  let top_start := (current_idx st - top_n)%nat in
  let top_center := length (st_vertices st) in
  let vs := st_vertices st ++ [(0, h_rel top * height + 0.01, 0)] in
  let fs := append_faces top_n
              (fun j => ((top_start + j)%nat, top_center,
                         (top_start + (j + 1) mod top_n)%nat))
              (st_faces st) in
  Ok (Mesh vs fs).

Definition create_torso_mesh (height : R) : result mesh :=
  assemble torso_profiles height.


(** *** Morph-target synthesis ([create_morph_targets]) *)

Definition SCALE : R := 0.05.

Definition vdiv (v : vec3) (k : R) : vec3 := (vx v / k, vy v / k, vz v / k).

(** [direction = np.array([v[0], 0, v[2]]);
     direction = direction / (np.linalg.norm(direction) + 1e-6)] *)
Definition radial_direction (v : vec3) : vec3 :=
  let direction := (vx v, 0, vz v) in
  vdiv direction (norm3 direction + 1e-6).

Definition y_norm_of (y_min y_max : R) (v : vec3) : R :=
  (vy v - y_min) / (y_max - y_min).

(** Row of the [Weight] loop. *)
Definition weight_row (y_min y_max : R) (v : vec3) : vec3 :=
  let y_norm := y_norm_of y_min y_max v in
  if Rltb 0.2 y_norm && Rltb y_norm 0.9 then
    let dist_from_center := sqrt (vx v ^ 2 + vz v ^ 2) in
    if Rltb 0.02 dist_from_center then
      let direction := radial_direction v in
      let factor :=
        if Rltb 0.5 y_norm && Rltb y_norm 0.7 then 1.5
        else if Rltb 0.3 y_norm && Rltb y_norm 0.5 then 1.2
        else 1.0 in
      vscale (vscale direction SCALE) factor
    else vzero
  else vzero.

(** Row of the [AbdomenGirth] loop. *)
Definition abdomen_row (y_min y_max : R) (v : vec3) : vec3 :=
  let y_norm := y_norm_of y_min y_max v in
  if Rltb 0.5 y_norm && Rltb y_norm 0.75 then
    let dist := sqrt (vx v ^ 2 + vz v ^ 2) in
    if Rltb 0.02 dist then
      let direction := radial_direction v in
      let front_factor := 1.0 + 0.5 * Rmax 0 (vz v / (Rabs (vz v) + 0.01)) in
      let y_factor := exp ((- ((y_norm - 0.62) ^ 2)) / 0.01) in
      vscale (vscale (vscale (vscale direction SCALE) 1.5) front_factor) y_factor
    else vzero
  else vzero.

(** Row of the [MuscleMass] loop. *)
Definition muscle_row (y_min y_max : R) (v : vec3) : vec3 :=
  let y_norm := y_norm_of y_min y_max v in
  let dist := sqrt (vx v ^ 2 + vz v ^ 2) in
  if Rltb 0.02 dist then
    let direction := radial_direction v in
    if (Rltb 0.75 y_norm && Rltb y_norm 0.90) || Rltb 0.15 (Rabs (vx v)) then
      vscale (vscale direction SCALE) 0.8
    else if Rltb 0.1 y_norm && Rltb y_norm 0.45 then
      vscale (vscale direction SCALE) 0.6
    else vzero
  else vzero.

(** Row of the [Posture] loop. *)
Definition posture_row (y_min y_max : R) (v : vec3) : vec3 :=
  let y_norm := y_norm_of y_min y_max v in
  if Rltb 0.5 y_norm && Rltb y_norm 0.95 then
    let forward_lean := (y_norm - 0.5) * 0.1 in
    (0, 0, forward_lean * SCALE)
  else vzero.

Definition diabetes_field (weight abdomen : field) : field :=
  arr_add (arr_scale weight 0.5) (arr_scale abdomen 0.8).

Definition hypertension_field (weight abdomen : field) : field :=
  arr_add (arr_scale weight 0.3) (arr_scale abdomen 0.4).

Definition heart_field (weight posture : field) : field :=
  arr_add (arr_scale weight 0.2) (arr_scale posture 0.5).

(** [create_morph_targets]; the height argument is not used by the
    function body.  [vertices[:, 1].min()] raises on an empty array. *)
Definition create_morph_targets (vs : field) (height : R)
  : result (dict field) :=
  let morph_targets := [] in
  y_min <- arr_min (map vy vs) ;;
  y_max <- arr_max (map vy vs) ;;
  let weight := map (weight_row y_min y_max) vs in
  let morph_targets := dict_set morph_targets "Weight" weight in
  let abdomen := map (abdomen_row y_min y_max) vs in
  let morph_targets := dict_set morph_targets "AbdomenGirth" abdomen in
  let muscle := map (muscle_row y_min y_max) vs in
  let morph_targets := dict_set morph_targets "MuscleMass" muscle in
  let posture := map (posture_row y_min y_max) vs in
  let morph_targets := dict_set morph_targets "Posture" posture in
  let morph_targets := dict_set morph_targets "DiabetesEffect"
                                (diabetes_field weight abdomen) in
  let morph_targets := dict_set morph_targets "HypertensionEffect"
                                (hypertension_field weight abdomen) in
  let morph_targets := dict_set morph_targets "HeartDiseaseEffect"
                                (heart_field weight posture) in
  Ok morph_targets.

(** *** Asset serializer ([export_to_glb]) *)

Section Serializer.

Variable f32_bytes : R -> list byte.

(** [trimesh]'s vertex normals after [fix_normals], left abstract. *)
Variable vertex_normals : field -> list face -> field.

(** Body of [for name in morph_target_list: morph_bytes += ...]. *)
Definition add_morph_bytes (morph_targets : dict field) (name : string)
           (morph_bytes : list byte) : result (list byte) :=
  mt <- dict_get morph_targets name ;;
  Ok (morph_bytes ++ tobytes_f32 f32_bytes mt).

(** Body of [for i, name in enumerate(morph_target_list)]. *)
Definition describe_morph (morph_targets : dict field) (iname : nat * string)
           (st : list BufferView * list Accessor * list nat * nat)
  : result (list BufferView * list Accessor * list nat * nat) :=
  let '(bvs, acs, morph_accessor_indices, offset) := st in
  let '(i, name) := iname in
  mt_data <- dict_get morph_targets name ;;
  let mt_bytes_len := length (tobytes_f32 f32_bytes mt_data) in
  let bvs := bvs ++ [mkBufferView 0 offset mt_bytes_len 34962] in
  dmax <- axis0_max mt_data ;;
  dmin <- axis0_min mt_data ;;
  let acs := acs ++ [mkAccessor (3 + i) 5126 (length mt_data) "VEC3"
                                (Some dmax) (Some dmin)] in
  Ok (bvs, acs, morph_accessor_indices ++ [(3 + i)%nat],
      (offset + mt_bytes_len)%nat).

(** [export_to_glb]: the container it saves and the list it returns. *)
Definition export_to_glb (verts : field) (fcs : list face)
           (morph_targets : dict field) : result (GLTF2 * list string) :=
  let normals := vertex_normals verts fcs in
  let vertices_bytes := tobytes_f32 f32_bytes verts in
  let normals_bytes := tobytes_f32 f32_bytes normals in
  let faces_bytes := tobytes_u32 (flatten fcs) in
  let morph_target_list := dict_keys morph_targets in
  morph_bytes <- for_each morph_target_list (add_morph_bytes morph_targets) [] ;;
  let total_buffer :=
    vertices_bytes ++ normals_bytes ++ faces_bytes ++ morph_bytes in
  let gltf_buffers := [length total_buffer] in
  let offset := 0%nat in
  let bvs := [mkBufferView 0 offset (length vertices_bytes) 34962] in
  vmax <- axis0_max verts ;;
  vmin <- axis0_min verts ;;
  let acs := [mkAccessor 0 5126 (length verts) "VEC3" (Some vmax) (Some vmin)] in
  let offset := (offset + length vertices_bytes)%nat in
  let bvs := bvs ++ [mkBufferView 0 offset (length normals_bytes) 34962] in
  let acs := acs ++ [mkAccessor 1 5126 (length normals) "VEC3" None None] in
  let offset := (offset + length normals_bytes)%nat in
  let bvs := bvs ++ [mkBufferView 0 offset (length faces_bytes) 34963] in
  let acs := acs ++ [mkAccessor 2 5125 (length fcs * 3) "SCALAR" None None] in
  let offset := (offset + length faces_bytes)%nat in
  st <- for_each (enumerate morph_target_list) (describe_morph morph_targets)
                 (bvs, acs, [], offset) ;;
  let '(bvs, acs, morph_accessor_indices, _) := st in
  let mats := [mkMaterial [0.91; 0.89; 0.88; 1.0] 0.0 0.7 true] in
  let tgts := morph_accessor_indices in
  let ms := [mkGLTFMesh [mkPrimitive 0 1 2 0 tgts]
                        (repeat 0.0 (length morph_target_list))
                        morph_target_list] in
  Ok (mkGLTF2 gltf_buffers bvs acs mats ms [mkNode 0 None] [[0%nat]] 0
              total_buffer,
      morph_target_list).

End Serializer.

(** *** Cylinder segment ([create_cylinder_segment]) *)

(** [h / n_height] is a division of Python integers: it raises
    [ZeroDivisionError] when [n_height] is 0. *)
Definition cylinder_ring (center : vec3) (radius_x radius_z height : R)
           (n_radial n_height : nat) (h : nat) (vs : list vec3)
  : result (list vec3) :=
  if Nat.eqb n_height 0 then Raise ZeroDivisionError
  else
    let y := vy center + (INR h / INR n_height - 0.5) * height in
    Ok (vs ++ map (fun r =>
                     let angle := 2 * PI * INR r / INR n_radial in
                     (vx center + radius_x * cos angle, y,
                      vz center + radius_z * sin angle))
                  (seq 0 n_radial)).

Definition create_cylinder_segment (center : vec3)
           (radius_x radius_z height : R) (n_radial n_height : nat)
  : result (list vec3) :=
  for_each (seq 0 (n_height + 1))
           (cylinder_ring center radius_x radius_z height n_radial n_height) [].

(** *** Legs ([create_leg_mesh]) *)

(** One row of [leg_profiles]: [(altura_rel, raio_x, raio_z, n_pts)]. *)
Record leg_row : Type := legrow {
  leg_h_rel : R;
  leg_rx : R;
  leg_rz : R;
  leg_n_pts : nat
}.

Definition leg_profiles : list leg_row := [
    legrow 0.00 0.08 0.22 24;
    legrow 0.01 0.06 0.15 24;
    legrow 0.02 0.055 0.10 24;
    legrow 0.03 0.048 0.06 28;
    legrow 0.05 0.045 0.05 28;
    legrow 0.08 0.044 0.052 28;
    legrow 0.12 0.045 0.054 28;
    legrow 0.15 0.045 0.055 28;
    legrow 0.18 0.048 0.056 28;
    legrow 0.22 0.052 0.058 28;
    legrow 0.25 0.055 0.06 32;
    legrow 0.27 0.058 0.062 32;
    legrow 0.30 0.06 0.065 32;
    legrow 0.33 0.065 0.07 32;
    legrow 0.36 0.07 0.075 32;
    legrow 0.38 0.075 0.08 32;
    legrow 0.40 0.08 0.085 32;
    legrow 0.42 0.082 0.088 32;
    legrow 0.45 0.085 0.09 32;
    legrow 0.47 0.082 0.088 32;
    legrow 0.48 0.075 0.082 32
  ].

Definition leg_x_offset (side : string) : R :=
  if String.eqb side "left" then - 0.08 else 0.08.

Definition leg_point (r : leg_row) (height : R) (side : string) (j : nat)
  : vec3 :=
  let y := leg_h_rel r * height in
  let angle := 2 * PI * INR j / INR (leg_n_pts r) in
  let x := leg_x_offset side + leg_rx r * cos angle in
  let z := leg_rz r * sin angle in
  let x := if Rltb 0.40 (leg_h_rel r) then
             let inward_factor := (leg_h_rel r - 0.40) / 0.10 in
             if String.eqb side "left"
             then x + inward_factor * 0.02
             else x - inward_factor * 0.02
           else x in
  (x, y, z).

Definition leg_ring_step (table : list leg_row) (height : R) (side : string)
           (ir : nat * leg_row) (st : asm_state) : result asm_state :=
  let '(i, r) := ir in
  let vs := st_vertices st
            ++ map (leg_point r height side) (seq 0 (leg_n_pts r)) in
  fs <- (if Nat.ltb 0 i then
           prev <- py_index table (i - 1) ;;
           let prev_n := leg_n_pts prev in
           let curr_n := leg_n_pts r in
           for_each (seq 0 (Nat.max prev_n curr_n))
                    (stitch_step prev_n curr_n (current_idx st))
                    (st_faces st)
         else Ok (st_faces st)) ;;
  Ok (AsmState vs fs (current_idx st + leg_n_pts r)).

Definition assemble_leg (table : list leg_row) (height : R) (side : string)
  : result mesh :=
  st <- for_each (enumerate table) (leg_ring_step table height side)
                 (AsmState [] [] 0) ;;
  (* Fechar sola do pé *)
  bottom <- py_index table 0 ;;
  let bottom_n := leg_n_pts bottom in
  let bottom_center := length (st_vertices st) in
  let vs := st_vertices st ++ [(leg_x_offset side, 0, 0.05)] in
  let fs := append_faces bottom_n
              (fun j => (j, ((j + 1) mod bottom_n)%nat, bottom_center))
              (st_faces st) in
  Ok (Mesh vs fs).

Definition create_leg_mesh (height : R) (side : string) : result mesh :=
  assemble_leg leg_profiles height side.

(** *** Arms ([create_arm_mesh]) *)

(** One row of [arm_profiles]: [(dist_x, altura_rel, raio, n_pts)]. *)
Record arm_row : Type := armrow {
  arm_dist_x : R;
  arm_h_rel : R;
  arm_radius : R;
  arm_n_pts : nat
}.

Definition arm_profiles : list arm_row := [
    armrow 0.22 0.88 0.04 20;
    armrow 0.24 0.85 0.038 20;
    armrow 0.26 0.82 0.036 20;
    armrow 0.28 0.78 0.035 20;
    armrow 0.30 0.74 0.034 20;
    armrow 0.32 0.70 0.032 20;
    armrow 0.33 0.66 0.030 20;
    armrow 0.34 0.62 0.028 20;
    armrow 0.345 0.58 0.026 18;
    armrow 0.35 0.54 0.025 18;
    armrow 0.352 0.52 0.024 16;
    armrow 0.355 0.50 0.026 16;
    armrow 0.36 0.48 0.028 14
  ].

Definition arm_x_sign (side : string) : R :=
  if String.eqb side "left" then -1 else 1.

Definition arm_point (r : arm_row) (height : R) (side : string) (j : nat)
  : vec3 :=
  let y := arm_h_rel r * height in
  let x_center := arm_x_sign side * arm_dist_x r in
  let angle := 2 * PI * INR j / INR (arm_n_pts r) in
  let x := x_center + arm_radius r * cos angle in
  let z := arm_radius r * sin angle in
  (x, y, z).

Definition arm_ring_step (table : list arm_row) (height : R) (side : string)
           (ir : nat * arm_row) (st : asm_state) : result asm_state :=
  let '(i, r) := ir in
  let vs := st_vertices st
            ++ map (arm_point r height side) (seq 0 (arm_n_pts r)) in
  fs <- (if Nat.ltb 0 i then
           prev <- py_index table (i - 1) ;;
           let prev_n := arm_n_pts prev in
           let curr_n := arm_n_pts r in
           for_each (seq 0 (Nat.max prev_n curr_n))
                    (stitch_step prev_n curr_n (current_idx st))
                    (st_faces st)
         else Ok (st_faces st)) ;;
  Ok (AsmState vs fs (current_idx st + arm_n_pts r)).

Definition assemble_arm (table : list arm_row) (height : R) (side : string)
  : result mesh :=
  st <- for_each (enumerate table) (arm_ring_step table height side)
                 (AsmState [] [] 0) ;;
  (* Fechar mão *)
  last <- py_last table ;;
  let hand_n := arm_n_pts last in
  let hand_start := (current_idx st - hand_n)%nat in
  let hand_center := length (st_vertices st) in
  let vs := st_vertices st
            ++ [(arm_x_sign side * arm_dist_x last,
                 arm_h_rel last * height - 0.02, 0)] in
  let fs := append_faces hand_n
              (fun j => ((hand_start + j)%nat, hand_center,
                         (hand_start + (j + 1) mod hand_n)%nat))
              (st_faces st) in
  Ok (Mesh vs fs).

Definition create_arm_mesh (height : R) (side : string) : result mesh :=
  assemble_arm arm_profiles height side.

(** *** Crotch bridge ([create_crotch_bridge]) *)

Definition create_crotch_bridge (height : R) : mesh :=
  let n_points := 12%nat in
  let crotch_height := 0.48 * height in
  let depth := 0.06 in
  let front :=
    map (fun i =>
           let t := INR i / INR (n_points - 1) in
           (- 0.06 + t * 0.12, crotch_height + 0.02 * sin (PI * t), depth))
        (seq 0 n_points) in
  let back :=
    map (fun i =>
           let t := INR i / INR (n_points - 1) in
           (- 0.06 + t * 0.12, crotch_height + 0.02 * sin (PI * t),
            - depth * 0.5))
        (seq 0 n_points) in
  let fs :=
    flat_map (fun i => [(i, (i + 1)%nat, (n_points + i + 1)%nat);
                        (i, (n_points + i + 1)%nat, (n_points + i)%nat)])
             (seq 0 (n_points - 1)) in
  Mesh (front ++ back) fs.

(** *** Merging parts ([merge_meshes]) *)

(** [fcs + vertex_offset] *)
Definition offset_face (off : nat) (f : face) : face :=
  ((fst (fst f) + off)%nat, (snd (fst f) + off)%nat, (snd f + off)%nat).

(** Body of [for verts, fcs in meshes]. *)
Definition merge_step (st : list vec3 * list face * nat) (m : mesh)
  : list vec3 * list face * nat :=
  let '(all_vertices, all_faces, vertex_offset) := st in
  (all_vertices ++ vertices m,
   all_faces ++ map (offset_face vertex_offset) (faces m),
   (vertex_offset + length (vertices m))%nat).

Definition merge_meshes (meshes : list mesh) : mesh :=
  let '(all_vertices, all_faces, _) := fold_left merge_step meshes ([], [], 0%nat) in
  Mesh all_vertices all_faces.

(** The six parts that [main] builds and merges, before [trimesh]
    repairs and smooths the result. *)
Definition main_parts (HEIGHT : R) : result mesh :=
  torso <- create_torso_mesh HEIGHT ;;
  leg_l <- create_leg_mesh HEIGHT "left" ;;
  leg_r <- create_leg_mesh HEIGHT "right" ;;
  arm_l <- create_arm_mesh HEIGHT "left" ;;
  arm_r <- create_arm_mesh HEIGHT "right" ;;
  let crotch := create_crotch_bridge HEIGHT in
  Ok (merge_meshes [torso; leg_l; leg_r; arm_l; arm_r; crotch]).

End Fixed.

(* ================================================================== *)
(** ** [generate_hq_avatar.py]: the writer half of [create_glb_with_morphs] *)

Module HQ.

Section Serializer.

Variable f32_bytes : R -> list byte.

Definition write_morph (st : dict nat * list byte) (nd : string * field)
  : dict nat * list byte :=
  let '(morph_offsets, buffer_data) := st in
  let '(name, delta) := nd in
  (dict_set morph_offsets name (length buffer_data),
   buffer_data ++ tobytes_f32 f32_bytes delta).

Definition describe_morph (morph_offsets : dict nat) (nd : string * field)
           (st : list BufferView * list Accessor * dict nat)
  : result (list BufferView * list Accessor * dict nat) :=
  let '(buffer_views, accs, morph_accessor_indices) := st in
  let '(name, delta) := nd in
  let bv_idx := length buffer_views in
  off <- dict_get morph_offsets name ;;
  let buffer_views :=
    buffer_views ++ [mkBufferView 0 off (nbytes_f32 delta) 34962] in
  let acc_idx := length accs in
  dmax <- axis0_max delta ;;
  dmin <- axis0_min delta ;;
  let accs := accs ++ [mkAccessor bv_idx 5126 (length delta) "VEC3"
                                  (Some dmax) (Some dmin)] in
  Ok (buffer_views, accs, dict_set morph_accessor_indices name acc_idx).

(** From "Criar buffer binário" to the save of [avatar_morphable.glb];
    [morph_targets_data] is the dict that the first half of the function
    has filled. *)
Definition build_gltf (verts normals : field) (fcs : list face)
           (morph_targets_data : dict field) : result GLTF2 :=
  let buffer_data : list byte := [] in
  let vertices_offset := length buffer_data in
  let buffer_data := buffer_data ++ tobytes_f32 f32_bytes verts in
  let normals_offset := length buffer_data in
  let buffer_data := buffer_data ++ tobytes_f32 f32_bytes normals in
  let indices_offset := length buffer_data in
  let indices_flat := flatten fcs in
  let buffer_data := buffer_data ++ tobytes_u32 indices_flat in
  let '(morph_offsets, buffer_data) :=
    fold_left write_morph (dict_items morph_targets_data) ([], buffer_data) in
  let gltf_buffers := [length buffer_data] in
  let buffer_views := [mkBufferView 0 vertices_offset (nbytes_f32 verts) 34962] in
  vmax <- axis0_max verts ;;
  vmin <- axis0_min verts ;;
  let accs := [mkAccessor 0 5126 (length verts) "VEC3" (Some vmax) (Some vmin)] in
  let buffer_views :=
    buffer_views ++ [mkBufferView 0 normals_offset (nbytes_f32 normals) 34962] in
  let accs := accs ++ [mkAccessor 1 5126 (length normals) "VEC3" None None] in
  let buffer_views :=
    buffer_views ++ [mkBufferView 0 indices_offset (nbytes_u32 indices_flat) 34963] in
  let accs := accs ++ [mkAccessor 2 5125 (length indices_flat) "SCALAR" None None] in
  st <- for_each (dict_items morph_targets_data) (describe_morph morph_offsets)
                 (buffer_views, accs, []) ;;
  let '(buffer_views, accs, morph_accessor_indices) := st in
  let mats := [mkMaterial [0.7; 0.7; 0.7; 1.0] 0.1 0.6 true] in
  tgts <- map_result (fun name => dict_get morph_accessor_indices name)
                     (dict_keys morph_targets_data) ;;
  let ms := [mkGLTFMesh [mkPrimitive 0 1 2 0 tgts]
                        (repeat 0.0 (length morph_targets_data))
                        (dict_keys morph_targets_data)] in
  Ok (mkGLTF2 gltf_buffers buffer_views accs mats ms
              [mkNode 0 (Some "Avatar"%string)] [[0%nat]] 0 buffer_data).

(** The three saves of [create_glb_with_morphs]. *)
Definition write_variants (verts normals : field) (fcs : list face)
           (morph_targets_data : dict field) : saved_files * result unit :=
  match build_gltf verts normals fcs morph_targets_data with
  | Raise e => ([], Raise e)
  | Ok gltf =>
      let saved := [("avatar_morphable.glb"%string, gltf)] in
      match set_mesh_weights gltf (repeat 0.0 (length morph_targets_data)) with
      | Raise e => (saved, Raise e)
      | Ok gltf =>
          let saved := saved ++ [("avatar_baseline.glb"%string, gltf)] in
          let ws := repeat 0.0 (length morph_targets_data) in
          let target_names := dict_keys morph_targets_data in
          match (i <- list_index target_names "DiabetesEffect" ;;
                 ws <- list_set ws i 0.5 ;;
                 i <- list_index target_names "HypertensionEffect" ;;
                 ws <- list_set ws i 0.3 ;;
                 i <- list_index target_names "HeartDiseaseEffect" ;;
                 ws <- list_set ws i 0.4 ;;
                 set_mesh_weights gltf ws) with
          | Raise e => (saved, Raise e)
          | Ok gltf => (saved ++ [("avatar_clinical.glb"%string, gltf)], Ok tt)
          end
      end
  end.

End Serializer.

(** *** Morph targets of [create_glb_with_morphs] *)

Definition vsub (a b : vec3) : vec3 := (vx a - vx b, vy a - vy b, vz a - vz b).
Definition vdiv (v : vec3) (k : R) : vec3 := (vx v / k, vy v / k, vz v / k).

Fixpoint arr_sub (a b : field) : field :=
  match a, b with
  | x :: a', y :: b' => vsub x y :: arr_sub a' b'
  | _, _ => []
  end.

(** [vertices.mean(axis=0)]; it is read only inside the loop over the
    vertices, so never on an empty array. *)
Definition mean_axis0 (vs : field) : vec3 :=
  let n := INR (length vs) in
  (fold_right Rplus 0 (map vx vs) / n,
   fold_right Rplus 0 (map vy vs) / n,
   fold_right Rplus 0 (map vz vs) / n).

(** Row of the [Weight] loop. *)
Definition weight_row (center v : vec3) : vec3 :=
  let direction := vsub v center in
  let dist := norm3 direction in
  if Rltb 0 dist then
    let y_factor := 1.0 + 0.5 * exp ((- ((vy v - 1.0) ^ 2)) / 0.3) in
    vscale (vscale direction 0.15) y_factor
  else vzero.

(** Row of the [AbdomenGirth] loop. *)
Definition abdomen_row (v : vec3) : vec3 :=
  let y_factor := exp ((- ((vy v - 1.0) ^ 2)) / 0.1) in
  let z_factor := Rmax 0 (vz v) / (Rabs (vz v) + 0.01) in
  let direction :=
    if Rltb 0.01 (Rabs (vz v)) then (0, 0, vz v) else (0, 0, 0.01) in
  let direction := vdiv direction (norm3 direction + 0.001) in
  vscale (vscale (vscale direction 0.08) y_factor) (0.5 + 0.5 * z_factor).

(** Row of the [MuscleMass] loop. *)
Definition muscle_row (v : vec3) : vec3 :=
  let arm_factor :=
    if Rltb 0.1 (Rabs (vx v))
    then exp ((- ((Rabs (vx v) - 0.15) ^ 2)) / 0.01) else 0 in
  let leg_factor :=
    if Rltb (vy v) 0.8 then exp ((- ((vy v - 0.5) ^ 2)) / 0.2) else 0 in
  let direction := (vx v, 0, vz v) in
  let norm := norm3 direction in
  if Rltb 0.01 norm then
    let direction := vdiv direction norm in
    vscale (vscale direction 0.03) (arm_factor + leg_factor)
  else vzero.

(** Row of the [Posture] loop. *)
Definition posture_row (v : vec3) : vec3 :=
  if Rltb 1.0 (vy v) && Rltb (vy v) 1.5 then
    let y_factor := (vy v - 1.0) / 0.5 in
    (0, - 0.02 * y_factor, 0.03 * y_factor)
  else vzero.

(** The dict [morph_targets_data] when the writer half starts. *)
Definition morph_targets_data (vs : field) : dict field :=
  let morph_targets_data := [] in
  let center := mean_axis0 vs in
  let weight := map (weight_row center) vs in
  let morph_targets_data := dict_set morph_targets_data "Weight" weight in
  let abdomen := map abdomen_row vs in
  let morph_targets_data :=
    dict_set morph_targets_data "AbdomenGirth" abdomen in
  let muscle := map muscle_row vs in
  let morph_targets_data := dict_set morph_targets_data "MuscleMass" muscle in
  let posture := map posture_row vs in
  let morph_targets_data := dict_set morph_targets_data "Posture" posture in
  let morph_targets_data :=
    dict_set morph_targets_data "DiabetesEffect"
             (arr_add (arr_scale weight 0.12) (arr_scale abdomen 0.18)) in
  let morph_targets_data :=
    dict_set morph_targets_data "HypertensionEffect"
             (arr_sub (arr_add (arr_scale weight 0.08)
                               (arr_scale abdomen 0.10))
                      (arr_scale muscle 0.05)) in
  let morph_targets_data :=
    dict_set morph_targets_data "HeartDiseaseEffect"
             (arr_add (arr_scale weight 0.15) (arr_scale posture 0.3)) in
  morph_targets_data.

(** [create_glb_with_morphs] on the arrays of the mesh it is given. *)
Definition create_glb_with_morphs (f32_bytes : R -> list byte)
           (verts normals : field) (fcs : list face)
  : saved_files * result unit :=
  write_variants f32_bytes verts normals fcs (morph_targets_data verts).

End HQ.

(* ================================================================== *)
(** ** Vocabulary of the statements *)

(** A face uses vertex [k]. *)
Definition face_uses (k : nat) (f : face) : bool :=
  Nat.eqb (fst (fst f)) k || Nat.eqb (snd (fst f)) k || Nat.eqb (snd f) k.

(** All three corners of a face are below [k]. *)
Definition face_below (k : nat) (f : face) : bool :=
  Nat.ltb (fst (fst f)) k && Nat.ltb (snd (fst f)) k && Nat.ltb (snd f) k.

(** Cap fans of a ring of [n] points whose first vertex has index 0. *)
Definition top_fan (n top_center : nat) : list face :=
  map (fun j => (j, top_center, ((j + 1) mod n)%nat)) (seq 0 n).

Definition bottom_fan (n bottom_center : nat) : list face :=
  map (fun j => (j, ((j + 1) mod n)%nat, bottom_center)) (seq 0 n).

(** Linear blends of rows, written as the specification writes them. *)
Definition blend2 (c1 : R) (v1 : vec3) (c2 : R) (v2 : vec3) : vec3 :=
  (c1 * vx v1 + c2 * vx v2, c1 * vy v1 + c2 * vy v2, c1 * vz v1 + c2 * vz v2).

Definition blend3 (c1 : R) (v1 : vec3) (c2 : R) (v2 : vec3)
           (c3 : R) (v3 : vec3) : vec3 :=
  (c1 * vx v1 + c2 * vx v2 + c3 * vx v3,
   c1 * vy v1 + c2 * vy v2 + c3 * vy v3,
   c1 * vz v1 + c2 * vz v2 + c3 * vz v3).

(** The layout of a container over a list of byte sections: the blob is
    the sections laid end to end, the i-th bufferView is as long as the
    i-th section, and every bufferView starts where the ones before it
    end. *)
Definition tiles (g : GLTF2) (sections : list (list byte)) : Prop :=
  binary_blob g = concat sections /\
  map byteLength (bufferViews g) = map (@length byte) sections /\
  (forall k v, nth_error (bufferViews g) k = Some v ->
               byteOffset v
               = list_sum (map byteLength (firstn k (bufferViews g)))) /\
  buffers g = [length (binary_blob g)].

(** Running offsets: every view of the list starts at [off] plus the
    lengths of the views before it. *)
Fixpoint contiguous (off : nat) (views : list BufferView) : Prop :=
  match views with
  | [] => True
  | v :: rest => byteOffset v = off /\ contiguous (off + byteLength v) rest
  end.

(** The byte sections of an asset, in the order the serializers write
    them: positions, normals, indices, then the morph targets in the
    order of the dict. *)
Definition morph_section (f32_bytes : R -> list byte) (nd : string * field)
  : list byte :=
  tobytes_f32 f32_bytes (snd nd).

Definition asset_sections (f32_bytes : R -> list byte) (verts normals : field)
           (fcs : list face) (morphs : dict field) : list (list byte) :=
  [tobytes_f32 f32_bytes verts; tobytes_f32 f32_bytes normals;
   tobytes_u32 (flatten fcs)]
    ++ map (morph_section f32_bytes) morphs.

(** The three parallel lists of a container agree at every position:
    the i-th name is the key of the morph target whose bytes lie behind
    the accessor of the i-th [targets] entry, and the i-th weight is the
    weight [w] gives to that name. *)
Definition index_consistent (f32_bytes : R -> list byte) (morphs : dict field)
           (w : string -> R) (g : GLTF2) : Prop :=
  exists m p,
    meshes g = [m] /\ primitives m = [p] /\
    forall i name, nth_error (targetNames m) i = Some name ->
      exists delta a acc bv,
        dict_get morphs name = Ok delta /\
        nth_error (targets p) i = Some a /\
        nth_error (accessors g) a = Some acc /\
        count acc = length delta /\
        nth_error (bufferViews g) (bufferView acc) = Some bv /\
        slice (binary_blob g) (byteOffset bv) (byteLength bv)
        = tobytes_f32 f32_bytes delta /\
        nth_error (weights m) i = Some (w name).

(** In a container there is one weight, one [targets] entry and one name
    per morph target. *)
Definition one_weight_per_target (n : nat) (g : GLTF2) : Prop :=
  exists m p,
    meshes g = [m] /\ primitives m = [p] /\
    length (weights m) = n /\ length (targets p) = n /\
    length (targetNames m) = n.

(** Two containers that differ at most in the weights of their mesh. *)
Definition same_but_weights (g g' : GLTF2) : Prop :=
  buffers g' = buffers g /\ bufferViews g' = bufferViews g /\
  accessors g' = accessors g /\ materials g' = materials g /\
  nodes g' = nodes g /\ scenes g' = scenes g /\ scene g' = scene g /\
  binary_blob g' = binary_blob g /\
  exists m m', meshes g = [m] /\ meshes g' = [m'] /\
               primitives m' = primitives m /\
               targetNames m' = targetNames m.

Definition mesh_weights (g : GLTF2) : list R :=
  match meshes g with
  | m :: _ => weights m
  | [] => []
  end.

(** The weight vectors of the clinical variants, by target name. *)
Definition ultra_clinical_weight (name : string) : R :=
  if String.eqb name "Weight" then 0.6
  else if String.eqb name "AbdomenGirth" then 0.7
  else if String.eqb name "DiabetesEffect" then 0.5
  else 0.0.

Definition hq_clinical_weight (name : string) : R :=
  if String.eqb name "DiabetesEffect" then 0.5
  else if String.eqb name "HypertensionEffect" then 0.3
  else if String.eqb name "HeartDiseaseEffect" then 0.4
  else 0.0.

Definition zero_weight (name : string) : R := 0.0.

(** A four-byte image that maps every element to zero bytes; it stands
    in for the IEEE image where an example needs a concrete one. *)
Definition zero_image (x : R) : list byte := [x00; x00; x00; x00].

(** Every face of the list refers to vertices below [k]. *)
Definition faces_below (k : nat) (fs : list face) : Prop :=
  Forall (fun f => face_below k f = true) fs.

(** A mesh is well indexed when every face index is below the number of
    its vertices. *)
Definition well_indexed (m : mesh) : Prop :=
  faces_below (length (vertices m)) (faces m).

(** The common shape of the ring-stacking loop bodies: [pts] gives the
    vertices of a row, [stitch prev_n curr_n current_idx] is the body of
    the stitching loop. *)
Definition ring_loop_step {Row : Type} (npts : Row -> nat)
           (pts : Row -> list vec3)
           (stitch : nat -> nat -> nat -> nat -> list face -> result (list face))
           (table : list Row) (ir : nat * Row) (st : asm_state)
  : result asm_state :=
  let '(i, r) := ir in
  let vs := st_vertices st ++ pts r in
  fs <- (if Nat.ltb 0 i then
           prev <- py_index table (i - 1) ;;
           for_each (seq 0 (Nat.max (npts prev) (npts r)))
                    (stitch (npts prev) (npts r) (current_idx st))
                    (st_faces st)
         else Ok (st_faces st)) ;;
  Ok (AsmState vs fs (current_idx st + npts r)).

(** Sum of [max(n_i, n_{i+1})] over the adjacent pairs of a list of ring
    sizes. *)
Fixpoint band_total (ns : list nat) : nat :=
  match ns with
  | a :: (b :: _) as rest => (Nat.max a b + band_total rest)%nat
  | _ => 0%nat
  end.

(** The faces of a list of parts after merging: the faces of every part
    shifted by the number of vertices of the parts before it. *)
Fixpoint offset_parts (off : nat) (ms : list mesh) : list face :=
  match ms with
  | [] => []
  | m :: rest =>
      map (Fixed.offset_face off) (faces m)
          ++ offset_parts (off + length (vertices m)) rest
  end.

(** Every index of the face lies in [[lo, hi)]. *)
Definition index_within (lo hi i : nat) : bool :=
  Nat.leb lo i && Nat.ltb i hi.

Definition face_within (lo hi : nat) (f : face) : bool :=
  index_within lo hi (fst (fst f)) && index_within lo hi (snd (fst f))
  && index_within lo hi (snd f).

Definition faces_within (lo hi : nat) (fs : list face) : Prop :=
  Forall (fun f => face_within lo hi f = true) fs.

(** Every bufferView lies inside the blob, and the bytes it delimits are
    the section at the same position. *)
Definition reads_back (g : GLTF2) (sections : list (list byte)) : Prop :=
  length (bufferViews g) = length sections /\
  forall k v, nth_error (bufferViews g) k = Some v ->
    (byteOffset v + byteLength v <= length (binary_blob g))%nat /\
    nth_error sections k
    = Some (slice (binary_blob g) (byteOffset v) (byteLength v)).

(** Size in bytes of one element of an accessor: [FLOAT] (5126) and
    [UNSIGNED_INT] (5125) components take four bytes; a [VEC3] has three
    components and a [SCALAR] one. *)
Definition element_bytes (a : Accessor) : nat :=
  (if (componentType a =? 5126)%N || (componentType a =? 5125)%N
   then 4 else 0)
  * (if String.eqb (elem_type a) "VEC3" then 3
     else if String.eqb (elem_type a) "SCALAR" then 1 else 0).

(** Accessor [i] reads bufferView [i], and the view is exactly as long
    as the accessor's elements. *)
Definition accessors_fit (g : GLTF2) : Prop :=
  length (accessors g) = length (bufferViews g) /\
  forall i a, nth_error (accessors g) i = Some a ->
    bufferView a = i /\
    exists v, nth_error (bufferViews g) i = Some v /\
              byteLength v = (count a * element_bytes a)%nat.

(** [m] is the largest (smallest) value of a column of an array, and it
    is attained. *)
Definition column_max (col : vec3 -> R) (a : field) (m : R) : Prop :=
  (exists v, In v a /\ col v = m) /\ forall v, In v a -> col v <= m.

Definition column_min (col : vec3 -> R) (a : field) (m : R) : Prop :=
  (exists v, In v a /\ col v = m) /\ forall v, In v a -> m <= col v.

(** The [max] and [min] of an accessor are the per-axis extrema of the
    array [a]. *)
Definition true_bounds (a : field) (acc : Accessor) : Prop :=
  exists hx hy hz lx ly lz,
    acc_max acc = Some [hx; hy; hz] /\ acc_min acc = Some [lx; ly; lz] /\
    column_max vx a hx /\ column_max vy a hy /\ column_max vz a hz /\
    column_min vx a lx /\ column_min vy a ly /\ column_min vz a lz.

(** The position accessor (index 0) carries the extrema of the vertex
    array, and the accessor of the k-th morph target (index 3 + k) the
    extrema of that target's own displacement array. *)
Definition bounds_recorded (verts : field) (morphs : dict field) (g : GLTF2)
  : Prop :=
  (exists a, nth_error (accessors g) 0 = Some a /\ true_bounds verts a) /\
  forall k name delta, nth_error morphs k = Some (name, delta) ->
    exists a, nth_error (accessors g) (3 + k) = Some a /\
              true_bounds delta a.

(** A container is aligned with the ordered pairs of [morphs]: its mesh
    names exactly the keys, in dict order, it has one [targets] entry
    and one weight per pair, and at the position of every pair
    [(name, delta)] the accessor of the [targets] entry views the bytes
    of [delta] and the weight is the one [w] gives to [name]. *)
Definition aligned_with (f32_bytes : R -> list byte) (morphs : dict field)
           (w : string -> R) (g : GLTF2) : Prop :=
  exists m p,
    meshes g = [m] /\ primitives m = [p] /\
    targetNames m = dict_keys morphs /\
    length (targets p) = length morphs /\
    length (weights m) = length morphs /\
    forall i name delta, nth_error morphs i = Some (name, delta) ->
      exists a acc bv,
        nth_error (targetNames m) i = Some name /\
        nth_error (targets p) i = Some a /\
        nth_error (accessors g) a = Some acc /\
        count acc = length delta /\
        nth_error (bufferViews g) (bufferView acc) = Some bv /\
        slice (binary_blob g) (byteOffset bv) (byteLength bv)
        = tobytes_f32 f32_bytes delta /\
        nth_error (weights m) i = Some (w name).

(** Somewhere in a table of rings, a ring without points stands right
    before or right after a ring with points. *)
Definition ring_gap {Row : Type} (npts : Row -> nat) (table : list Row)
  : Prop :=
  exists i r1 r2,
    nth_error table i = Some r1 /\ nth_error table (S i) = Some r2 /\
    ((npts r1 = 0%nat /\ (0 < npts r2)%nat) \/
     ((0 < npts r1)%nat /\ npts r2 = 0%nat)).

(* ================================================================== *)
(** * Properties *)

(** ** Comparisons *)

Lemma Rltb_true (x y : R) : Rltb x y = true <-> x < y.
Proof. unfold Rltb. destruct (Rlt_dec x y); split; intros; try easy. Qed.

Lemma Rltb_false (x y : R) : Rltb x y = false <-> ~ x < y.
Proof. unfold Rltb. destruct (Rlt_dec x y); split; intros; try easy. Qed.

(** ** Radial distance *)

Ltac case_Rltb :=
  repeat match goal with
  | |- context [Rltb ?a ?b] =>
      let H := fresh "Hc" in
      destruct (Rltb a b) eqn:H;
      [apply Rltb_true in H | apply Rltb_false in H]
  end.

Lemma radial_nonneg (x z : R) : 0 <= radial x z.
Proof. unfold radial. apply sqrt_pos. Qed.

Lemma radial_le_abs (x z : R) : radial x z <= Rabs x + Rabs z.
Proof.
  unfold radial.
  assert (Hx : 0 <= Rabs x) by apply Rabs_pos.
  assert (Hz : 0 <= Rabs z) by apply Rabs_pos.
  rewrite <- (sqrt_square (Rabs x + Rabs z)) by lra.
  apply sqrt_le_1.
  - nra.
  - nra.
  - assert (Ex : x ^ 2 = Rabs x * Rabs x).
    { unfold Rabs. destruct (Rcase_abs x); ring. }
    assert (Ez : z ^ 2 = Rabs z * Rabs z).
    { unfold Rabs. destruct (Rcase_abs z); ring. }
    rewrite Ex, Ez. nra.
Qed.


(** ** Profile generator *)

Lemma linspace_open_length (n : nat) : length (Ultra.linspace_open n) = n.
Proof. unfold Ultra.linspace_open. now rewrite length_map, length_seq. Qed.

Lemma create_ellipsoid_profile_length (rx rz : R) (n : nat) (f b s : R) :
  length (Ultra.create_ellipsoid_profile rx rz n f b s) = n.
Proof.
  unfold Ultra.create_ellipsoid_profile.
  now rewrite length_map, linspace_open_length.
Qed.

(** Bound on one sampled point, whatever the angle. *)
Lemma profile_point_bound (rx rz f b s angle : R) :
  0 < rx -> 0 < rz -> 0 <= f <= 1 -> 0 <= b <= 1 -> 0 <= s <= 1 ->
  let p := Ultra.profile_point rx rz f b s angle in
  Rabs (fst p) <= rx * (1 + s) /\ Rabs (snd p) <= rz.
Proof.
  intros Hrx Hrz Hf Hb Hs.
  unfold Ultra.profile_point.
  pose proof (COS_bound angle) as Hc.
  pose proof (SIN_bound angle) as Hsn.
  set (c := cos angle) in *. set (sn := sin angle) in *.
  assert (Hx0 : - rx <= rx * c <= rx) by nra.
  assert (Hz0 : - rz <= rz * sn <= rz) by nra.
  assert (Hrs : 0 <= rx * s) by nra.
  set (x0 := rx * c) in *. set (z0 := rz * sn) in *.
  assert (Hxs : - (rx * s) <= x0 * s <= rx * s) by nra.
  cbv zeta. split.
  - destruct (Rltb 0.7 (Rabs c)); cbn [fst]; apply Rabs_le; lra.
  - destruct (Rltb z0 0) eqn:E1;
      [apply Rltb_true in E1 | apply Rltb_false in E1].
    + assert (Hzb : z0 <= z0 * b <= 0) by nra.
      destruct (Rltb 0 (z0 * (1.0 - b))) eqn:E2;
        [apply Rltb_true in E2; lra | cbn [snd]; apply Rabs_le; lra].
    + destruct (Rltb 0 z0) eqn:E2;
        [apply Rltb_true in E2 | cbn [snd]; apply Rabs_le; lra].
      assert (Hzf : 0 <= z0 * f <= z0) by nra.
      cbn [snd]. apply Rabs_le. lra.
Qed.

(** C7, as the code has it: the ring has [pointCount] points and every
    point lies within [radiusX * (1 + lateralBulge) + radiusZ] of the
    height axis; with [lateralBulge = 0] this is the bound
    [radiusX + radiusZ]. *)
Theorem ring_count_and_radial_bound (rx rz : R) (n : nat) (f b s : R) :
  0 < rx -> 0 < rz -> (3 <= n)%nat ->
  0 <= f <= 1 -> 0 <= b <= 1 -> 0 <= s <= 1 ->
  let ring := Ultra.create_ellipsoid_profile rx rz n f b s in
  length ring = n /\
  forall p, In p ring ->
            0 <= radial (fst p) (snd p) <= rx * (1 + s) + rz.
Proof.
  intros Hrx Hrz Hn Hf Hb Hs ring. split.
  - apply create_ellipsoid_profile_length.
  - intros p Hp. split; [apply radial_nonneg|].
    unfold ring, Ultra.create_ellipsoid_profile in Hp.
    apply in_map_iff in Hp. destruct Hp as [angle [<- _]].
    destruct (profile_point_bound rx rz f b s angle Hrx Hrz Hf Hb Hs) as [Hx Hz].
    eapply Rle_trans; [apply radial_le_abs|]. lra.
Qed.

Lemma ring_count_and_radial_bound_witness :
  let ring := Ultra.create_ellipsoid_profile 0.045 0.11 24 0 0 0 in
  length ring = 24%nat /\
  forall p, In p ring ->
            0 <= radial (fst p) (snd p) <= 0.045 * (1 + 0) + 0.11.
Proof.
  apply (ring_count_and_radial_bound 0.045 0.11 24 0 0 0); try lra; lia.
Defined.

(** C7 as stated fails: with [radiusX = 1], [radiusZ = 0.1],
    [pointCount = 3] and [lateralBulge = 1] the first point of the ring
    is [(2, 0)], at distance 2 from the axis, beyond [radiusX + radiusZ]. *)
Lemma ring_radial_bound_exceeded :
  0 < 1 /\ 0 < 0.1 /\ (3 <= 3)%nat /\ 0 <= 1 <= 1 /\
  exists p, In p (Ultra.create_ellipsoid_profile 1 0.1 3 0 0 1) /\
            radial (fst p) (snd p) > 1 + 0.1.
Proof.
  repeat (split; [lra || lia|]).
  exists (2, 0). split.
  - left. unfold Ultra.profile_point. cbn [INR].
    rewrite Rmult_0_l, cos_0, sin_0.
    replace (0.1 * 0) with 0 by ring.
    rewrite Rabs_R1.
    case_Rltb; try lra. f_equal; lra.
  - cbn [fst snd]. unfold radial.
    replace (2 ^ 2 + 0 ^ 2) with (2 * 2) by ring.
    rewrite sqrt_square; lra.
Qed.

(** ** Mesh assembler *)

Ltac eval_assemble :=
  lazy -[Rmult Rplus Ropp Rminus Rdiv Rinv cos sin PI INR IZR Rabs Rltb].

(** C3: four rings of eight points each (whatever their heights and
    radii) assemble into 64 faces (48 side faces on the 32 ring vertices,
    an 8-triangle fan on each cap centre) and 34 vertices (the ring
    vertices, then the apex centre at index 32 and the sole centre at 33). *)
Theorem four_ring_torso_counts (r1 r2 r3 r4 : Ultra.anatomy_row) (height : R) :
  Ultra.n_pts r1 = 8%nat -> Ultra.n_pts r2 = 8%nat ->
  Ultra.n_pts r3 = 8%nat -> Ultra.n_pts r4 = 8%nat ->
  exists m,
    Ultra.assemble [r1; r2; r3; r4] height = Ok m /\
    length (faces m) = 64%nat /\
    length (vertices m) = 34%nat /\
    length (filter (face_below 32) (faces m)) = 48%nat /\
    length (filter (face_uses 32) (faces m)) = 8%nat /\
    length (filter (face_uses 33) (faces m)) = 8%nat /\
    nth_error (vertices m) 32 = Some (0, Ultra.y_rel r4 * height + 0.01, 0) /\
    nth_error (vertices m) 33 = Some (0, 0.005, 0.04).
Proof.
  intros H1 H2 H3 H4.
  destruct r1, r2, r3, r4; cbn [Ultra.n_pts Ultra.y_rel] in *; subst.
  eexists. split.
  - eval_assemble. reflexivity.
  - repeat split; reflexivity.
Qed.

Lemma four_ring_torso_counts_witness :
  exists m,
    Ultra.assemble [Ultra.arow 0 0.045 0.11 8 0 0 0;
                    Ultra.arow (1 / 3) 0.16 0.105 8 0 0.15 0.05;
                    Ultra.arow (2 / 3) 0.182 0.115 8 0 0.08 0;
                    Ultra.arow 1 0.075 0.088 8 0.05 0 0] 1.75 = Ok m /\
    length (faces m) = 64%nat /\
    length (vertices m) = 34%nat /\
    length (filter (face_below 32) (faces m)) = 48%nat /\
    length (filter (face_uses 32) (faces m)) = 8%nat /\
    length (filter (face_uses 33) (faces m)) = 8%nat /\
    nth_error (vertices m) 32 = Some (0, 1 * 1.75 + 0.01, 0) /\
    nth_error (vertices m) 33 = Some (0, 0.005, 0.04).
Proof.
  apply (four_ring_torso_counts
           (Ultra.arow 0 0.045 0.11 8 0 0 0)
           (Ultra.arow (1 / 3) 0.16 0.105 8 0 0.15 0.05)
           (Ultra.arow (2 / 3) 0.182 0.115 8 0 0.08 0)
           (Ultra.arow 1 0.075 0.088 8 0.05 0 0) 1.75); reflexivity.
Defined.

(** *** Ring sequences with fewer than two entries *)

Lemma ultra_assemble_single (r : Ultra.anatomy_row) (height : R) :
  exists m,
    Ultra.assemble [r] height = Ok m /\
    length (vertices m) = (Ultra.n_pts r + 2)%nat /\
    faces m = top_fan (Ultra.n_pts r) (Ultra.n_pts r) ++
              bottom_fan (Ultra.n_pts r) (Ultra.n_pts r + 1).
Proof.
  eexists. split; [reflexivity|]. cbn [vertices faces].
  split.
  - cbn [st_vertices]. rewrite !length_app, length_map.
    rewrite create_ellipsoid_profile_length. cbn. lia.
  - cbn [st_vertices st_faces current_idx].
    unfold append_faces, top_fan, bottom_fan.
    rewrite !length_app, length_map, create_ellipsoid_profile_length.
    cbn [length app Nat.add]. rewrite Nat.sub_diag.
    replace (Ultra.n_pts r + 1)%nat with (S (Ultra.n_pts r)) by lia.
    reflexivity.
Qed.

Lemma fixed_assemble_single (r : Fixed.torso_row) (height : R) :
  exists m,
    Fixed.assemble [r] height = Ok m /\
    length (vertices m) = (Fixed.n_pts r + 1)%nat /\
    faces m = top_fan (Fixed.n_pts r) (Fixed.n_pts r).
Proof.
  eexists. split; [reflexivity|]. cbn [vertices faces].
  split.
  - cbn [st_vertices]. rewrite !length_app, length_map, length_seq. cbn. lia.
  - cbn [st_vertices st_faces current_idx].
    unfold append_faces, top_fan.
    rewrite !length_app, length_map, length_seq.
    cbn [length app Nat.add]. rewrite Nat.sub_diag.
    reflexivity.
Qed.

(** C5, as the code has it: an empty ring sequence makes both assemblers
    fail with [IndexError] (reading the last profile); a single ring is
    accepted, and the result is a cap-only mesh with no side face. *)
Theorem short_ring_sequences (height : R) :
  Ultra.assemble [] height = Raise IndexError /\
  Fixed.assemble [] height = Raise IndexError /\
  (forall r, exists m,
      Ultra.assemble [r] height = Ok m /\
      length (vertices m) = (Ultra.n_pts r + 2)%nat /\
      faces m = top_fan (Ultra.n_pts r) (Ultra.n_pts r) ++
                bottom_fan (Ultra.n_pts r) (Ultra.n_pts r + 1)) /\
  (forall r, exists m,
      Fixed.assemble [r] height = Ok m /\
      length (vertices m) = (Fixed.n_pts r + 1)%nat /\
      faces m = top_fan (Fixed.n_pts r) (Fixed.n_pts r)).
Proof.
  split; [reflexivity|]. split; [reflexivity|]. split.
  - intros r. apply ultra_assemble_single.
  - intros r. apply fixed_assemble_single.
Qed.

(** C5 as stated fails: a sequence of one ring of eight points has fewer
    than two entries, yet both assemblers return a mesh made of cap fans
    only instead of an error. *)
Lemma single_ring_is_accepted :
  (length [Ultra.arow 0 0.045 0.11 8 0 0 0] < 2)%nat /\
  (exists m, Ultra.assemble [Ultra.arow 0 0.045 0.11 8 0 0 0] 1.75 = Ok m /\
             length (faces m) = 16%nat /\
             length (filter (face_below 8) (faces m)) = 0%nat) /\
  (length [Fixed.trow 0.50 0.16 0.10 8] < 2)%nat /\
  (exists m, Fixed.assemble [Fixed.trow 0.50 0.16 0.10 8] 1.75 = Ok m /\
             length (faces m) = 8%nat /\
             length (filter (face_below 8) (faces m)) = 0%nat).
Proof.
  split; [cbn; lia|]. split.
  - eexists. split; [eval_assemble; reflexivity|]. split; reflexivity.
  - split; [cbn; lia|].
    eexists. split; [eval_assemble; reflexivity|]. split; reflexivity.
Qed.

(** ** Morph-target synthesis *)

(** The seven entries of the dict built by [Ultra.create_morph_targets],
    in insertion order. *)
Lemma ultra_morph_items (vs : field) (height : R) :
  let w := Ultra.weight_field vs height in
  let a := Ultra.abdomen_field vs height in
  let p := Ultra.posture_field vs height in
  dict_items (Ultra.create_morph_targets vs height) =
  [("Weight"%string, w);
   ("AbdomenGirth"%string, a);
   ("MuscleMass"%string, Ultra.muscle_field vs height);
   ("Posture"%string, p);
   ("DiabetesEffect"%string, Ultra.diabetes_field w a vs height);
   ("HypertensionEffect"%string, Ultra.hypertension_field w a);
   ("HeartDiseaseEffect"%string, Ultra.heart_field w p a)].
Proof. reflexivity. Qed.

Lemma fixed_morph_items (vs : field) (height : R) (m : dict field) :
  Fixed.create_morph_targets vs height = Ok m ->
  exists y_min y_max,
    arr_min (map vy vs) = Ok y_min /\ arr_max (map vy vs) = Ok y_max /\
    let w := map (Fixed.weight_row y_min y_max) vs in
    let a := map (Fixed.abdomen_row y_min y_max) vs in
    let p := map (Fixed.posture_row y_min y_max) vs in
    dict_items m =
    [("Weight"%string, w);
     ("AbdomenGirth"%string, a);
     ("MuscleMass"%string, map (Fixed.muscle_row y_min y_max) vs);
     ("Posture"%string, p);
     ("DiabetesEffect"%string, Fixed.diabetes_field w a);
     ("HypertensionEffect"%string, Fixed.hypertension_field w a);
     ("HeartDiseaseEffect"%string, Fixed.heart_field w p)].
Proof.
  unfold Fixed.create_morph_targets.
  destruct (arr_min (map vy vs)) as [y_min|e] eqn:Emin; [|discriminate].
  destruct (arr_max (map vy vs)) as [y_max|e] eqn:Emax; [|discriminate].
  cbn [bind]. intros H. injection H as <-.
  exists y_min, y_max. repeat split.
Qed.

Lemma fixed_morph_returns (vs : field) (height : R) :
  vs <> [] -> exists m, Fixed.create_morph_targets vs height = Ok m.
Proof.
  intros Hne. destruct vs as [|v vs]; [contradiction|].
  unfold Fixed.create_morph_targets. cbn [map arr_min arr_max bind].
  eexists. reflexivity.
Qed.

(** *** The Weight field on the midline *)






(** *** The AbdomenGirth field *)

Lemma ultra_abdomen_posterior (height : R) (v : vec3) :
  vz v <= 0 -> Ultra.abdomen_row height v = vzero.
Proof.
  intros Hz. unfold Ultra.abdomen_row. cbv zeta.
  destruct (Rltb 0 (vz v)) eqn:E; [apply Rltb_true in E; lra | reflexivity].
Qed.

Lemma ultra_abdomen_front (height : R) (v : vec3) :
  0 < vz v ->
  let y_factor := exp ((- ((vy v / height - 0.60) ^ 2)) / 0.015) in
  Ultra.abdomen_row height v =
  ((if Rltb 0.05 (Rabs (vx v)) then np_sign (vx v) * 0.03 * y_factor else 0),
   0,
   0.15 * y_factor * Rmin (vz v / 0.08) 1.0).
Proof.
  intros Hz. unfold Ultra.abdomen_row. cbv zeta.
  rewrite (proj2 (Rltb_true 0 (vz v)) Hz). reflexivity.
Qed.

Lemma ultra_abdomen_z_nonneg (height : R) (v : vec3) :
  0 <= vz (Ultra.abdomen_row height v).
Proof.
  destruct (Rlt_dec 0 (vz v)) as [Hz|Hz].
  - rewrite ultra_abdomen_front by exact Hz. cbv zeta. cbn [vz snd].
    pose proof (exp_pos ((- ((vy v / height - 0.60) ^ 2)) / 0.015)) as He.
    assert (0 < Rmin (vz v / 0.08) 1.0).
    { apply Rmin_glb_lt; lra. }
    nra.
  - rewrite ultra_abdomen_posterior by lra. cbn. lra.
Qed.

Lemma ultra_abdomen_z_pos (height : R) (v : vec3) :
  0 < vz v -> 0 < vz (Ultra.abdomen_row height v).
Proof.
  intros Hz. rewrite ultra_abdomen_front by exact Hz. cbv zeta. cbn [vz snd].
  pose proof (exp_pos ((- ((vy v / height - 0.60) ^ 2)) / 0.015)) as He.
  assert (0 < Rmin (vz v / 0.08) 1.0).
  { apply Rmin_glb_lt; lra. }
  nra.
Qed.

(** The forward push grows with the depth of the vertex. *)
Lemma ultra_abdomen_z_monotone (height : R) (v v' : vec3) :
  vy v = vy v' -> vz v <= vz v' ->
  vz (Ultra.abdomen_row height v) <= vz (Ultra.abdomen_row height v').
Proof.
  intros Hy Hz.
  destruct (Rlt_dec 0 (vz v)) as [Hp|Hp].
  - rewrite !ultra_abdomen_front by lra. cbv zeta. cbn [vz snd].
    rewrite Hy.
    pose proof (exp_pos ((- ((vy v' / height - 0.60) ^ 2)) / 0.015)) as He.
    set (yf := exp _) in *.
    assert (Rmin (vz v / 0.08) 1.0 <= Rmin (vz v' / 0.08) 1.0).
    { apply Rle_min_compat_r. lra. }
    nra.
  - rewrite (ultra_abdomen_posterior height v) by lra.
    cbn [vzero vz snd]. apply ultra_abdomen_z_nonneg.
Qed.

Lemma fixed_abdomen_radial (y_min y_max : R) (v : vec3) :
  exists k, 0 <= k /\
            Fixed.abdomen_row y_min y_max v = (k * vx v, 0, k * vz v).
Proof.
  unfold Fixed.abdomen_row. cbv zeta.
  set (yn := Fixed.y_norm_of y_min y_max v).
  destruct (Rltb 0.5 yn && Rltb yn 0.75);
    [destruct (Rltb 0.02 (sqrt (vx v ^ 2 + vz v ^ 2)))|].
  - set (ff := 1.0 + 0.5 * Rmax 0 (vz v / (Rabs (vz v) + 0.01))).
    set (yf := exp ((- ((yn - 0.62) ^ 2)) / 0.01)).
    set (nn := norm3 (vx v, 0, vz v) + 1e-6).
    assert (Hnn : 0 < nn).
    { unfold nn, norm3. pose proof (sqrt_pos (vx (vx v, 0, vz v) ^ 2 +
        vy (vx v, 0, vz v) ^ 2 + vz (vx v, 0, vz v) ^ 2)). lra. }
    assert (Hff : 1 <= ff).
    { unfold ff. pose proof (Rmax_l 0 (vz v / (Rabs (vz v) + 0.01))). lra. }
    assert (Hyf : 0 < yf) by apply exp_pos.
    exists (/ nn * Fixed.SCALE * 1.5 * ff * yf). split.
    + assert (0 < / nn) by now apply Rinv_0_lt_compat.
      unfold Fixed.SCALE.
      assert (0 <= / nn * 0.05 * 1.5) by nra.
      assert (0 <= / nn * 0.05 * 1.5 * ff) by nra.
      nra.
    + unfold Fixed.radial_direction, Fixed.vdiv, vscale. cbv zeta.
      fold nn. cbn [vx vy vz fst snd]. unfold Rdiv.
      f_equal; [f_equal|]; ring.
  - exists 0. split; [lra|]. unfold vzero. f_equal; [f_equal|]; ring.
  - exists 0. split; [lra|]. unfold vzero. f_equal; [f_equal|]; ring.
Qed.

(** C4, as the code has it.  Ultra: a posterior vertex gets the zero
    displacement; a front vertex gets no vertical component, a positive
    forward component [0.15 * y_factor * min(z / 0.08, 1)] that grows with
    the depth of the vertex, and, when [|x| > 0.05], a lateral component
    [sign(x) * 0.03 * y_factor].  Fixed: the displacement is a non-negative
    multiple of the radial direction [(x, 0, z)]. *)
Theorem abdomen_girth_displacement (vs : field) (height y_min y_max : R) :
  dict_get (Ultra.create_morph_targets vs height) "AbdomenGirth"
    = Ok (map (Ultra.abdomen_row height) vs) /\
  (forall v, vz v <= 0 -> Ultra.abdomen_row height v = vzero) /\
  (forall v, 0 < vz v ->
     let y_factor := exp ((- ((vy v / height - 0.60) ^ 2)) / 0.015) in
     let d := Ultra.abdomen_row height v in
     vx d = (if Rltb 0.05 (Rabs (vx v))
             then np_sign (vx v) * 0.03 * y_factor else 0) /\
     vy d = 0 /\
     vz d = 0.15 * y_factor * Rmin (vz v / 0.08) 1.0 /\
     0 < vz d) /\
  (forall v v', vy v = vy v' -> vz v <= vz v' ->
     vz (Ultra.abdomen_row height v) <= vz (Ultra.abdomen_row height v')) /\
  (forall v, exists k, 0 <= k /\
     Fixed.abdomen_row y_min y_max v = (k * vx v, 0, k * vz v)).
Proof.
  split; [reflexivity|]. split; [|split; [|split]].
  - intros v. apply ultra_abdomen_posterior.
  - intros v Hz. cbv zeta.
    split; [|split; [|split]];
      try (rewrite ultra_abdomen_front by exact Hz; reflexivity).
    now apply ultra_abdomen_z_pos.
  - intros v v'. apply ultra_abdomen_z_monotone.
  - intros v. apply fixed_abdomen_radial.
Qed.

Lemma sqrt_of_square (x r : R) : 0 <= r -> x = r * r -> sqrt x = r.
Proof. intros Hr ->. now apply sqrt_square. Qed.

Lemma exp_of_zero (x : R) : x = 0 -> exp x = 1.
Proof. intros ->. apply exp_0. Qed.

Ltac eval_Rltb :=
  repeat match goal with
  | |- context [Rltb ?a ?b] =>
      first [ rewrite (proj2 (Rltb_true a b)) by lra
            | rewrite (proj2 (Rltb_false a b)) by lra ]
  end.

(** C4 as stated fails.  Ultra: the front vertex [(1, 0.6, 0.08)] of a
    mesh of height 1 is displaced by [(0.03, 0, 0.15)], which is not purely
    along +Z.  Fixed: in the mesh [(0,0,0); (0,1,0); (0,0.62,-1)] the third
    vertex is posterior, yet its displacement has a negative Z component. *)
Lemma abdomen_girth_not_front_only :
  dict_get (Ultra.create_morph_targets [(1, 0.6, 0.08)] 1) "AbdomenGirth"
    = Ok [(0.03, 0, 0.15)] /\
  exists m d0 d1 d2,
    Fixed.create_morph_targets [(0, 0, 0); (0, 1, 0); (0, 0.62, -1)] 1.75
      = Ok m /\
    dict_get m "AbdomenGirth" = Ok [d0; d1; d2] /\
    vz (0, 0.62, -1) <= 0 /\ vz d2 < 0.
Proof.
  split.
  - change (dict_get (Ultra.create_morph_targets [(1, 0.6, 0.08)] 1)
                     "AbdomenGirth")
      with (Ok [Ultra.abdomen_row 1 (1, 0.6, 0.08)]).
    do 2 f_equal. unfold Ultra.abdomen_row. cbv zeta. cbn [vx vy vz fst snd].
    rewrite (exp_of_zero ((- ((0.6 / 1 - 0.60) ^ 2)) / 0.015)) by lra.
    rewrite Rabs_R1. unfold np_sign, Rmin.
    destruct (Rle_dec (0.08 / 0.08) 1.0); [|lra].
    eval_Rltb. f_equal; [f_equal|]; lra.
  - assert (Hmin : arr_min (map vy [(0, 0, 0); (0, 1, 0); (0, 0.62, -1)]) = Ok 0).
    { cbn [map arr_min fold_left vy fst snd]. f_equal.
      unfold Rmin. repeat (destruct (Rle_dec _ _)); lra. }
    assert (Hmax : arr_max (map vy [(0, 0, 0); (0, 1, 0); (0, 0.62, -1)]) = Ok 1).
    { cbn [map arr_max fold_left vy fst snd]. f_equal.
      unfold Rmax. repeat (destruct (Rle_dec _ _)); lra. }
    unfold Fixed.create_morph_targets. rewrite Hmin, Hmax. cbn [bind].
    eexists. exists (Fixed.abdomen_row 0 1 (0, 0, 0)),
                    (Fixed.abdomen_row 0 1 (0, 1, 0)),
                    (Fixed.abdomen_row 0 1 (0, 0.62, -1)).
    split; [reflexivity|]. split; [reflexivity|].
    split; [cbn; lra|].
    unfold Fixed.abdomen_row, Fixed.y_norm_of. cbv zeta. cbn [vx vy vz fst snd].
    rewrite (sqrt_of_square (0 ^ 2 + (-1) ^ 2) 1) by lra.
    eval_Rltb. cbn [andb].
    unfold Fixed.radial_direction, Fixed.vdiv, norm3, vscale. cbv zeta.
    cbn [vx vy vz fst snd].
    rewrite (sqrt_of_square (0 ^ 2 + 0 ^ 2 + (-1) ^ 2) 1) by lra.
    pose proof (exp_pos ((- (((0.62 - 0) / (1 - 0) - 0.62) ^ 2)) / 0.01)) as He.
    set (yf := exp _) in *.
    pose proof (Rmax_l 0 (-1 / (Rabs (-1) + 0.01))) as Hm.
    set (mx := Rmax _ _) in *.
    assert (Hd : -1 / (1 + 1e-6) < 0).
    { apply Ropp_lt_cancel. rewrite Ropp_0.
      replace (- (-1 / (1 + 1e-6))) with (1 / (1 + 1e-6)) by (field; lra).
      apply Rdiv_lt_0_compat; lra. }
    set (dz := -1 / (1 + 1e-6)) in *.
    assert (dz * Fixed.SCALE * 1.5 < 0) by (unfold Fixed.SCALE; nra).
    assert (dz * Fixed.SCALE * 1.5 * (1.0 + 0.5 * mx) < 0) by nra.
    nra.
Qed.

(** *** Composite axes *)

Lemma nth_error_arr_scale (a : field) (k : R) (i : nat) (v : vec3) :
  nth_error a i = Some v ->
  nth_error (arr_scale a k) i = Some (vscale v k).
Proof.
  intros H. unfold arr_scale.
  exact (map_nth_error (fun u => vscale u k) i a H).
Qed.

Lemma nth_error_arr_add (a b : field) (i : nat) (x y : vec3) :
  nth_error a i = Some x -> nth_error b i = Some y ->
  nth_error (arr_add a b) i = Some (vadd x y).
Proof.
  revert b i. induction a as [|x0 a IH]; intros b i Ha Hb.
  - destruct i; discriminate.
  - destruct b as [|y0 b]; [destruct i; discriminate|].
    destruct i as [|i]; cbn in *.
    + now injection Ha as ->; injection Hb as ->.
    + now apply IH.
Qed.

Lemma nth_error_update_rows (upd : vec3 -> vec3 -> vec3) (a vs : field)
      (i : nat) (x v : vec3) :
  nth_error a i = Some x -> nth_error vs i = Some v ->
  nth_error (update_rows upd a vs) i = Some (upd x v).
Proof.
  revert vs i. induction a as [|x0 a IH]; intros vs i Ha Hv.
  - destruct i; discriminate.
  - destruct vs as [|v0 vs]; [destruct i; discriminate|].
    destruct i as [|i]; cbn in *.
    + now injection Ha as ->; injection Hv as ->.
    + now apply IH.
Qed.

Lemma nth_error_in_range {A : Type} (xs : list A) (i : nat) :
  (i < length xs)%nat -> exists x, nth_error xs i = Some x.
Proof.
  intros Hi. destruct (nth_error xs i) eqn:E; [now eexists|].
  apply nth_error_None in E. lia.
Qed.

Lemma vadd_vscale_blend2 (c1 c2 : R) (v1 v2 : vec3) :
  vadd (vscale v1 c1) (vscale v2 c2) = blend2 c1 v1 c2 v2.
Proof.
  unfold vadd, vscale, blend2. cbn [vx vy vz fst snd].
  f_equal; [f_equal|]; ring.
Qed.

Lemma vadd_vscale_blend3 (c1 c2 c3 : R) (v1 v2 v3 : vec3) :
  vadd (vadd (vscale v1 c1) (vscale v2 c2)) (vscale v3 c3)
  = blend3 c1 v1 c2 v2 c3 v3.
Proof.
  unfold vadd, vscale, blend3. cbn [vx vy vz fst snd].
  f_equal; [f_equal|]; ring.
Qed.

Lemma vadd_zero_r (v : vec3) : vadd v vzero = v.
Proof.
  destruct v as [[x y] z]. unfold vadd, vzero. cbn [vx vy vz fst snd].
  f_equal; [f_equal|]; ring.
Qed.

Lemma ultra_diabetes_fluid_off (height : R) (d v : vec3) :
  ~ vy v / height < 0.3 -> Ultra.diabetes_fluid height d v = d.
Proof.
  intros H. unfold Ultra.diabetes_fluid. cbv zeta.
  now rewrite (proj2 (Rltb_false _ _) H).
Qed.

(** Rows of the composites of [create_fixed_avatar.py]. *)
Lemma fixed_composite_rows (w a p : field) (i : nat) (wi ai pi : vec3) :
  nth_error w i = Some wi -> nth_error a i = Some ai ->
  nth_error p i = Some pi ->
  nth_error (Fixed.diabetes_field w a) i = Some (blend2 0.5 wi 0.8 ai) /\
  nth_error (Fixed.hypertension_field w a) i = Some (blend2 0.3 wi 0.4 ai) /\
  nth_error (Fixed.heart_field w p) i = Some (blend2 0.2 wi 0.5 pi).
Proof.
  intros Hw Ha Hp.
  unfold Fixed.diabetes_field, Fixed.hypertension_field, Fixed.heart_field.
  repeat split; rewrite <- vadd_vscale_blend2;
    apply nth_error_arr_add; now apply nth_error_arr_scale.
Qed.

(** Rows of the composites of [create_ultra_detailed_avatar.py]. *)
Lemma ultra_composite_rows (w a p vs : field) (height : R) (i : nat)
      (wi ai pi vi : vec3) :
  nth_error w i = Some wi -> nth_error a i = Some ai ->
  nth_error p i = Some pi -> nth_error vs i = Some vi ->
  nth_error (Ultra.diabetes_field w a vs height) i
    = Some (Ultra.diabetes_fluid height (blend2 0.35 wi 0.55 ai) vi) /\
  nth_error (Ultra.hypertension_field w a) i = Some (blend2 0.25 wi 0.35 ai) /\
  nth_error (Ultra.heart_field w p a) i
    = Some (blend3 0.45 wi 0.35 pi 0.2 ai).
Proof.
  intros Hw Ha Hp Hv.
  unfold Ultra.diabetes_field, Ultra.hypertension_field, Ultra.heart_field.
  repeat split.
  - cbv zeta. apply nth_error_update_rows; [|exact Hv].
    rewrite <- vadd_vscale_blend2.
    rewrite <- (vadd_zero_r (vadd (vscale wi 0.35) (vscale ai 0.55))).
    apply nth_error_arr_add.
    + apply nth_error_arr_add; now apply nth_error_arr_scale.
    + unfold Ultra.zeros_like.
      exact (map_nth_error (fun _ => vzero) i w Hw).
  - rewrite <- vadd_vscale_blend2.
    apply nth_error_arr_add; now apply nth_error_arr_scale.
  - rewrite <- vadd_vscale_blend3.
    apply nth_error_arr_add; [apply nth_error_arr_add|];
      now apply nth_error_arr_scale.
Qed.

(** C1, as the code has it.  In [create_fixed_avatar.py] the composites
    are, row by row, [0.5 W + 0.8 A], [0.3 W + 0.4 A] and [0.2 W + 0.5 P].
    In [create_ultra_detailed_avatar.py] they are [0.35 W + 0.55 A]
    followed by the leg fluid-retention update (the identity on a vertex
    with [y_norm >= 0.3]), [0.25 W + 0.35 A] and
    [0.45 W + 0.35 P + 0.2 A]. *)
Theorem composite_blends (vs : field) (height : R) :
  (forall m, Fixed.create_morph_targets vs height = Ok m ->
     exists w a p d h hd,
       dict_get m "Weight" = Ok w /\
       dict_get m "AbdomenGirth" = Ok a /\
       dict_get m "Posture" = Ok p /\
       dict_get m "DiabetesEffect" = Ok d /\
       dict_get m "HypertensionEffect" = Ok h /\
       dict_get m "HeartDiseaseEffect" = Ok hd /\
       forall i, (i < length vs)%nat ->
         exists wi ai pi,
           nth_error w i = Some wi /\ nth_error a i = Some ai /\
           nth_error p i = Some pi /\
           nth_error d i = Some (blend2 0.5 wi 0.8 ai) /\
           nth_error h i = Some (blend2 0.3 wi 0.4 ai) /\
           nth_error hd i = Some (blend2 0.2 wi 0.5 pi)) /\
  (vs <> [] -> exists m, Fixed.create_morph_targets vs height = Ok m) /\
  (exists w a p d h hd,
     let m := Ultra.create_morph_targets vs height in
     dict_get m "Weight" = Ok w /\
     dict_get m "AbdomenGirth" = Ok a /\
     dict_get m "Posture" = Ok p /\
     dict_get m "DiabetesEffect" = Ok d /\
     dict_get m "HypertensionEffect" = Ok h /\
     dict_get m "HeartDiseaseEffect" = Ok hd /\
     forall i, (i < length vs)%nat ->
       exists wi ai pi vi,
         nth_error w i = Some wi /\ nth_error a i = Some ai /\
         nth_error p i = Some pi /\ nth_error vs i = Some vi /\
         nth_error d i
           = Some (Ultra.diabetes_fluid height (blend2 0.35 wi 0.55 ai) vi) /\
         (~ vy vi / height < 0.3 ->
          nth_error d i = Some (blend2 0.35 wi 0.55 ai)) /\
         nth_error h i = Some (blend2 0.25 wi 0.35 ai) /\
         nth_error hd i = Some (blend3 0.45 wi 0.35 pi 0.2 ai)).
Proof.
  split; [|split].
  - intros m Hm.
    destruct (fixed_morph_items vs height m Hm)
      as (y_min & y_max & _ & _ & Hitems).
    cbv zeta in Hitems. unfold dict_items in Hitems. subst m.
    do 6 eexists. repeat (split; [reflexivity|]).
    intros i Hi.
    destruct (nth_error_in_range vs i Hi) as [vi Hvi].
    exists (Fixed.weight_row y_min y_max vi),
           (Fixed.abdomen_row y_min y_max vi),
           (Fixed.posture_row y_min y_max vi).
    assert (Hw := map_nth_error (Fixed.weight_row y_min y_max) i vs Hvi).
    assert (Ha := map_nth_error (Fixed.abdomen_row y_min y_max) i vs Hvi).
    assert (Hp := map_nth_error (Fixed.posture_row y_min y_max) i vs Hvi).
    repeat (split; [assumption|]).
    now apply fixed_composite_rows.
  - apply fixed_morph_returns.
  - do 6 eexists. cbv zeta. repeat (split; [reflexivity|]).
    intros i Hi.
    destruct (nth_error_in_range vs i Hi) as [vi Hvi].
    exists (Ultra.weight_row height vi), (Ultra.abdomen_row height vi),
           (Ultra.posture_row height vi), vi.
    assert (Hw := map_nth_error (Ultra.weight_row height) i vs Hvi).
    assert (Ha := map_nth_error (Ultra.abdomen_row height) i vs Hvi).
    assert (Hp := map_nth_error (Ultra.posture_row height) i vs Hvi).
    destruct (ultra_composite_rows _ _ _ vs height i _ _ _ vi Hw Ha Hp Hvi)
      as (Hd & Hh & Hhd).
    repeat (split; [assumption|]).
    split; [|split; assumption].
    intros Hy. unfold Ultra.weight_field, Ultra.abdomen_field in *.
    rewrite Hd. now rewrite ultra_diabetes_fluid_off.
Qed.

Lemma composite_blends_witness :
  exists m, Fixed.create_morph_targets [(0, 0, 0); (0, 1, 0)] 1.75 = Ok m.
Proof.
  refine (proj1 (proj2 (composite_blends [(0, 0, 0); (0, 1, 0)] 1.75)) _).
  discriminate.
Defined.

(** C1 as stated fails on [create_ultra_detailed_avatar.py]: for the
    one-vertex mesh [(1, 0.65, 0)] of height 1 the primaries are
    [Weight = (0.07, 0, 0)] and [AbdomenGirth = 0], and HypertensionEffect
    is [(0.0175, 0, 0)], not [0.3 * Weight + 0.4 * AbdomenGirth]. *)
Lemma ultra_composites_use_other_coefficients :
  let m := Ultra.create_morph_targets [(1, 0.65, 0)] 1 in
  dict_get m "Weight" = Ok [(0.07, 0, 0)] /\
  dict_get m "AbdomenGirth" = Ok [vzero] /\
  dict_get m "HypertensionEffect" = Ok [(0.0175, 0, 0)] /\
  (0.0175, 0, 0) <> blend2 0.3 (0.07, 0, 0) 0.4 vzero.
Proof.
  assert (Hw : Ultra.weight_row 1 (1, 0.65, 0) = (0.07, 0, 0)).
  { unfold Ultra.weight_row. cbv zeta. cbn [vx vy vz fst snd].
    rewrite (sqrt_of_square (1 ^ 2 + 0 ^ 2) 1) by lra.
    rewrite (exp_of_zero ((- ((0.65 / 1 - 0.65) ^ 2)) / 0.08)) by lra.
    eval_Rltb. f_equal; [f_equal|]; lra. }
  assert (Ha : Ultra.abdomen_row 1 (1, 0.65, 0) = vzero).
  { apply ultra_abdomen_posterior. cbn. lra. }
  cbv zeta. split; [|split; [|split]].
  - change (dict_get (Ultra.create_morph_targets [(1, 0.65, 0)] 1) "Weight")
      with (Ok [Ultra.weight_row 1 (1, 0.65, 0)]).
    now rewrite Hw.
  - change (dict_get (Ultra.create_morph_targets [(1, 0.65, 0)] 1)
                     "AbdomenGirth")
      with (Ok [Ultra.abdomen_row 1 (1, 0.65, 0)]).
    now rewrite Ha.
  - change (dict_get (Ultra.create_morph_targets [(1, 0.65, 0)] 1)
                     "HypertensionEffect")
      with (Ok [vadd (vscale (Ultra.weight_row 1 (1, 0.65, 0)) 0.25)
                     (vscale (Ultra.abdomen_row 1 (1, 0.65, 0)) 0.35)]).
    rewrite Hw, Ha. unfold vadd, vscale, vzero. cbn [vx vy vz fst snd].
    do 2 f_equal. f_equal; [f_equal|]; lra.
  - unfold blend2, vzero. cbn [vx vy vz fst snd].
    intros H. injection H as H _ _. lra.
Qed.

(** ** Lists, dicts and loops *)

Lemma dict_get_set_same {V : Type} (d : dict V) (k : string) (v : V) :
  dict_get (dict_set d k v) k = Ok v.
Proof.
  induction d as [|[k' v'] d IH]; cbn.
  - now rewrite String.eqb_refl.
  - destruct (String.eqb k' k) eqn:E; cbn; rewrite E; [reflexivity|exact IH].
Qed.

Lemma dict_get_set_other {V : Type} (d : dict V) (k k' : string) (v : V) :
  k <> k' -> dict_get (dict_set d k v) k' = dict_get d k'.
Proof.
  intros Hne. induction d as [|[k0 v0] d IH]; cbn.
  - destruct (String.eqb k k') eqn:E; [|reflexivity].
    apply String.eqb_eq in E. contradiction.
  - destruct (String.eqb k0 k) eqn:E; cbn.
    + apply String.eqb_eq in E. subst k0.
      destruct (String.eqb k k') eqn:E'; [|reflexivity].
      apply String.eqb_eq in E'. contradiction.
    + destruct (String.eqb k0 k'); [reflexivity|exact IH].
Qed.

(** In a well-formed dict the entry found under a key is the one stored
    with it. *)
Lemma dict_get_nth {V : Type} (d : dict V) (i : nat) (k : string) (v : V) :
  dict_wf d -> nth_error d i = Some (k, v) -> dict_get d k = Ok v.
Proof.
  unfold dict_wf, dict_keys. revert i.
  induction d as [|[k' v'] d IH]; intros i Hwf Hi.
  - destruct i; discriminate.
  - cbn in Hwf. inversion Hwf as [|? ? Hnotin Hwf']; subst.
    destruct i as [|i]; cbn in Hi.
    + injection Hi as -> ->. cbn. now rewrite String.eqb_refl.
    + cbn. destruct (String.eqb k' k) eqn:E.
      * apply String.eqb_eq in E. subst k'.
        exfalso. apply Hnotin.
        apply nth_error_In in Hi. apply (in_map fst) in Hi. exact Hi.
      * now apply (IH i).
Qed.

Lemma map_result_length {A B : Type} (f : A -> result B) (xs : list A)
      (ys : list B) :
  map_result f xs = Ok ys -> length ys = length xs.
Proof.
  revert ys. induction xs as [|x xs IH]; cbn; intros ys H.
  - now injection H as <-.
  - destruct (f x); [|discriminate]. cbn in H.
    destruct (map_result f xs) eqn:E; [|discriminate]. cbn in H.
    injection H as <-. cbn. f_equal. now apply IH.
Qed.

Lemma map_result_nth {A B : Type} (f : A -> result B) (xs : list A)
      (ys : list B) (i : nat) (x : A) :
  map_result f xs = Ok ys -> nth_error xs i = Some x ->
  exists y, nth_error ys i = Some y /\ f x = Ok y.
Proof.
  revert ys i. induction xs as [|x0 xs IH]; cbn; intros ys i H Hi.
  - destruct i; discriminate.
  - destruct (f x0) eqn:E0; [|discriminate]. cbn in H.
    destruct (map_result f xs) eqn:E; [|discriminate]. cbn in H.
    injection H as <-. destruct i as [|i]; cbn in *.
    + injection Hi as <-. now eexists.
    + now apply IH.
Qed.

Lemma map_result_ext_in {A B : Type} (f g : A -> result B) (xs : list A) :
  (forall x, In x xs -> f x = g x) -> map_result f xs = map_result g xs.
Proof.
  induction xs as [|x xs IH]; cbn; intros H; [reflexivity|].
  rewrite (H x) by now left.
  rewrite IH; [reflexivity|]. intros y Hy. apply H. now right.
Qed.

Lemma map_result_dict_items {V : Type} (d : dict V) :
  dict_wf d -> map_result (dict_get d) (dict_keys d) = Ok (map snd d).
Proof.
  unfold dict_wf, dict_keys.
  induction d as [|[k v] d IH]; intros Hwf; [reflexivity|].
  cbn [map fst] in Hwf. inversion Hwf as [|? ? Hnotin Hwf']; subst.
  cbn [map fst snd map_result].
  replace (dict_get ((k, v) :: d) k) with (Ok v)
    by (cbn; now rewrite String.eqb_refl).
  cbn [bind].
  rewrite (map_result_ext_in (dict_get ((k, v) :: d)) (dict_get d)).
  - rewrite IH by assumption. reflexivity.
  - intros x Hx. cbn. destruct (String.eqb k x) eqn:E; [|reflexivity].
    apply String.eqb_eq in E. subst x. contradiction.
Qed.

Lemma length_concat_sum {A : Type} (ls : list (list A)) :
  length (concat ls) = list_sum (map (@length A) ls).
Proof.
  induction ls as [|l ls IH]; cbn; [reflexivity|].
  now rewrite length_app, IH.
Qed.

Lemma contiguous_nth (off : nat) (views : list BufferView) (k : nat)
      (v : BufferView) :
  contiguous off views -> nth_error views k = Some v ->
  byteOffset v = (off + list_sum (map byteLength (firstn k views)))%nat.
Proof.
  revert off k. induction views as [|x views IH]; intros off k Hc Hk.
  - destruct k; discriminate.
  - destruct Hc as [Hx Hc]. destruct k as [|k].
    + cbn in Hk. injection Hk as <-. rewrite Hx. cbn [firstn map list_sum].
      now rewrite Nat.add_0_r.
    + cbn in Hk. rewrite (IH _ _ Hc Hk). unfold list_sum.
      cbn [firstn map fold_right]. lia.
Qed.

Lemma list_set_length {A : Type} (xs : list A) (i : nat) (v : A)
      (ys : list A) :
  list_set xs i v = Ok ys -> length ys = length xs.
Proof.
  revert i ys. induction xs as [|x xs IH]; intros i ys H; [discriminate|].
  destruct i as [|i]; cbn in H.
  - now injection H as <-.
  - destruct (list_set xs i v) eqn:E; [|discriminate]. cbn in H.
    injection H as <-. cbn. f_equal. now apply (IH i).
Qed.

Lemma list_set_nth_same {A : Type} (xs : list A) (i : nat) (v : A)
      (ys : list A) :
  list_set xs i v = Ok ys -> nth_error ys i = Some v.
Proof.
  revert i ys. induction xs as [|x xs IH]; intros i ys H; [discriminate|].
  destruct i as [|i]; cbn in H.
  - now injection H as <-.
  - destruct (list_set xs i v) eqn:E; [|discriminate]. cbn in H.
    injection H as <-. cbn. now apply IH.
Qed.

Lemma list_set_nth_other {A : Type} (xs : list A) (i j : nat) (v : A)
      (ys : list A) :
  list_set xs i v = Ok ys -> j <> i -> nth_error ys j = nth_error xs j.
Proof.
  revert i j ys. induction xs as [|x xs IH]; intros i j ys H Hne;
    [discriminate|].
  destruct i as [|i]; cbn in H.
  - injection H as <-. destruct j; [contradiction|reflexivity].
  - destruct (list_set xs i v) eqn:E; [|discriminate]. cbn in H.
    injection H as <-. destruct j as [|j]; [reflexivity|]. cbn.
    apply (IH i); [assumption|lia].
Qed.

Lemma list_index_nth (xs : list string) (x : string) (i : nat) :
  list_index xs x = Ok i -> nth_error xs i = Some x.
Proof.
  revert i. induction xs as [|y xs IH]; intros i H; [discriminate|].
  cbn in H. destruct (String.eqb y x) eqn:E.
  - injection H as <-. apply String.eqb_eq in E. now subst.
  - destruct (list_index xs x) eqn:E'; [|discriminate]. cbn in H.
    injection H as <-. cbn. now apply IH.
Qed.

Lemma list_index_of_nth (xs : list string) (x : string) (i : nat) :
  NoDup xs -> nth_error xs i = Some x -> list_index xs x = Ok i.
Proof.
  revert i. induction xs as [|y xs IH]; intros i Hnd Hi.
  - destruct i; discriminate.
  - inversion Hnd as [|? ? Hnotin Hnd']; subst.
    destruct i as [|i]; cbn in Hi.
    + injection Hi as ->. cbn. now rewrite String.eqb_refl.
    + cbn. destruct (String.eqb y x) eqn:E.
      * apply String.eqb_eq in E. subst y. exfalso. apply Hnotin.
        now apply nth_error_In in Hi.
      * now rewrite (IH i Hnd' Hi).
Qed.

Lemma nth_error_repeat {A : Type} (x : A) (n i : nat) :
  (i < n)%nat -> nth_error (repeat x n) i = Some x.
Proof.
  revert i. induction n as [|n IH]; intros i Hi; [lia|].
  destruct i as [|i]; [reflexivity|]. cbn. apply IH. lia.
Qed.

Lemma slice_concat_nth {A : Type} (pre : list A) (ls : list (list A))
      (k : nat) (s : list A) :
  nth_error ls k = Some s ->
  slice (pre ++ concat ls)
        (length pre + list_sum (map (@length A) (firstn k ls))) (length s)
  = s.
Proof.
  intros Hk. unfold slice.
  replace (concat ls) with (concat (firstn k ls ++ skipn k ls))
    by now rewrite firstn_skipn.
  rewrite concat_app, app_assoc.
  rewrite <- length_concat_sum, <- length_app.
  rewrite skipn_app, skipn_all, Nat.sub_diag. cbn [app skipn].
  assert (Hs : skipn k ls = s :: skipn (S k) ls).
  { clear -Hk. revert k Hk. induction ls as [|l ls IH]; intros k Hk.
    - destruct k; discriminate.
    - destruct k as [|k]; cbn in *.
      + now injection Hk as ->.
      + now apply IH. }
  rewrite Hs. cbn [concat].
  rewrite firstn_app, firstn_all, Nat.sub_diag. cbn [firstn].
  now rewrite app_nil_r.
Qed.

(** Three assignments [ws[names.index(k)] = v] on a zero vector. *)
Lemma three_assignments (names : list string) (n : nat)
      (k1 k2 k3 : string) (v1 v2 v3 : R)
      (i1 i2 i3 : nat) (ws1 ws2 ws3 : list R) :
  NoDup names -> length names = n ->
  k1 <> k2 -> k1 <> k3 -> k2 <> k3 ->
  list_index names k1 = Ok i1 -> list_set (repeat 0.0 n) i1 v1 = Ok ws1 ->
  list_index names k2 = Ok i2 -> list_set ws1 i2 v2 = Ok ws2 ->
  list_index names k3 = Ok i3 -> list_set ws2 i3 v3 = Ok ws3 ->
  length ws3 = n /\
  forall i name, nth_error names i = Some name ->
    nth_error ws3 i
    = Some (if String.eqb name k1 then v1
            else if String.eqb name k2 then v2
            else if String.eqb name k3 then v3
            else 0.0).
Proof.
  intros Hnd Hlen H12 H13 H23 Hi1 Hs1 Hi2 Hs2 Hi3 Hs3.
  split.
  - rewrite (list_set_length _ _ _ _ Hs3), (list_set_length _ _ _ _ Hs2),
      (list_set_length _ _ _ _ Hs1). apply repeat_length.
  - intros i name Hi.
    pose proof (list_index_of_nth names name i Hnd Hi) as Hidx.
    assert (Hlt : (i < n)%nat).
    { rewrite <- Hlen. apply nth_error_Some. now rewrite Hi. }
    assert (Hne : forall k j, list_index names k = Ok j -> name <> k -> i <> j).
    { intros k j Hj Hnk ->. apply list_index_nth in Hj.
      rewrite Hj in Hi. injection Hi as ->. contradiction. }
    destruct (String.eqb name k1) eqn:E1.
    { apply String.eqb_eq in E1. subst name.
      rewrite Hidx in Hi1. injection Hi1 as <-.
      rewrite (list_set_nth_other _ _ _ _ _ Hs3) by (apply (Hne k3); auto).
      rewrite (list_set_nth_other _ _ _ _ _ Hs2) by (apply (Hne k2); auto).
      exact (list_set_nth_same _ _ _ _ Hs1). }
    apply String.eqb_neq in E1.
    destruct (String.eqb name k2) eqn:E2.
    { apply String.eqb_eq in E2. subst name.
      rewrite Hidx in Hi2. injection Hi2 as <-.
      rewrite (list_set_nth_other _ _ _ _ _ Hs3) by (apply (Hne k3); auto).
      exact (list_set_nth_same _ _ _ _ Hs2). }
    apply String.eqb_neq in E2.
    destruct (String.eqb name k3) eqn:E3.
    { apply String.eqb_eq in E3. subst name.
      rewrite Hidx in Hi3. injection Hi3 as <-.
      exact (list_set_nth_same _ _ _ _ Hs3). }
    apply String.eqb_neq in E3.
    rewrite (list_set_nth_other _ _ _ _ _ Hs3) by (apply (Hne k3); auto).
    rewrite (list_set_nth_other _ _ _ _ _ Hs2) by (apply (Hne k2); auto).
    rewrite (list_set_nth_other _ _ _ _ _ Hs1) by (apply (Hne k1); auto).
    now apply nth_error_repeat.
Qed.

(** ** Asset serializer *)

Lemma tobytes_u32_length (a : list nat) :
  length (tobytes_u32 a) = nbytes_u32 a.
Proof.
  unfold tobytes_u32, nbytes_u32.
  induction a as [|x a IH]; [reflexivity|].
  cbn [flat_map]. rewrite length_app, IH. cbn [length u32_bytes]. lia.
Qed.

Lemma views_pointwise_contiguous {A : Type} (L : A -> nat) (tgt : N)
      (ms : list A) :
  forall (bvs : list BufferView) (base : nat),
    length bvs = length ms ->
    (forall k nd, nth_error ms k = Some nd ->
       nth_error bvs k
       = Some (mkBufferView 0 (base + list_sum (map L (firstn k ms)))
                            (L nd) tgt)) ->
    contiguous base bvs /\ map byteLength bvs = map L ms.
Proof.
  induction ms as [|nd ms IH]; intros bvs base Hlen Hnth.
  - destruct bvs; [now split|discriminate].
  - destruct bvs as [|v bvs]; [discriminate|].
    pose proof (Hnth 0%nat nd eq_refl) as H0. cbn in H0.
    injection H0 as ->. cbn [byteOffset byteLength contiguous map].
    destruct (IH bvs (base + L nd)%nat) as [Hc Hm].
    + cbn in Hlen. lia.
    + intros k nd' Hk. pose proof (Hnth (S k) nd' Hk) as E.
      cbn [nth_error] in E. rewrite E.
      unfold list_sum. cbn [firstn map fold_right].
      do 2 f_equal. lia.
    + split; [split; [lia | exact Hc] | now rewrite Hm].
Qed.

Section SerializerFacts.

Local Set Default Proof Using "Type*".

Variable f32_bytes : R -> list byte.
Hypothesis f32_bytes_len : forall x, length (f32_bytes x) = 4%nat.

Local Abbreviation tob := (tobytes_f32 f32_bytes).
Local Abbreviation sec := (morph_section f32_bytes).

Lemma tobytes_f32_length (a : field) :
  length (tobytes_f32 f32_bytes a) = nbytes_f32 a.
Proof.
  unfold tobytes_f32, nbytes_f32.
  induction a as [|v a IH]; [reflexivity|].
  cbn [flat_map]. rewrite !length_app, IH, !f32_bytes_len. cbn [length]. lia.
Qed.

(** *** The two loops of [Ultra.export_glb] *)

Lemma write_morph_buffer (ms : list (string * field)) :
  forall (o : dict nat) (b : list byte),
    snd (fold_left (Ultra.write_morph f32_bytes) ms (o, b))
    = b ++ concat (map sec ms).
Proof.
  induction ms as [|[name delta] ms IH]; intros o b; cbn.
  - now rewrite app_nil_r.
  - rewrite IH. now rewrite <- app_assoc.
Qed.

Lemma write_morph_offs_old (ms : list (string * field)) (name : string) :
  forall (o : dict nat) (b : list byte),
    ~ In name (map fst ms) ->
    dict_get (fst (fold_left (Ultra.write_morph f32_bytes) ms (o, b))) name
    = dict_get o name.
Proof.
  induction ms as [|[n d] ms IH]; intros o b Hn; cbn; [reflexivity|].
  cbn in Hn. rewrite IH by tauto.
  apply dict_get_set_other. tauto.
Qed.

Lemma write_morph_offs_nth (ms : list (string * field)) :
  forall (o : dict nat) (b : list byte) (k : nat) (name : string)
         (delta : field),
    NoDup (map fst ms) ->
    nth_error ms k = Some (name, delta) ->
    dict_get (fst (fold_left (Ultra.write_morph f32_bytes) ms (o, b))) name
    = Ok (length b
          + list_sum (map (fun nd => length (sec nd)) (firstn k ms)))%nat.
Proof.
  induction ms as [|[n d] ms IH]; intros o b k name delta Hnd Hk.
  - destruct k; discriminate.
  - cbn [map fst] in Hnd. inversion Hnd as [|? ? Hnotin Hnd']; subst.
    destruct k as [|k]; cbn in Hk.
    + injection Hk as -> ->. cbn [fold_left Ultra.write_morph].
      rewrite write_morph_offs_old by exact Hnotin.
      rewrite dict_get_set_same. cbn. f_equal. lia.
    + cbn [fold_left Ultra.write_morph].
      rewrite (IH _ _ k name delta Hnd' Hk).
      unfold list_sum. cbn [firstn map fold_right].
      rewrite length_app. unfold morph_section at 2. cbn [snd]. f_equal. lia.
Qed.

Lemma describe_morph_loop (offs : dict nat) (ms : list (string * field)) :
  forall bv ac acc bv' ac' acc',
    for_each ms (Ultra.describe_morph offs) (bv, ac, acc)
    = Ok (bv', ac', acc') ->
    exists bvs acs,
      bv' = bv ++ bvs /\ ac' = ac ++ acs /\
      length bvs = length ms /\ length acs = length ms /\
      (forall k name delta, nth_error ms k = Some (name, delta) ->
         exists off mx mn,
           dict_get offs name = Ok off /\
           axis0_max delta = Ok mx /\ axis0_min delta = Ok mn /\
           nth_error bvs k
           = Some (mkBufferView 0 off (nbytes_f32 delta) 34962) /\
           nth_error acs k
           = Some (mkAccessor (length bv + k) 5126 (length delta) "VEC3"
                              (Some mx) (Some mn))) /\
      (forall name, ~ In name (map fst ms) ->
                    dict_get acc' name = dict_get acc name) /\
      (NoDup (map fst ms) ->
       forall k name delta, nth_error ms k = Some (name, delta) ->
                            dict_get acc' name = Ok (length ac + k)%nat).
Proof.
  induction ms as [|[n d] ms IH]; intros bv ac acc bv' ac' acc' H.
  - cbn in H. injection H as <- <- <-.
    exists [], []. rewrite !app_nil_r.
    repeat split; try reflexivity.
    + intros k name delta Hk. destruct k; discriminate.
    + intros _ k name delta Hk. destruct k; discriminate.
  - cbn [for_each Ultra.describe_morph] in H.
    destruct (dict_get offs n) as [off|] eqn:Eoff; [|discriminate].
    cbn [bind] in H.
    destruct (axis0_max d) as [mx|] eqn:Emx; [|discriminate].
    cbn [bind] in H.
    destruct (axis0_min d) as [mn|] eqn:Emn; [|discriminate].
    cbn [bind] in H.
    destruct (IH _ _ _ _ _ _ H)
      as (bvs & acs & -> & -> & Hlb & Hla & Hnth & Hold & Hnew).
    exists (mkBufferView 0 off (nbytes_f32 d) 34962 :: bvs),
           (mkAccessor (length bv) 5126 (length d) "VEC3" (Some mx) (Some mn)
                       :: acs).
    rewrite <- !app_assoc. cbn [app length].
    split; [reflexivity|]. split; [reflexivity|].
    split; [now rewrite Hlb|]. split; [now rewrite Hla|].
    split; [|split].
    + intros k name delta Hk. destruct k as [|k]; cbn in Hk.
      * injection Hk as <- <-. exists off, mx, mn.
        rewrite Nat.add_0_r. now repeat split.
      * destruct (Hnth k name delta Hk)
          as (off' & mx' & mn' & H1 & H2 & H3 & H4 & H5).
        exists off', mx', mn'. do 3 (split; [assumption|]).
        cbn [nth_error]. split; [assumption|].
        rewrite H5. rewrite length_app. cbn [length].
        do 2 f_equal. lia.
    + intros name Hn. cbn [map fst] in Hn. rewrite Hold by (cbn in Hn; tauto).
      apply dict_get_set_other. cbn in Hn. tauto.
    + intros Hnd k name delta Hk.
      cbn [map fst] in Hnd. inversion Hnd as [|? ? Hnotin Hnd']; subst.
      destruct k as [|k]; cbn in Hk.
      * injection Hk as <- <-. rewrite Hold by exact Hnotin.
        rewrite dict_get_set_same. f_equal. lia.
      * rewrite (Hnew Hnd' k name delta Hk). rewrite length_app.
        cbn [length]. f_equal. lia.
Qed.

(** What [Ultra.export_glb] returns, when it returns. *)
Lemma ultra_export_shape (verts : field) (fcs : list face) (normals : field)
      (morphs : dict field) (g : GLTF2) (names : list string) :
  dict_wf morphs ->
  Ultra.export_glb f32_bytes verts fcs normals morphs = Ok (g, names) ->
  exists bvs acs tgts a0,
    names = dict_keys morphs /\
    binary_blob g
    = tob verts ++ tob normals ++ tobytes_u32 (flatten fcs)
          ++ concat (map sec morphs) /\
    buffers g = [length (binary_blob g)] /\
    bufferViews g
    = [mkBufferView 0 0 (nbytes_f32 verts) 34962;
       mkBufferView 0 (length (tob verts)) (nbytes_f32 normals) 34962;
       mkBufferView 0 (length (tob verts ++ tob normals))
                    (nbytes_u32 (flatten fcs)) 34963] ++ bvs /\
    accessors g
    = [a0;
       mkAccessor 1 5126 (length normals) "VEC3" None None;
       mkAccessor 2 5125 (length (flatten fcs)) "SCALAR" None None] ++ acs /\
    bufferView a0 = 0%nat /\
    meshes g = [mkGLTFMesh [mkPrimitive 0 1 2 0 tgts]
                           (repeat 0.0 (length morphs)) (dict_keys morphs)] /\
    length bvs = length morphs /\ length acs = length morphs /\
    length tgts = length morphs /\
    (forall k name delta, nth_error morphs k = Some (name, delta) ->
       nth_error tgts k = Some (3 + k)%nat /\
       nth_error bvs k
       = Some (mkBufferView 0
                 (length (tob verts ++ tob normals ++ tobytes_u32 (flatten fcs))
                  + list_sum (map (fun nd => length (sec nd))
                                  (firstn k morphs)))
                 (nbytes_f32 delta) 34962) /\
       exists mx mn,
         nth_error acs k
         = Some (mkAccessor (3 + k) 5126 (length delta) "VEC3"
                            (Some mx) (Some mn))).
Proof.
  intros Hwf H. unfold Ultra.export_glb in H.
  cbn [app length] in H. unfold dict_items in H.
  set (B := (tobytes_f32 f32_bytes verts ++ tobytes_f32 f32_bytes normals)
              ++ tobytes_u32 (flatten fcs)) in H.
  assert (HB : B = tob verts ++ tob normals ++ tobytes_u32 (flatten fcs)).
  { unfold B. now rewrite app_assoc. }
  match type of H with
  | context [fold_left ?f ?l ?s] =>
      destruct (fold_left f l s) as [m_offs buf] eqn:Efold
  end.
  pose proof (f_equal snd Efold) as Hsnd. cbn [snd] in Hsnd.
  pose proof (f_equal fst Efold) as Hfst. cbn [fst] in Hfst.
  assert (Hbuf : buf = B ++ concat (map sec morphs)).
  { rewrite <- Hsnd. apply write_morph_buffer. }
  assert (Hoffs : forall k name delta,
             nth_error morphs k = Some (name, delta) ->
             dict_get m_offs name
             = Ok (length (tob verts ++ tob normals ++ tobytes_u32 (flatten fcs))
                   + list_sum (map (fun nd => length (sec nd))
                                   (firstn k morphs)))%nat).
  { intros k name delta Hk.
    rewrite <- HB, <- Hfst.
    exact (write_morph_offs_nth morphs [] B k name delta Hwf Hk). }
  destruct (axis0_max verts) as [vmax|] eqn:Evmax; [|discriminate].
  cbn [bind] in H.
  destruct (axis0_min verts) as [vmin|] eqn:Evmin; [|discriminate].
  cbn [bind] in H.
  match type of H with
  | bind (for_each morphs ?body ?st0) _ = _ =>
      destruct (for_each morphs body st0) as [[[bv ac] m_acc]|] eqn:Eloop;
        [|discriminate]
  end.
  cbn [bind] in H.
  destruct (map_result (fun n => dict_get m_acc n) (dict_keys morphs))
    as [tgts|] eqn:Etg; [|discriminate].
  cbn [bind] in H. injection H as <- <-.
  destruct (describe_morph_loop _ _ _ _ _ _ _ _ Eloop)
    as (bvs & acs & -> & -> & Hlb & Hla & Hnth & _ & Hnew).
  exists bvs, acs, tgts,
    (mkAccessor 0 5126 (length verts) "VEC3" (Some vmax) (Some vmin)).
  cbn [binary_blob buffers bufferViews accessors meshes bufferView].
  split; [reflexivity|]. split; [now rewrite Hbuf, HB, <- !app_assoc|].
  split; [reflexivity|]. split; [reflexivity|]. split; [reflexivity|].
  split; [reflexivity|]. split; [reflexivity|].
  split; [exact Hlb|]. split; [exact Hla|].
  pose proof (map_result_length _ _ _ Etg) as Hlt.
  unfold dict_keys in Hlt. rewrite length_map in Hlt.
  split; [exact Hlt|].
  intros k name delta Hk.
  destruct (Hnth k name delta Hk) as (off & mx & mn & H1 & _ & _ & H4 & H5).
  rewrite (Hoffs k name delta Hk) in H1. injection H1 as <-.
  split; [|split; [exact H4 | exists mx, mn; exact H5]].
  assert (Hkey : nth_error (dict_keys morphs) k = Some name).
  { unfold dict_keys. now rewrite (map_nth_error fst k morphs Hk). }
  destruct (map_result_nth _ _ _ k name Etg Hkey) as (y & Hy & Hget).
  rewrite (Hnew Hwf k name delta Hk) in Hget. injection Hget as <-.
  exact Hy.
Qed.

(** [Ultra.export_glb] returns on non-empty arrays. *)
Lemma axis0_max_ok (a : field) : a <> [] -> exists m, axis0_max a = Ok m.
Proof.
  destruct a as [|v a]; [contradiction|]. intros _.
  unfold axis0_max. cbn [map arr_max bind]. now eexists.
Qed.

Lemma axis0_min_ok (a : field) : a <> [] -> exists m, axis0_min a = Ok m.
Proof.
  destruct a as [|v a]; [contradiction|]. intros _.
  unfold axis0_min. cbn [map arr_min bind]. now eexists.
Qed.

Lemma map_result_ok {A B : Type} (f : A -> result B) (xs : list A) :
  (forall x, In x xs -> exists y, f x = Ok y) ->
  exists ys, map_result f xs = Ok ys.
Proof.
  induction xs as [|x xs IH]; intros H; [now eexists|].
  destruct (H x (or_introl eq_refl)) as [y Hy].
  destruct IH as [ys Hys]; [intros z Hz; apply H; now right|].
  exists (y :: ys). cbn. now rewrite Hy, Hys.
Qed.

Lemma describe_morph_loop_ok (offs : dict nat) (ms : list (string * field)) :
  (forall name delta, In (name, delta) ms ->
     (exists off, dict_get offs name = Ok off) /\ delta <> []) ->
  forall st, exists st', for_each ms (Ultra.describe_morph offs) st = Ok st'.
Proof.
  induction ms as [|[n d] ms IH]; intros H st; [now eexists|].
  destruct st as [[bv ac] acc].
  destruct (H n d (or_introl eq_refl)) as [[off Hoff] Hd].
  destruct (axis0_max_ok d Hd) as [mx Hmx].
  destruct (axis0_min_ok d Hd) as [mn Hmn].
  cbn [for_each Ultra.describe_morph]. rewrite Hoff. cbn [bind].
  rewrite Hmx. cbn [bind]. rewrite Hmn. cbn [bind].
  apply IH. intros name delta Hin. apply H. now right.
Qed.

Lemma ultra_export_returns (verts : field) (fcs : list face) (normals : field)
      (morphs : dict field) :
  dict_wf morphs -> verts <> [] ->
  (forall name delta, In (name, delta) morphs -> delta <> []) ->
  exists g names,
    Ultra.export_glb f32_bytes verts fcs normals morphs = Ok (g, names).
Proof.
  intros Hwf Hv Hd. unfold Ultra.export_glb.
  cbn [app length]. unfold dict_items.
  match goal with
  | |- context [fold_left ?f ?l ?s] =>
      destruct (fold_left f l s) as [m_offs buf] eqn:Efold;
      pose proof (fun k name delta =>
                    write_morph_offs_nth morphs [] (snd s) k name delta Hwf)
        as Hoffs
  end.
  cbn [snd] in Hoffs.
  pose proof (f_equal fst Efold) as Hfst. cbn [fst] in Hfst.
  destruct (axis0_max_ok verts Hv) as [vmax ->].
  destruct (axis0_min_ok verts Hv) as [vmin ->]. cbn [bind].
  match goal with
  | |- context [for_each morphs ?body ?st0] =>
      destruct (describe_morph_loop_ok m_offs morphs) with (st := st0)
        as [[[bv ac] m_acc] Eloop]
  end.
  { intros name delta Hin. split; [|now apply (Hd name delta)].
    destruct (In_nth_error _ _ Hin) as [k Hk].
    eexists. rewrite <- Hfst. exact (Hoffs k name delta Hk). }
  rewrite Eloop. cbn [bind].
  destruct (describe_morph_loop _ _ _ _ _ _ _ _ Eloop)
    as (bvs & acs & _ & _ & _ & _ & _ & _ & Hnew).
  destruct (map_result_ok (fun n => dict_get m_acc n) (dict_keys morphs))
    as [tgts Etg].
  { intros name Hin. unfold dict_keys in Hin.
    apply in_map_iff in Hin. destruct Hin as [[n d] [<- Hin]].
    destruct (In_nth_error _ _ Hin) as [k Hk].
    eexists. exact (Hnew Hwf k n d Hk). }
  rewrite Etg. cbn [bind]. now do 2 eexists.
Qed.

(** *** Layout of the written container *)

Lemma tiles_intro (g : GLTF2) (s0 s1 s2 : list byte)
      (ms : list (string * field)) (bvs : list BufferView) (t0 t1 t2 t : N) :
  binary_blob g = s0 ++ s1 ++ s2 ++ concat (map sec ms) ->
  buffers g = [length (binary_blob g)] ->
  bufferViews g
  = [mkBufferView 0 0 (length s0) t0;
     mkBufferView 0 (length s0) (length s1) t1;
     mkBufferView 0 (length s0 + length s1) (length s2) t2] ++ bvs ->
  length bvs = length ms ->
  (forall k nd, nth_error ms k = Some nd ->
     nth_error bvs k
     = Some (mkBufferView 0
               (length (s0 ++ s1 ++ s2)
                + list_sum (map (fun nd => length (sec nd)) (firstn k ms)))
               (length (sec nd)) t)) ->
  tiles g ([s0; s1; s2] ++ map sec ms).
Proof.
  intros Hblob Hbuf Hbv Hlen Hnth.
  destruct (views_pointwise_contiguous (fun nd => length (sec nd)) t ms bvs
              (length (s0 ++ s1 ++ s2)) Hlen Hnth) as [Hc Hm].
  unfold tiles. split; [|split; [|split]].
  - rewrite Hblob. cbn [app concat]. reflexivity.
  - rewrite Hbv. cbn [app map byteLength]. rewrite Hm, map_map. reflexivity.
  - intros k v Hk.
    rewrite (contiguous_nth 0 (bufferViews g) k v); [reflexivity| |exact Hk].
    rewrite Hbv. cbn [app contiguous byteOffset byteLength].
    repeat (split; [lia|]).
    rewrite !length_app in Hc.
    replace (0 + length s0 + length s1 + length s2)%nat
      with (length s0 + (length s1 + length s2))%nat by lia.
    exact Hc.
  - exact Hbuf.
Qed.

(** *** Names, targets and weights *)

Lemma nth_error_keys {V : Type} (d : dict V) (i : nat) (name : string) :
  nth_error (dict_keys d) i = Some name ->
  exists v, nth_error d i = Some (name, v).
Proof.
  unfold dict_keys. intros H. rewrite nth_error_map in H.
  destruct (nth_error d i) as [[n v]|]; [|discriminate].
  cbn in H. injection H as ->. now exists v.
Qed.

Lemma slice_section (pre : list byte) (ms : list (string * field)) (k : nat)
      (name : string) (delta : field) :
  nth_error ms k = Some (name, delta) ->
  slice (pre ++ concat (map sec ms))
        (length pre + list_sum (map (fun nd => length (sec nd)) (firstn k ms)))
        (length (tob delta))
  = tob delta.
Proof.
  intros Hk.
  pose proof (slice_concat_nth pre (map sec ms) k (tob delta)) as E.
  rewrite firstn_map, map_map in E. apply E.
  now rewrite (map_nth_error sec k ms Hk).
Qed.

Lemma ultra_export_consistent (verts : field) (fcs : list face)
      (normals : field) (morphs : dict field) (g : GLTF2)
      (names : list string) :
  dict_wf morphs ->
  Ultra.export_glb f32_bytes verts fcs normals morphs = Ok (g, names) ->
  names = dict_keys morphs /\
  index_consistent f32_bytes morphs zero_weight g /\
  one_weight_per_target (length morphs) g.
Proof.
  intros Hwf H.
  destruct (ultra_export_shape verts fcs normals morphs g names Hwf H)
    as (bvs & acs & tgts & a0 & Hnames & Hblob & Hbuf & Hbv & Hac & Ha0
        & Hmesh & Hlb & Hla & Hlt & Hnth).
  split; [exact Hnames|]. split.
  - eexists. eexists. split; [exact Hmesh|]. split; [reflexivity|].
    cbn [targetNames targets weights]. intros i name Hi.
    destruct (nth_error_keys morphs i name Hi) as [delta Hk].
    destruct (Hnth i name delta Hk) as (Ht & Hb & mx & mn & Ha).
    exists delta, (3 + i)%nat,
      (mkAccessor (3 + i) 5126 (length delta) "VEC3" (Some mx) (Some mn)),
      (mkBufferView 0
         (length (tob verts ++ tob normals ++ tobytes_u32 (flatten fcs))
          + list_sum (map (fun nd => length (sec nd)) (firstn i morphs)))
         (nbytes_f32 delta) 34962).
    split; [exact (dict_get_nth morphs i name delta Hwf Hk)|].
    split; [exact Ht|].
    split; [rewrite Hac; exact Ha|].
    split; [reflexivity|].
    split; [rewrite Hbv; exact Hb|].
    split.
    + cbn [byteOffset byteLength]. rewrite Hblob.
      rewrite <- tobytes_f32_length.
      replace (tob verts ++ tob normals ++ tobytes_u32 (flatten fcs)
                   ++ concat (map sec morphs))
        with ((tob verts ++ tob normals ++ tobytes_u32 (flatten fcs))
                ++ concat (map sec morphs))
        by now rewrite <- !app_assoc.
      exact (slice_section _ morphs i name delta Hk).
    + apply nth_error_repeat. apply nth_error_Some.
      now rewrite Hk.
  - eexists. eexists. split; [exact Hmesh|]. split; [reflexivity|].
    cbn [targetNames targets weights]. rewrite repeat_length.
    unfold dict_keys. now rewrite length_map.
Qed.

(** *** Variants *)

Lemma set_mesh_weights_single (g : GLTF2) (m : GLTFMesh) (ws : list R) :
  meshes g = [m] ->
  exists g',
    set_mesh_weights g ws = Ok g' /\
    same_but_weights g g' /\
    meshes g' = [mkGLTFMesh (primitives m) ws (targetNames m)].
Proof.
  intros Hm. unfold set_mesh_weights. rewrite Hm.
  eexists. split; [reflexivity|]. split; [|reflexivity].
  unfold same_but_weights. cbn.
  repeat (split; [reflexivity|]).
  exists m. eexists. now repeat split.
Qed.

Lemma one_weight_set_weights (n : nat) (g g' : GLTF2) (ws : list R) :
  one_weight_per_target n g ->
  set_mesh_weights g ws = Ok g' -> length ws = n ->
  one_weight_per_target n g'.
Proof.
  intros (m & p & Hm & Hp & _ & Ht & Hn) Hset Hlen.
  unfold set_mesh_weights in Hset. rewrite Hm in Hset. injection Hset as <-.
  eexists. exists p. cbn [meshes primitives targetNames weights].
  now repeat split.
Qed.

(** The runs of the export part of [Ultra.main]. *)
Lemma ultra_main_export_cases (verts : field) (fcs : list face)
      (normals : field) (morphs : dict field) (saved : saved_files)
      (r : result unit) :
  dict_wf morphs ->
  Ultra.main_export f32_bytes verts fcs normals morphs = (saved, r) ->
  (exists e, Ultra.export_glb f32_bytes verts fcs normals morphs = Raise e /\
             saved = [] /\ r = Raise e) \/
  (exists g0 names m0 g1,
     Ultra.export_glb f32_bytes verts fcs normals morphs = Ok (g0, names) /\
     meshes g0 = [m0] /\
     set_mesh_weights g0 (repeat 0.0 (length morphs)) = Ok g1 /\
     ((exists e, saved = [("avatar_morphable.glb"%string, g0);
                          ("avatar_baseline.glb"%string, g1)] /\
                 r = Raise e) \/
      (exists ws g2 i,
         saved = [("avatar_morphable.glb"%string, g0);
                  ("avatar_baseline.glb"%string, g1);
                  ("avatar_clinical.glb"%string, g2)] /\
         r = Ok tt /\
         set_mesh_weights g1 ws = Ok g2 /\
         length ws = length morphs /\
         nth_error names i = Some "Weight"%string /\
         forall j name, nth_error names j = Some name ->
                        nth_error ws j = Some (ultra_clinical_weight name)))).
Proof.
  intros Hwf H. unfold Ultra.main_export in H.
  destruct (Ultra.export_glb f32_bytes verts fcs normals morphs)
    as [[g0 names]|e] eqn:Eexp.
  2:{ left. exists e. injection H as <- <-. now repeat split. }
  right.
  destruct (ultra_export_consistent _ _ _ _ _ _ Hwf Eexp)
    as (Hnames & _ & (m0 & p0 & Hm0 & _)).
  destruct (set_mesh_weights_single g0 m0 (repeat 0.0 (length morphs)) Hm0)
    as (g1 & Hset1 & _ & Hm1).
  rewrite Hset1 in H.
  exists g0, names, m0, g1.
  split; [reflexivity|]. split; [exact Hm0|]. split; [exact Hset1|].
  assert (Hnd : NoDup names) by (rewrite Hnames; exact Hwf).
  assert (Hlen : length names = length morphs).
  { rewrite Hnames. unfold dict_keys. apply length_map. }
  destruct (list_index names "Weight") as [i1|e] eqn:Ei1;
    [cbn [bind] in H | left; exists e; injection H as <- <-; now split].
  destruct (list_set (repeat 0.0 (length morphs)) i1 0.6) as [ws1|e] eqn:Es1;
    [cbn [bind] in H | left; exists e; injection H as <- <-; now split].
  destruct (list_index names "AbdomenGirth") as [i2|e] eqn:Ei2;
    [cbn [bind] in H | left; exists e; injection H as <- <-; now split].
  destruct (list_set ws1 i2 0.7) as [ws2|e] eqn:Es2;
    [cbn [bind] in H | left; exists e; injection H as <- <-; now split].
  destruct (list_index names "DiabetesEffect") as [i3|e] eqn:Ei3;
    [cbn [bind] in H | left; exists e; injection H as <- <-; now split].
  destruct (list_set ws2 i3 0.5) as [ws3|e] eqn:Es3;
    [cbn [bind] in H | left; exists e; injection H as <- <-; now split].
  destruct (set_mesh_weights g1 ws3) as [g2|e] eqn:Es;
    [| left; exists e; injection H as <- <-; now split].
  right. injection H as <- <-.
  destruct (three_assignments names (length morphs)
              "Weight" "AbdomenGirth" "DiabetesEffect" 0.6 0.7 0.5
              i1 i2 i3 ws1 ws2 ws3 Hnd Hlen)
    as [Hl Hw]; try assumption; try discriminate.
  exists ws3, g2, i1. cbn [app].
  split; [reflexivity|]. split; [reflexivity|]. split; [exact Es|].
  split; [exact Hl|]. split; [now apply list_index_nth|].
  exact Hw.
Qed.

Lemma arr_add_length (a b : field) :
  length a = length b -> length (arr_add a b) = length a.
Proof.
  revert b. induction a as [|x a IH]; intros b H; [reflexivity|].
  destruct b as [|y b]; [discriminate|]. cbn. f_equal. apply IH.
  cbn in H. lia.
Qed.

Lemma arr_scale_length (a : field) (k : R) :
  length (arr_scale a k) = length a.
Proof. unfold arr_scale. apply length_map. Qed.

Lemma ultra_morph_keys (vs : field) (height : R) :
  dict_keys (Ultra.create_morph_targets vs height)
  = ["Weight"; "AbdomenGirth"; "MuscleMass"; "Posture"; "DiabetesEffect";
     "HypertensionEffect"; "HeartDiseaseEffect"]%string.
Proof. reflexivity. Qed.

Lemma ultra_morph_wf (vs : field) (height : R) :
  dict_wf (Ultra.create_morph_targets vs height).
Proof.
  unfold dict_wf. rewrite ultra_morph_keys.
  repeat (constructor; [cbn; intuition discriminate|]). constructor.
Qed.

Lemma ultra_morph_lengths (vs : field) (height : R) (name : string)
      (delta : field) :
  In (name, delta) (Ultra.create_morph_targets vs height) ->
  length delta = length vs.
Proof.
  pose proof (ultra_morph_items vs height) as E. cbv zeta in E.
  unfold dict_items in E. rewrite E. clear E.
  unfold Ultra.weight_field, Ultra.abdomen_field, Ultra.muscle_field,
    Ultra.posture_field, Ultra.diabetes_field, Ultra.hypertension_field,
    Ultra.heart_field, Ultra.zeros_like, update_rows.
  cbn [In]. intros H.
  repeat (destruct H as [H|H]; [injection H as _ <-|]); try contradiction;
    repeat (rewrite ?length_map, ?length_combine, ?arr_add_length,
            ?arr_scale_length, ?Nat.min_id);
    reflexivity.
Qed.


Lemma ultra_export_mesh (verts : field) (fcs : list face)
      (normals : field) (morphs : dict field) (g : GLTF2)
      (names : list string) :
  dict_wf morphs ->
  Ultra.export_glb f32_bytes verts fcs normals morphs = Ok (g, names) ->
  names = dict_keys morphs /\
  exists p, meshes g = [mkGLTFMesh [p] (repeat 0.0 (length morphs))
                                   (dict_keys morphs)].
Proof.
  intros Hwf H.
  destruct (ultra_export_shape verts fcs normals morphs g names Hwf H)
    as (bvs & acs & tgts & a0 & Hnames & _ & _ & _ & _ & _ & Hmesh & _).
  split; [exact Hnames|]. eexists. exact Hmesh.
Qed.

(** The writer of [generate_hq_avatar.py] builds the container of
    [Ultra.export_glb] with another material. *)
Lemma hq_build_as_ultra (verts normals : field) (fcs : list face)
      (morphs : dict field) :
  HQ.build_gltf f32_bytes verts normals fcs morphs
  = match Ultra.export_glb f32_bytes verts fcs normals morphs with
    | Ok (g, _) =>
        Ok (mkGLTF2 (buffers g) (bufferViews g) (accessors g)
                    [mkMaterial [0.7; 0.7; 0.7; 1.0] 0.1 0.6 true]
                    (meshes g) (nodes g) (scenes g) (scene g) (binary_blob g))
    | Raise e => Raise e
    end.
Proof.
  unfold HQ.build_gltf, Ultra.export_glb.
  change (HQ.write_morph f32_bytes) with (Ultra.write_morph f32_bytes).
  cbn [app length].
  match goal with
  | |- context [fold_left ?f ?l ?s] =>
      destruct (fold_left f l s) as [m_offs buf]
  end.
  destruct (axis0_max verts); [|reflexivity]. cbn [bind].
  destruct (axis0_min verts); [|reflexivity]. cbn [bind].
  change (HQ.describe_morph m_offs) with (Ultra.describe_morph m_offs).
  match goal with
  | |- context [for_each ?l ?body ?st0] =>
      destruct (for_each l body st0) as [[[bv ac] m_acc]|]
  end; [|reflexivity].
  cbn [bind].
  destruct (map_result _ _); reflexivity.
Qed.

Lemma hq_build_mesh (verts normals : field) (fcs : list face)
      (morphs : dict field) (g : GLTF2) :
  dict_wf morphs ->
  HQ.build_gltf f32_bytes verts normals fcs morphs = Ok g ->
  exists p, meshes g = [mkGLTFMesh [p] (repeat 0.0 (length morphs))
                                   (dict_keys morphs)].
Proof.
  intros Hwf H. rewrite hq_build_as_ultra in H.
  destruct (Ultra.export_glb f32_bytes verts fcs normals morphs)
    as [[g' names]|e] eqn:E; [|discriminate].
  destruct (ultra_export_mesh _ _ _ _ _ _ Hwf E) as (_ & p & Hm).
  injection H as <-. cbn [meshes]. now exists p.
Qed.

(** The runs of the three saves of [HQ.write_variants]. *)
Lemma hq_write_variants_cases (verts normals : field) (fcs : list face)
      (morphs : dict field) (saved : saved_files) (r : result unit) :
  dict_wf morphs ->
  HQ.write_variants f32_bytes verts normals fcs morphs = (saved, r) ->
  r = Ok tt ->
  exists g0 p g1 ws g2 i,
    HQ.build_gltf f32_bytes verts normals fcs morphs = Ok g0 /\
    meshes g0 = [mkGLTFMesh [p] (repeat 0.0 (length morphs))
                            (dict_keys morphs)] /\
    set_mesh_weights g0 (repeat 0.0 (length morphs)) = Ok g1 /\
    saved = [("avatar_morphable.glb"%string, g0);
             ("avatar_baseline.glb"%string, g1);
             ("avatar_clinical.glb"%string, g2)] /\
    set_mesh_weights g1 ws = Ok g2 /\
    length ws = length morphs /\
    nth_error (dict_keys morphs) i = Some "DiabetesEffect"%string /\
    forall j name, nth_error (dict_keys morphs) j = Some name ->
                   nth_error ws j = Some (hq_clinical_weight name).
Proof.
  intros Hwf H Hr. subst r. unfold HQ.write_variants in H.
  destruct (HQ.build_gltf f32_bytes verts normals fcs morphs)
    as [g0|e] eqn:Ebuild; [|discriminate].
  destruct (hq_build_mesh _ _ _ _ _ Hwf Ebuild) as (p & Hm0).
  destruct (set_mesh_weights_single g0 _ (repeat 0.0 (length morphs)) Hm0)
    as (g1 & Hset1 & _ & Hm1).
  rewrite Hset1 in H.
  set (names := dict_keys morphs) in *.
  assert (Hnd : NoDup names) by exact Hwf.
  assert (Hlen : length names = length morphs).
  { unfold names, dict_keys. apply length_map. }
  destruct (list_index names "DiabetesEffect") as [i1|e] eqn:Ei1;
    [cbn [bind] in H | discriminate].
  destruct (list_set (repeat 0.0 (length morphs)) i1 0.5) as [ws1|e] eqn:Es1;
    [cbn [bind] in H | discriminate].
  destruct (list_index names "HypertensionEffect") as [i2|e] eqn:Ei2;
    [cbn [bind] in H | discriminate].
  destruct (list_set ws1 i2 0.3) as [ws2|e] eqn:Es2;
    [cbn [bind] in H | discriminate].
  destruct (list_index names "HeartDiseaseEffect") as [i3|e] eqn:Ei3;
    [cbn [bind] in H | discriminate].
  destruct (list_set ws2 i3 0.4) as [ws3|e] eqn:Es3;
    [cbn [bind] in H | discriminate].
  destruct (set_mesh_weights g1 ws3) as [g2|e] eqn:Es; [|discriminate].
  injection H as <-.
  destruct (three_assignments names (length morphs)
              "DiabetesEffect" "HypertensionEffect" "HeartDiseaseEffect"
              0.5 0.3 0.4 i1 i2 i3 ws1 ws2 ws3 Hnd Hlen)
    as [Hl Hw]; try assumption; try discriminate.
  exists g0, p, g1, ws3, g2, i1. cbn [app].
  split; [reflexivity|]. split; [exact Hm0|]. split; [exact Hset1|].
  split; [reflexivity|]. split; [exact Es|]. split; [exact Hl|].
  split; [now apply list_index_nth|]. exact Hw.
Qed.



(** *** The two loops of [Fixed.export_to_glb] *)

Variable vertex_normals : field -> list face -> field.

Lemma add_morph_bytes_loop (mt : dict field) (ns : list string) :
  forall (deltas : list field) (b : list byte),
    map_result (dict_get mt) ns = Ok deltas ->
    for_each ns (Fixed.add_morph_bytes f32_bytes mt) b
    = Ok (b ++ concat (map tob deltas)).
Proof.
  induction ns as [|n ns IH]; intros deltas b H; cbn in H.
  - injection H as <-. cbn. now rewrite app_nil_r.
  - destruct (dict_get mt n) as [d|] eqn:Ed; [|discriminate]. cbn [bind] in H.
    destruct (map_result (dict_get mt) ns) as [ds|] eqn:Eds; [|discriminate].
    cbn [bind] in H. injection H as <-.
    cbn [for_each]. unfold Fixed.add_morph_bytes at 1. rewrite Ed. cbn [bind].
    rewrite (IH ds _ eq_refl). cbn [map concat].
    now rewrite <- app_assoc.
Qed.

Lemma fixed_describe_loop (mt : dict field) (ns : list string) :
  forall (deltas : list field) (s : nat) bvs acs idxs off st',
    map_result (dict_get mt) ns = Ok deltas ->
    for_each (combine (seq s (length ns)) ns)
             (Fixed.describe_morph f32_bytes mt) (bvs, acs, idxs, off)
    = Ok st' ->
    exists bvs1 acs1,
      st' = (bvs ++ bvs1, acs ++ acs1,
             idxs ++ map (fun i => (3 + i)%nat) (seq s (length ns)),
             (off + list_sum (map (fun d => length (tob d)) deltas))%nat) /\
      length bvs1 = length deltas /\ length acs1 = length deltas /\
      (forall k delta, nth_error deltas k = Some delta ->
         nth_error bvs1 k
         = Some (mkBufferView 0
                   (off + list_sum (map (fun d => length (tob d))
                                        (firstn k deltas)))
                   (length (tob delta)) 34962) /\
         exists mx mn,
           nth_error acs1 k
           = Some (mkAccessor (3 + (s + k)) 5126 (length delta) "VEC3"
                              (Some mx) (Some mn))).
Proof.
  induction ns as [|n ns IH]; intros deltas s bvs acs idxs off st' Hd H.
  - cbn in Hd. injection Hd as <-. cbn in H. injection H as <-.
    exists [], []. rewrite !app_nil_r. cbn. rewrite Nat.add_0_r.
    repeat split. all: destruct k; discriminate.
  - cbn in Hd.
    destruct (dict_get mt n) as [d|] eqn:Ed; [|discriminate]. cbn [bind] in Hd.
    destruct (map_result (dict_get mt) ns) as [ds|] eqn:Eds; [|discriminate].
    cbn [bind] in Hd. injection Hd as <-.
    cbn [length seq combine for_each] in H.
    unfold Fixed.describe_morph at 1 in H. rewrite Ed in H. cbn [bind] in H.
    destruct (axis0_max d) as [mx|] eqn:Emx; [|discriminate]. cbn [bind] in H.
    destruct (axis0_min d) as [mn|] eqn:Emn; [|discriminate]. cbn [bind] in H.
    destruct (IH ds (S s) _ _ _ _ _ eq_refl H)
      as (bvs1 & acs1 & -> & Hlb & Hla & Hnth).
    exists (mkBufferView 0 off (length (tob d)) 34962 :: bvs1),
           (mkAccessor (3 + s) 5126 (length d) "VEC3" (Some mx) (Some mn)
                       :: acs1).
    split; [|split; [|split]].
    + rewrite <- !app_assoc. cbn [app length seq map].
      unfold list_sum. cbn [map fold_right].
      f_equal; try reflexivity; lia.
    + cbn. now rewrite Hlb.
    + cbn. now rewrite Hla.
    + intros k delta Hk. destruct k as [|k]; cbn in Hk.
      * injection Hk as <-. cbn [nth_error firstn map].
        rewrite !Nat.add_0_r. split; [reflexivity|]. now exists mx, mn.
      * destruct (Hnth k delta Hk) as (Hb & mx' & mn' & Ha).
        cbn [nth_error]. split.
        -- rewrite Hb. unfold list_sum. cbn [firstn map fold_right].
           do 2 f_equal. lia.
        -- exists mx', mn'. rewrite Ha. do 2 f_equal. lia.
Qed.

(** What [Fixed.export_to_glb] returns, when it returns. *)
Lemma fixed_export_shape (verts : field) (fcs : list face)
      (mt : dict field) (g : GLTF2) (names : list string) :
  dict_wf mt ->
  Fixed.export_to_glb f32_bytes vertex_normals verts fcs mt = Ok (g, names) ->
  let normals := vertex_normals verts fcs in
  exists bvs acs a0,
    names = dict_keys mt /\
    binary_blob g
    = tob verts ++ tob normals ++ tobytes_u32 (flatten fcs)
          ++ concat (map sec mt) /\
    buffers g = [length (binary_blob g)] /\
    bufferViews g
    = [mkBufferView 0 0 (length (tob verts)) 34962;
       mkBufferView 0 (length (tob verts)) (length (tob normals)) 34962;
       mkBufferView 0 (length (tob verts) + length (tob normals))
                    (length (tobytes_u32 (flatten fcs))) 34963] ++ bvs /\
    accessors g
    = [a0;
       mkAccessor 1 5126 (length normals) "VEC3" None None;
       mkAccessor 2 5125 (length fcs * 3) "SCALAR" None None] ++ acs /\
    bufferView a0 = 0%nat /\
    meshes g = [mkGLTFMesh
                  [mkPrimitive 0 1 2 0
                     (map (fun i => (3 + i)%nat) (seq 0 (length mt)))]
                  (repeat 0.0 (length mt)) (dict_keys mt)] /\
    length bvs = length mt /\ length acs = length mt /\
    (forall k name delta, nth_error mt k = Some (name, delta) ->
       nth_error bvs k
       = Some (mkBufferView 0
                 (length (tob verts ++ tob normals ++ tobytes_u32 (flatten fcs))
                  + list_sum (map (fun nd => length (sec nd)) (firstn k mt)))
                 (length (tob delta)) 34962) /\
       exists mx mn,
         nth_error acs k
         = Some (mkAccessor (3 + k) 5126 (length delta) "VEC3"
                            (Some mx) (Some mn))).
Proof.
  intros Hwf H normals. unfold Fixed.export_to_glb in H.
  fold normals in H.
  pose proof (map_result_dict_items mt Hwf) as Hds.
  rewrite (add_morph_bytes_loop mt (dict_keys mt) (map snd mt) [] Hds) in H.
  cbn [bind app] in H.
  destruct (axis0_max verts) as [vmax|] eqn:Evmax; [|discriminate].
  cbn [bind] in H.
  destruct (axis0_min verts) as [vmin|] eqn:Evmin; [|discriminate].
  cbn [bind] in H.
  match type of H with
  | bind (for_each ?l ?body ?st0) _ = _ =>
      destruct (for_each l body st0) as [[[[bv ac] idxs] off']|] eqn:Eloop;
        [|discriminate]
  end.
  cbn [bind] in H. injection H as <- <-.
  unfold enumerate in Eloop.
  destruct (fixed_describe_loop mt (dict_keys mt) (map snd mt) 0
              _ _ _ _ _ Hds Eloop)
    as (bvs1 & acs1 & Est & Hlb & Hla & Hnth).
  injection Est as -> -> -> _.
  rewrite length_map in Hlb, Hla.
  exists bvs1, acs1,
    (mkAccessor 0 5126 (length verts) "VEC3" (Some vmax) (Some vmin)).
  cbn [binary_blob buffers bufferViews accessors meshes bufferView app].
  unfold dict_keys. rewrite !length_map.
  split; [reflexivity|].
  split.
  { unfold morph_section. now rewrite map_map. }
  split; [reflexivity|]. split; [reflexivity|]. split; [reflexivity|].
  split; [reflexivity|]. split; [reflexivity|].
  split; [exact Hlb|]. split; [exact Hla|].
  intros k name delta Hk.
  assert (Hkd : nth_error (map snd mt) k = Some delta).
  { now rewrite (map_nth_error snd k mt Hk). }
  destruct (Hnth k delta Hkd) as (Hb & mx & mn & Ha).
  split; [|now exists mx, mn].
  rewrite Hb. rewrite !length_app. rewrite firstn_map, map_map.
  do 2 f_equal. unfold morph_section. lia.
Qed.

Lemma fixed_describe_loop_ok (mt : dict field) (l : list (nat * string)) :
  (forall i name, In (i, name) l ->
     exists delta, dict_get mt name = Ok delta /\ delta <> []) ->
  forall st,
  exists st', for_each l (Fixed.describe_morph f32_bytes mt) st = Ok st'.
Proof.
  induction l as [|[i n] l IH]; intros H st; [now eexists|].
  destruct st as [[[bv ac] idxs] off].
  destruct (H i n (or_introl eq_refl)) as (d & Hd & Hne).
  destruct (axis0_max_ok d Hne) as [mx Hmx].
  destruct (axis0_min_ok d Hne) as [mn Hmn].
  cbn [for_each]. unfold Fixed.describe_morph at 1.
  rewrite Hd. cbn [bind]. rewrite Hmx. cbn [bind]. rewrite Hmn. cbn [bind].
  apply IH. intros j name Hin. apply (H j). now right.
Qed.

Lemma fixed_export_returns (verts : field) (fcs : list face)
      (mt : dict field) :
  dict_wf mt -> verts <> [] ->
  (forall name delta, In (name, delta) mt -> delta <> []) ->
  exists g names,
    Fixed.export_to_glb f32_bytes vertex_normals verts fcs mt = Ok (g, names).
Proof.
  intros Hwf Hv Hd. unfold Fixed.export_to_glb.
  pose proof (map_result_dict_items mt Hwf) as Hds.
  rewrite (add_morph_bytes_loop mt (dict_keys mt) (map snd mt) [] Hds).
  cbn [bind app].
  destruct (axis0_max_ok verts Hv) as [vmax ->].
  destruct (axis0_min_ok verts Hv) as [vmin ->]. cbn [bind].
  match goal with
  | |- context [for_each ?l ?body ?st0] =>
      destruct (fixed_describe_loop_ok mt l) with (st := st0)
        as [[[[bv ac] idxs] off'] Eloop]
  end.
  { intros i name Hin. unfold enumerate in Hin.
    apply in_combine_r in Hin. unfold dict_keys in Hin.
    apply in_map_iff in Hin. destruct Hin as [[n d] [<- Hin]].
    destruct (In_nth_error _ _ Hin) as [k Hk].
    exists d. split; [exact (dict_get_nth mt k n d Hwf Hk)|].
    now apply (Hd n d). }
  rewrite Eloop. cbn [bind]. now do 2 eexists.
Qed.

Lemma fixed_export_consistent (verts : field) (fcs : list face)
      (mt : dict field) (g : GLTF2) (names : list string) :
  dict_wf mt ->
  Fixed.export_to_glb f32_bytes vertex_normals verts fcs mt = Ok (g, names) ->
  names = dict_keys mt /\
  index_consistent f32_bytes mt zero_weight g /\
  one_weight_per_target (length mt) g.
Proof.
  intros Hwf H.
  destruct (fixed_export_shape verts fcs mt g names Hwf H)
    as (bvs & acs & a0 & Hnames & Hblob & Hbuf & Hbv & Hac & Ha0
        & Hmesh & Hlb & Hla & Hnth).
  split; [exact Hnames|]. split.
  - eexists. eexists. split; [exact Hmesh|]. split; [reflexivity|].
    cbn [targetNames targets weights]. intros i name Hi.
    destruct (nth_error_keys mt i name Hi) as [delta Hk].
    destruct (Hnth i name delta Hk) as (Hb & mx & mn & Ha).
    assert (Hlt : (i < length mt)%nat).
    { apply nth_error_Some. now rewrite Hk. }
    exists delta, (3 + i)%nat,
      (mkAccessor (3 + i) 5126 (length delta) "VEC3" (Some mx) (Some mn)),
      (mkBufferView 0
         (length (tob verts ++ tob (vertex_normals verts fcs)
                      ++ tobytes_u32 (flatten fcs))
          + list_sum (map (fun nd => length (sec nd)) (firstn i mt)))
         (length (tob delta)) 34962).
    split; [exact (dict_get_nth mt i name delta Hwf Hk)|].
    split.
    { rewrite (map_nth_error (fun j => (3 + j)%nat) i (seq 0 (length mt))
                             (d := i)); [reflexivity|].
      now rewrite nth_error_seq, (proj2 (Nat.ltb_lt _ _) Hlt). }
    split; [rewrite Hac; exact Ha|].
    split; [reflexivity|].
    split; [rewrite Hbv; exact Hb|].
    split.
    + cbn [byteOffset byteLength]. rewrite Hblob.
      replace (tob verts ++ tob (vertex_normals verts fcs)
                   ++ tobytes_u32 (flatten fcs) ++ concat (map sec mt))
        with ((tob verts ++ tob (vertex_normals verts fcs)
                   ++ tobytes_u32 (flatten fcs)) ++ concat (map sec mt))
        by now rewrite <- !app_assoc.
      exact (slice_section _ mt i name delta Hk).
    + now apply nth_error_repeat.
  - eexists. eexists. split; [exact Hmesh|]. split; [reflexivity|].
    cbn [targetNames targets weights]. rewrite repeat_length.
    unfold dict_keys. now rewrite !length_map, length_seq.
Qed.

(** C2: in the container written by either serializer the blob is the
    sections positions, normals, indices and one section per morph target
    in dict order laid end to end, the i-th bufferView is as long as the
    i-th section, and the byteOffset of every bufferView is the sum of the
    byteLengths of the bufferViews before it.  Both serializers return
    on non-empty arrays. *)
Theorem serializer_sections_tile (verts : field) (fcs : list face)
        (normals : field) (morphs : dict field) :
  dict_wf morphs ->
  (forall g names,
     Ultra.export_glb f32_bytes verts fcs normals morphs = Ok (g, names) ->
     tiles g (asset_sections f32_bytes verts normals fcs morphs)) /\
  (forall g names,
     Fixed.export_to_glb f32_bytes vertex_normals verts fcs morphs
     = Ok (g, names) ->
     tiles g (asset_sections f32_bytes verts (vertex_normals verts fcs)
                             fcs morphs)) /\
  (verts <> [] ->
   (forall name delta, In (name, delta) morphs -> delta <> []) ->
   (exists g names,
      Ultra.export_glb f32_bytes verts fcs normals morphs = Ok (g, names)) /\
   (exists g names,
      Fixed.export_to_glb f32_bytes vertex_normals verts fcs morphs
      = Ok (g, names))).
Proof.
  intros Hwf. split; [|split].
  - intros g names H.
    destruct (ultra_export_shape verts fcs normals morphs g names Hwf H)
      as (bvs & acs & tgts & a0 & _ & Hblob & Hbuf & Hbv & _ & _ & _
          & Hlb & _ & _ & Hnth).
    unfold asset_sections.
    apply (tiles_intro g _ _ _ morphs bvs 34962 34962 34963 34962);
      try assumption.
    + rewrite Hbv.
      now rewrite !tobytes_f32_length, tobytes_u32_length, length_app,
        !tobytes_f32_length.
    + intros k [name delta] Hk.
      destruct (Hnth k name delta Hk) as (_ & Hb & _).
      rewrite Hb. unfold morph_section at 3. cbn [snd].
      now rewrite tobytes_f32_length.
  - intros g names H.
    destruct (fixed_export_shape verts fcs morphs g names Hwf H)
      as (bvs & acs & a0 & _ & Hblob & Hbuf & Hbv & _ & _ & _
          & Hlb & _ & Hnth).
    unfold asset_sections.
    apply (tiles_intro g _ _ _ morphs bvs 34962 34962 34963 34962);
      try assumption.
    intros k [name delta] Hk.
    destruct (Hnth k name delta Hk) as (Hb & _).
    exact Hb.
  - intros Hv Hd. split.
    + now apply ultra_export_returns.
    + now apply fixed_export_returns.
Qed.

End SerializerFacts.

(** *** Instances on a one-vertex mesh *)

Lemma sample_morphs_wf :
  dict_wf [("Weight"%string, [(0.07, 0, 0)] : field)].
Proof. repeat constructor. cbn. tauto. Qed.

Lemma serializer_sections_tile_witness :
  exists g names,
    Ultra.export_glb zero_image [(0, 1, 0)] [(0, 0, 0)%nat] [(0, 0, 1)]
                     [("Weight"%string, [(0.07, 0, 0)])] = Ok (g, names) /\
    tiles g (asset_sections zero_image [(0, 1, 0)] [(0, 0, 1)]
                            [(0, 0, 0)%nat]
                            [("Weight"%string, [(0.07, 0, 0)])]).
Proof.
  destruct (serializer_sections_tile zero_image (fun _ => eq_refl)
              (fun vs _ => vs) [(0, 1, 0)] [(0, 0, 0)%nat] [(0, 0, 1)]
              [("Weight"%string, [(0.07, 0, 0)])] sample_morphs_wf)
    as (HU & _ & Hret).
  destruct Hret as [(g & names & E) _].
  - discriminate.
  - intros name delta [H|[]]. injection H as _ <-. discriminate.
  - exists g, names. split; [exact E | exact (HU g names E)].
Defined.


(* ================================================================== *)
(** * Further properties of the builders *)

(** ** Loops *)

Lemma for_each_app {A S : Type} (xs ys : list A) (body : A -> S -> result S)
      (st : S) :
  for_each (xs ++ ys) body st
  = (st' <- for_each xs body st ;; for_each ys body st').
Proof.
  revert st. induction xs as [|x xs IH]; intros st; cbn; [reflexivity|].
  destruct (body x st); cbn; [apply IH | reflexivity].
Qed.

(** A property kept by every iteration that returns is kept by the loop. *)
Lemma for_each_preserves {A S : Type} (xs : list A)
      (body : A -> S -> result S) (P : S -> Prop) :
  (forall x st st', In x xs -> P st -> body x st = Ok st' -> P st') ->
  forall st st', P st -> for_each xs body st = Ok st' -> P st'.
Proof.
  induction xs as [|x xs IH]; intros Hstep st st' HP H; cbn in H.
  - now injection H as <-.
  - destruct (body x st) as [st1|] eqn:E; [|discriminate]. cbn in H.
    apply (IH (fun y s s' Hy => Hstep y s s' (or_intror Hy)) st1 st');
      [|exact H].
    apply (Hstep x st st1); [now left | exact HP | exact E].
Qed.

(** A loop whose iterations all return, returns. *)
Lemma for_each_total {A S : Type} (xs : list A)
      (body : A -> S -> result S) (P : S -> Prop) :
  (forall x st, In x xs -> P st -> exists st', body x st = Ok st' /\ P st') ->
  forall st, P st -> exists st', for_each xs body st = Ok st' /\ P st'.
Proof.
  induction xs as [|x xs IH]; intros Hstep st HP; cbn.
  - now exists st.
  - destruct (Hstep x st (or_introl eq_refl) HP) as (st1 & E & HP1).
    rewrite E. cbn. apply IH; [|exact HP1].
    intros y s Hy. apply Hstep. now right.
Qed.

Lemma firstn_snoc {A : Type} (xs : list A) (i : nat) (x : A) :
  nth_error xs i = Some x -> firstn (S i) xs = firstn i xs ++ [x].
Proof.
  revert i. induction xs as [|y xs IH]; intros i H.
  - destruct i; discriminate.
  - destruct i as [|i]; cbn in *.
    + now injection H as ->.
    + f_equal. now apply IH.
Qed.

Lemma combine_snoc {A B : Type} (xs : list A) (ys : list B) (x : A) (y : B) :
  length xs = length ys ->
  combine (xs ++ [x]) (ys ++ [y]) = combine xs ys ++ [(x, y)].
Proof.
  revert ys. induction xs as [|a xs IH]; intros ys H.
  - destruct ys; [reflexivity|discriminate].
  - destruct ys as [|b ys]; [discriminate|]. cbn. f_equal. apply IH.
    cbn in H. lia.
Qed.

Lemma enumerate_snoc {A : Type} (xs : list A) (x : A) :
  enumerate (xs ++ [x]) = enumerate xs ++ [(length xs, x)].
Proof.
  unfold enumerate. rewrite length_app, Nat.add_1_r, seq_S.
  cbn [Nat.add]. apply combine_snoc. apply length_seq.
Qed.

(** Invariants of a loop over [enumerate(xs)], indexed by the number of
    elements already visited. *)
Lemma for_each_enumerate_preserves {A St : Type} (xs : list A)
      (body : nat * A -> St -> result St) (Inv : nat -> St -> Prop) :
  (forall i x st st', nth_error xs i = Some x -> Inv i st ->
                      body (i, x) st = Ok st' -> Inv (S i) st') ->
  forall st0 st', Inv 0%nat st0 ->
                  for_each (enumerate xs) body st0 = Ok st' ->
                  Inv (length xs) st'.
Proof.
  intros Hstep st0.
  induction xs as [|x xs IH] using rev_ind; intros st' H0 H.
  - cbn in H. now injection H as <-.
  - rewrite enumerate_snoc, for_each_app in H.
    destruct (for_each (enumerate xs) body st0) as [st1|] eqn:E;
      [|discriminate].
    cbn in H. destruct (body (length xs, x) st1) as [st2|] eqn:E2;
      [|discriminate].
    cbn in H. injection H as <-.
    rewrite length_app, Nat.add_1_r.
    apply (Hstep (length xs) x st1 st2).
    + now rewrite nth_error_app2, Nat.sub_diag by lia.
    + apply IH; [|exact H0|reflexivity].
      intros i y s s' Hi. apply Hstep.
      rewrite nth_error_app1; [exact Hi|].
      apply nth_error_Some. now rewrite Hi.
    + exact E2.
Qed.

Lemma for_each_enumerate_total {A St : Type} (xs : list A)
      (body : nat * A -> St -> result St) (Inv : nat -> St -> Prop) :
  (forall i x st, nth_error xs i = Some x -> Inv i st ->
                  exists st', body (i, x) st = Ok st' /\ Inv (S i) st') ->
  forall st0, Inv 0%nat st0 ->
              exists st', for_each (enumerate xs) body st0 = Ok st' /\
                          Inv (length xs) st'.
Proof.
  intros Hstep st0 H0.
  induction xs as [|x xs IH] using rev_ind.
  - now exists st0.
  - destruct IH as (st1 & E & H1).
    { intros i y s Hi. apply Hstep.
      rewrite nth_error_app1; [exact Hi|].
      apply nth_error_Some. now rewrite Hi. }
    destruct (Hstep (length xs) x st1) as (st2 & E2 & H2).
    { now rewrite nth_error_app2, Nat.sub_diag by lia. }
    { exact H1. }
    exists st2. rewrite enumerate_snoc, for_each_app, E. cbn. rewrite E2.
    cbn. rewrite length_app, Nat.add_1_r. now split.
Qed.

Lemma for_each_ext {A St : Type} (xs : list A) (f g : A -> St -> result St)
      (st : St) :
  (forall x s, f x s = g x s) -> for_each xs f st = for_each xs g st.
Proof.
  intros H. revert st. induction xs as [|x xs IH]; intros st; cbn;
    [reflexivity|].
  rewrite H. destruct (g x st); cbn; [apply IH | reflexivity].
Qed.

Lemma py_mod_ok (a b r : nat) :
  py_mod a b = Ok r -> (0 < b)%nat /\ (r < b)%nat /\ r = (a mod b)%nat.
Proof.
  unfold py_mod. destruct (Nat.eqb b 0) eqn:E; [discriminate|].
  apply Nat.eqb_neq in E. intros H. injection H as <-.
  repeat split; [lia | apply Nat.mod_upper_bound; lia].
Qed.

Lemma py_mod_pos (a b : nat) :
  (0 < b)%nat -> py_mod a b = Ok (a mod b)%nat.
Proof.
  intros H. unfold py_mod. destruct (Nat.eqb b 0) eqn:E; [|reflexivity].
  apply Nat.eqb_eq in E. lia.
Qed.

Lemma py_floordiv_pos (a b : nat) :
  (0 < b)%nat -> py_floordiv a b = Ok (a / b)%nat.
Proof.
  intros H. unfold py_floordiv. destruct (Nat.eqb b 0) eqn:E; [|reflexivity].
  apply Nat.eqb_eq in E. lia.
Qed.

(** ** Faces and their index bounds *)

Lemma face_below_intro (k a b c : nat) :
  (a < k)%nat -> (b < k)%nat -> (c < k)%nat -> face_below k (a, b, c) = true.
Proof.
  intros Ha Hb Hc. unfold face_below. cbn [fst snd].
  now rewrite !(proj2 (Nat.ltb_lt _ _)) by assumption.
Qed.

Lemma face_below_elim (k : nat) (f : face) :
  face_below k f = true ->
  (fst (fst f) < k)%nat /\ (snd (fst f) < k)%nat /\ (snd f < k)%nat.
Proof.
  unfold face_below. intros H.
  apply andb_prop in H. destruct H as [H H3].
  apply andb_prop in H. destruct H as [H1 H2].
  now rewrite !Nat.ltb_lt in *.
Qed.

Lemma faces_below_mono (k k' : nat) (fs : list face) :
  (k <= k')%nat -> faces_below k fs -> faces_below k' fs.
Proof.
  intros Hk H. unfold faces_below in *.
  eapply Forall_impl; [|exact H].
  intros [[a b] c] Hf. apply face_below_elim in Hf. cbn in Hf.
  apply face_below_intro; lia.
Qed.

Lemma faces_below_app (k : nat) (fs gs : list face) :
  faces_below k (fs ++ gs) <-> faces_below k fs /\ faces_below k gs.
Proof. apply Forall_app. Qed.

Lemma faces_below_map_seq (k n : nat) (f : nat -> face) :
  (forall j, (j < n)%nat -> face_below k (f j) = true) ->
  faces_below k (map f (seq 0 n)).
Proof.
  intros H. unfold faces_below. apply Forall_forall.
  intros x Hx. apply in_map_iff in Hx. destruct Hx as [j [<- Hj]].
  apply in_seq in Hj. apply H. lia.
Qed.

Lemma list_sum_in_le (xs : list nat) (x : nat) :
  In x xs -> (x <= list_sum xs)%nat.
Proof.
  induction xs as [|y xs IH]; intros H; [contradiction|].
  unfold list_sum in *. cbn [fold_right].
  destruct H as [->|H]; [lia|]. specialize (IH H). lia.
Qed.

(** ** The ring-stacking loop in general *)

Section RingLoop.

Context {Row : Type}.
Variable npts : Row -> nat.
Variable pts : Row -> list vec3.
Variable stitch : nat -> nat -> nat -> nat -> list face -> result (list face).
Variable table : list Row.

Hypothesis pts_len : forall r, length (pts r) = npts r.

Hypothesis stitch_sound :
  forall pn cn cur fs fs',
    (pn <= cur)%nat -> faces_below (cur + cn) fs ->
    for_each (seq 0 (Nat.max pn cn)) (stitch pn cn cur) fs = Ok fs' ->
    faces_below (cur + cn) fs'.

Lemma ring_loop_sound (st : asm_state) :
  for_each (enumerate table) (ring_loop_step npts pts stitch table)
           (AsmState [] [] 0) = Ok st ->
  current_idx st = list_sum (map npts table) /\
  length (st_vertices st) = current_idx st /\
  faces_below (current_idx st) (st_faces st).
Proof using pts_len stitch_sound.
  intros H.
  pose (Inv := fun (i : nat) (s : asm_state) =>
                 current_idx s = list_sum (map npts (firstn i table)) /\
                 length (st_vertices s) = current_idx s /\
                 faces_below (current_idx s) (st_faces s)).
  assert (HI : Inv (length table) st).
  { apply (for_each_enumerate_preserves table
             (ring_loop_step npts pts stitch table) Inv)
      with (st0 := AsmState [] [] 0);
      [|now repeat split; try constructor|exact H].
    clear st H. intros i r st st' Hi (Hc & Hl & Hf) Hstep.
    unfold ring_loop_step in Hstep.
    assert (Hsum : list_sum (map npts (firstn (S i) table))
                   = (list_sum (map npts (firstn i table)) + npts r)%nat).
    { rewrite (firstn_snoc table i r Hi), map_app, list_sum_app. cbn. lia. }
    destruct (Nat.ltb 0 i) eqn:Ei.
    - apply Nat.ltb_lt in Ei.
      unfold py_index in Hstep.
      destruct (nth_error table (i - 1)) as [prev|] eqn:Ep;
        [|discriminate].
      cbn [bind] in Hstep.
      destruct (for_each _ _ (st_faces st)) as [fs'|] eqn:Es; [|discriminate].
      cbn [bind] in Hstep. injection Hstep as <-.
      unfold Inv. cbn [current_idx st_vertices st_faces].
      split; [rewrite Hsum; lia|].
      split; [rewrite length_app, pts_len; lia|].
      apply (stitch_sound (npts prev) (npts r) (current_idx st)
                          (st_faces st) fs'); [| |exact Es].
      + rewrite Hc.
        replace i with (S (i - 1)) by lia.
        rewrite (firstn_snoc table (i - 1) prev Ep), map_app, list_sum_app.
        cbn. lia.
      + eapply faces_below_mono; [|exact Hf]. lia.
    - cbn [bind] in Hstep. injection Hstep as <-.
      unfold Inv. cbn [current_idx st_vertices st_faces].
      split; [rewrite Hsum; lia|].
      split; [rewrite length_app, pts_len; lia|].
      eapply faces_below_mono; [|exact Hf]. lia. }
  unfold Inv in HI. now rewrite firstn_all in HI.
Qed.

Hypothesis stitch_total :
  forall pn cn cur fs,
    (0 < pn)%nat -> (0 < cn)%nat ->
    exists fs', for_each (seq 0 (Nat.max pn cn)) (stitch pn cn cur) fs = Ok fs'.

Lemma ring_loop_total :
  Forall (fun r => (0 < npts r)%nat) table ->
  exists st,
    for_each (enumerate table) (ring_loop_step npts pts stitch table)
             (AsmState [] [] 0) = Ok st.
Proof using stitch_total.
  intros Hpos.
  destruct (for_each_enumerate_total table
              (ring_loop_step npts pts stitch table) (fun _ _ => True))
    with (st0 := AsmState [] [] 0) as (st & E & _); [|exact I|now exists st].
  intros i r st Hi _. unfold ring_loop_step.
  destruct (Nat.ltb 0 i) eqn:Ei; [|cbn [bind]; now eexists].
  apply Nat.ltb_lt in Ei.
  assert (Hlt : (i - 1 < length table)%nat).
  { assert (i < length table)%nat by (apply nth_error_Some; now rewrite Hi).
    lia. }
  destruct (nth_error table (i - 1)) as [prev|] eqn:Ep;
    [|apply nth_error_None in Ep; lia].
  unfold py_index. rewrite Ep. cbn [bind].
  rewrite Forall_forall in Hpos.
  destruct (stitch_total (npts prev) (npts r) (current_idx st) (st_faces st))
    as [fs' Es].
  { apply Hpos. eapply nth_error_In; exact Ep. }
  { apply Hpos. eapply nth_error_In; exact Hi. }
  rewrite Es. cbn [bind]. now eexists.
Qed.

End RingLoop.

Lemma py_last_in {A : Type} (xs : list A) (x : A) :
  py_last xs = Ok x -> In x xs.
Proof.
  unfold py_last. intros H. apply in_rev.
  destruct (rev xs) as [|y ys]; [discriminate|].
  injection H as ->. now left.
Qed.

Lemma py_last_ok {A : Type} (xs : list A) :
  xs <> [] -> exists x, py_last xs = Ok x.
Proof.
  intros Hne. unfold py_last.
  destruct (rev xs) as [|y ys] eqn:E; [|now eexists].
  apply (f_equal (@rev A)) in E. rewrite rev_involutive in E. contradiction.
Qed.

Lemma py_index_in {A : Type} (xs : list A) (i : nat) (x : A) :
  py_index xs i = Ok x -> In x xs.
Proof.
  unfold py_index. destruct (nth_error xs i) eqn:E; [|discriminate].
  intros H. injection H as <-. eapply nth_error_In; exact E.
Qed.

(** ** The body assembler of [create_ultra_detailed_avatar.py] *)

Lemma ultra_stitch_step_sound (pn cn cur j : nat) (fs fs' : list face) :
  (pn <= cur)%nat -> faces_below (cur + cn) fs ->
  Ultra.stitch_step pn cn (cur - pn) cur j fs = Ok fs' ->
  faces_below (cur + cn) fs'.
Proof.
  intros Hle Hfs H. unfold Ultra.stitch_step in H.
  destruct (py_floordiv (j * pn) (Nat.max pn cn)) as [pq|]; [|discriminate].
  cbn [bind] in H.
  destruct (py_mod pq pn) as [pr|] eqn:E1; [|discriminate]. cbn [bind] in H.
  destruct (py_floordiv (j * cn) (Nat.max pn cn)) as [cq|]; [|discriminate].
  cbn [bind] in H.
  destruct (py_mod cq cn) as [cr|] eqn:E2; [|discriminate]. cbn [bind] in H.
  destruct (py_floordiv ((j + 1) * pn) (Nat.max pn cn)) as [npq|];
    [|discriminate].
  cbn [bind] in H.
  destruct (py_mod npq pn) as [npr|] eqn:E3; [|discriminate]. cbn [bind] in H.
  destruct (py_floordiv ((j + 1) * cn) (Nat.max pn cn)) as [ncq|];
    [|discriminate].
  cbn [bind] in H.
  destruct (py_mod ncq cn) as [ncr|] eqn:E4; [|discriminate]. cbn [bind] in H.
  apply py_mod_ok in E1, E2, E3, E4.
  destruct E1 as (_ & E1 & _), E2 as (_ & E2 & _), E3 as (_ & E3 & _),
           E4 as (_ & E4 & _).
  assert (F1 : face_below (cur + cn)
                 ((cur - pn + pr)%nat, (cur + cr)%nat, (cur + ncr)%nat) = true)
    by (apply face_below_intro; lia).
  assert (F2 : face_below (cur + cn)
                 ((cur - pn + pr)%nat, (cur + ncr)%nat, (cur - pn + npr)%nat)
               = true)
    by (apply face_below_intro; lia).
  destruct (negb (Nat.eqb (cur - pn + pr) (cur - pn + npr))
            || negb (Nat.eqb (cur + cr) (cur + ncr)));
    [|now injection H as <-].
  destruct (negb (Nat.eqb (cur - pn + pr) (cur - pn + npr)));
    injection H as <-; unfold faces_below;
    repeat (apply Forall_app; split); try exact Hfs;
    repeat constructor; assumption.
Qed.

Lemma ultra_stitch_step_total (pn cn ps cs j : nat) (fs : list face) :
  (0 < pn)%nat -> (0 < cn)%nat ->
  exists fs', Ultra.stitch_step pn cn ps cs j fs = Ok fs'.
Proof.
  intros Hp Hc. unfold Ultra.stitch_step.
  rewrite !py_floordiv_pos by lia. cbn [bind].
  rewrite !py_mod_pos by lia. cbn [bind].
  destruct (_ || _); [|now eexists].
  destruct (negb _); now eexists.
Qed.

Lemma ultra_ring_step_shape (table : list Ultra.anatomy_row) (height : R)
      (ir : nat * Ultra.anatomy_row) (st : asm_state) :
  Ultra.ring_step table height ir st
  = ring_loop_step Ultra.n_pts
      (fun r => map (fun p => (fst p, Ultra.y_rel r * height, snd p))
                    (Ultra.create_ellipsoid_profile
                       (Ultra.w_x r) (Ultra.d_z r) (Ultra.n_pts r)
                       (Ultra.f_flat r) (Ultra.b_flat r) (Ultra.s_bulge r)))
      (fun pn cn cur => Ultra.stitch_step pn cn (cur - pn) cur)
      table ir st.
Proof. destruct ir as [i r]. reflexivity. Qed.

Lemma ultra_ring_loop_sound (table : list Ultra.anatomy_row) (height : R)
      (st : asm_state) :
  for_each (enumerate table) (Ultra.ring_step table height)
           (AsmState [] [] 0) = Ok st ->
  current_idx st = list_sum (map Ultra.n_pts table) /\
  length (st_vertices st) = current_idx st /\
  faces_below (current_idx st) (st_faces st).
Proof.
  intros H.
  rewrite (for_each_ext _ _ _ _ (ultra_ring_step_shape table height)) in H.
  apply (ring_loop_sound _ _ _ table) in H; [exact H| |].
  - intros r. now rewrite length_map, create_ellipsoid_profile_length.
  - intros pn cn cur fs fs' Hle Hfs Hloop.
    apply (for_each_preserves _ _ (faces_below (cur + cn))
             (fun j s s' _ Hs => ultra_stitch_step_sound pn cn cur j s s' Hle Hs)
             fs fs' Hfs Hloop).
Qed.

Lemma ultra_ring_loop_total (table : list Ultra.anatomy_row) (height : R) :
  Forall (fun r => (0 < Ultra.n_pts r)%nat) table ->
  exists st, for_each (enumerate table) (Ultra.ring_step table height)
                      (AsmState [] [] 0) = Ok st.
Proof.
  intros Hpos.
  rewrite (for_each_ext _ _ _ _ (ultra_ring_step_shape table height)).
  apply ring_loop_total; [|exact Hpos].
  intros pn cn cur fs Hp Hc.
  destruct (for_each_total (seq 0 (Nat.max pn cn))
              (Ultra.stitch_step pn cn (cur - pn) cur) (fun _ => True))
    with (st := fs) as (fs' & E & _); [|exact I|now exists fs'].
  intros j s _ _.
  destruct (ultra_stitch_step_total pn cn (cur - pn) cur j s Hp Hc) as [s' E].
  now exists s'.
Qed.

Lemma ultra_assemble_sound (table : list Ultra.anatomy_row) (height : R) (m : mesh) :
  Ultra.assemble table height = Ok m ->
  length (vertices m) = (list_sum (map Ultra.n_pts table) + 2)%nat /\
  well_indexed m.
Proof.
  intros H. unfold Ultra.assemble in H.
  destruct (for_each (enumerate table) (Ultra.ring_step table height)
                     (AsmState [] [] 0)) as [st|] eqn:Eloop; [|discriminate].
  cbn [bind] in H.
  destruct (ultra_ring_loop_sound table height st Eloop) as (Hc & Hl & Hf).
  destruct (py_last table) as [top|] eqn:Etop; [|discriminate].
  cbn [bind] in H.
  destruct (py_index table 0) as [bottom|] eqn:Ebot; [|discriminate].
  cbn [bind] in H. injection H as <-.
  assert (Htop : (Ultra.n_pts top <= current_idx st)%nat).
  { rewrite Hc. apply list_sum_in_le. apply in_map.
    now apply py_last_in. }
  assert (Hbot : (Ultra.n_pts bottom <= current_idx st)%nat).
  { rewrite Hc. apply list_sum_in_le. apply in_map.
    eapply py_index_in; exact Ebot. }
  unfold well_indexed. cbn [vertices faces].
  rewrite !length_app. cbn [length]. rewrite Hl.
  split; [lia|].
  unfold append_faces. rewrite !faces_below_app. repeat split.
  + eapply faces_below_mono; [|exact Hf]. lia.
  + apply faces_below_map_seq. intros j Hj.
    assert ((j + 1) mod Ultra.n_pts top < Ultra.n_pts top)%nat
      by (apply Nat.mod_upper_bound; lia).
    apply face_below_intro; lia.
  + apply faces_below_map_seq. intros j Hj.
    assert ((j + 1) mod Ultra.n_pts bottom < Ultra.n_pts bottom)%nat
      by (apply Nat.mod_upper_bound; lia).
    apply face_below_intro; lia.
Qed.

Lemma ultra_assemble_returns (table : list Ultra.anatomy_row) (height : R) :
  table <> [] -> Forall (fun r => (0 < Ultra.n_pts r)%nat) table ->
  exists m, Ultra.assemble table height = Ok m.
Proof.
  intros Hne Hpos. unfold Ultra.assemble.
  destruct (ultra_ring_loop_total table height Hpos) as [st ->]. cbn [bind].
  destruct (py_last_ok table Hne) as [top ->]. cbn [bind].
  destruct table as [|r0 table]; [contradiction|].
  cbn [py_index nth_error bind]. now eexists.
Qed.

(** X1: whenever the body assembler returns, its mesh has one vertex per
    ring point plus the two cap centres, and every face index is below
    the vertex count; it returns on every non-empty table whose rings all
    have at least one point, in particular on the table of
    [create_detailed_human_body]. *)
Theorem ultra_body_well_indexed (table : list Ultra.anatomy_row) (height : R) :
  (forall m, Ultra.assemble table height = Ok m ->
             length (vertices m)
             = (list_sum (map Ultra.n_pts table) + 2)%nat /\
             well_indexed m) /\
  (table <> [] -> Forall (fun r => (0 < Ultra.n_pts r)%nat) table ->
   exists m, Ultra.assemble table height = Ok m) /\
  (exists m, Ultra.create_detailed_human_body height = Ok m).
Proof.
  split; [|split].
  - intros m H. exact (ultra_assemble_sound table height m H).
  - apply ultra_assemble_returns.
  - apply ultra_assemble_returns; [discriminate|].
    unfold Ultra.anatomy. repeat constructor.
Qed.

Lemma ultra_body_well_indexed_witness :
  exists m,
    Ultra.assemble [Ultra.arow 0 0.045 0.11 3 0 0 0;
                    Ultra.arow 1 0.02 0.022 5 0 0 0] 1.75 = Ok m.
Proof.
  apply (proj1 (proj2 (ultra_body_well_indexed
           [Ultra.arow 0 0.045 0.11 3 0 0 0;
            Ultra.arow 1 0.02 0.022 5 0 0 0] 1.75))).
  - discriminate.
  - repeat constructor.
Defined.

(** ** The part assemblers of [create_fixed_avatar.py] *)

Lemma band_total_snoc (xs : list nat) (a b : nat) :
  band_total (xs ++ [a; b]) = (band_total (xs ++ [a]) + Nat.max a b)%nat.
Proof.
  induction xs as [|x xs IH]; [cbn; lia|].
  destruct xs as [|y xs].
  - cbn. lia.
  - change (band_total ((x :: y :: xs) ++ [a; b]))
      with (Nat.max x y + band_total ((y :: xs) ++ [a; b]))%nat.
    change (band_total ((x :: y :: xs) ++ [a]))
      with (Nat.max x y + band_total ((y :: xs) ++ [a]))%nat.
    rewrite IH. lia.
Qed.

Section RingLoopCount.

Context {Row : Type}.
Variable npts : Row -> nat.
Variable pts : Row -> list vec3.
Variable stitch : nat -> nat -> nat -> nat -> list face -> result (list face).
Variable table : list Row.

Hypothesis stitch_count :
  forall pn cn cur fs fs',
    for_each (seq 0 (Nat.max pn cn)) (stitch pn cn cur) fs = Ok fs' ->
    length fs' = (length fs + 2 * Nat.max pn cn)%nat.

Lemma ring_loop_count (st : asm_state) :
  for_each (enumerate table) (ring_loop_step npts pts stitch table)
           (AsmState [] [] 0) = Ok st ->
  length (st_faces st) = (2 * band_total (map npts table))%nat.
Proof using stitch_count.
  intros H.
  pose (Inv := fun (i : nat) (s : asm_state) =>
                 length (st_faces s)
                 = (2 * band_total (map npts (firstn i table)))%nat).
  assert (HI : Inv (length table) st).
  { apply (for_each_enumerate_preserves table
             (ring_loop_step npts pts stitch table) Inv)
      with (st0 := AsmState [] [] 0); [|reflexivity|exact H].
    clear st H. intros i r st st' Hi HInv Hstep.
    unfold ring_loop_step in Hstep. unfold Inv in *.
    destruct (Nat.ltb 0 i) eqn:Ei.
    - apply Nat.ltb_lt in Ei.
      unfold py_index in Hstep.
      destruct (nth_error table (i - 1)) as [prev|] eqn:Ep; [|discriminate].
      cbn [bind] in Hstep.
      destruct (for_each _ _ (st_faces st)) as [fs'|] eqn:Es; [|discriminate].
      cbn [bind] in Hstep. injection Hstep as <-. cbn [st_faces].
      rewrite (stitch_count _ _ _ _ _ Es), HInv.
      destruct i as [|k]; [lia|].
      replace (S k - 1)%nat with k in Ep by lia.
      rewrite (firstn_snoc table (S k) r Hi).
      rewrite (firstn_snoc table k prev Ep).
      rewrite <- app_assoc. cbn [app].
      rewrite !map_app. cbn [map]. rewrite band_total_snoc. lia.
    - apply Nat.ltb_ge in Ei. assert (i = 0%nat) by lia. subst i.
      cbn [bind] in Hstep. injection Hstep as <-. cbn [st_faces].
      rewrite HInv. destruct table as [|r0 t]; [discriminate|].
      reflexivity. }
  unfold Inv in HI. now rewrite firstn_all in HI.
Qed.

End RingLoopCount.

Lemma fixed_stitch_step_sound (pn cn cur j : nat) (fs fs' : list face) :
  (pn <= cur)%nat -> faces_below (cur + cn) fs ->
  Fixed.stitch_step pn cn cur j fs = Ok fs' ->
  faces_below (cur + cn) fs'.
Proof.
  intros Hle Hfs H. unfold Fixed.stitch_step in H.
  destruct (py_mod j pn) as [pr|] eqn:E1; [|discriminate]. cbn [bind] in H.
  destruct (py_mod j cn) as [cr|] eqn:E2; [|discriminate]. cbn [bind] in H.
  destruct (py_mod (j + 1) pn) as [npr|] eqn:E3; [|discriminate].
  cbn [bind] in H.
  destruct (py_mod (j + 1) cn) as [ncr|] eqn:E4; [|discriminate].
  cbn [bind] in H. injection H as <-.
  apply py_mod_ok in E1, E2, E3, E4.
  destruct E1 as (_ & E1 & _), E2 as (_ & E2 & _), E3 as (_ & E3 & _),
           E4 as (_ & E4 & _).
  apply faces_below_app. split; [exact Hfs|].
  repeat constructor; apply face_below_intro; lia.
Qed.

Lemma fixed_stitch_loop_sound (pn cn cur : nat) (fs fs' : list face) :
  (pn <= cur)%nat -> faces_below (cur + cn) fs ->
  for_each (seq 0 (Nat.max pn cn)) (Fixed.stitch_step pn cn cur) fs = Ok fs' ->
  faces_below (cur + cn) fs'.
Proof.
  intros Hle Hfs Hloop.
  exact (for_each_preserves _ _ (faces_below (cur + cn))
           (fun j s s' _ Hs => fixed_stitch_step_sound pn cn cur j s s' Hle Hs)
           fs fs' Hfs Hloop).
Qed.

Lemma fixed_stitch_loop_total (pn cn cur : nat) (fs : list face) :
  (0 < pn)%nat -> (0 < cn)%nat ->
  exists fs',
    for_each (seq 0 (Nat.max pn cn)) (Fixed.stitch_step pn cn cur) fs = Ok fs'.
Proof.
  intros Hp Hc.
  destruct (for_each_total (seq 0 (Nat.max pn cn))
              (Fixed.stitch_step pn cn cur) (fun _ => True))
    with (st := fs) as (fs' & E & _); [|exact I|now exists fs'].
  intros j s _ _. unfold Fixed.stitch_step.
  rewrite !py_mod_pos by assumption. cbn [bind]. now eexists.
Qed.

Lemma fixed_stitch_loop_count (pn cn cur : nat) (js : list nat) :
  forall fs fs',
    for_each js (Fixed.stitch_step pn cn cur) fs = Ok fs' ->
    length fs' = (length fs + 2 * length js)%nat.
Proof.
  induction js as [|j js IH]; intros fs fs' H; cbn in H.
  - injection H as <-. cbn. lia.
  - destruct (Fixed.stitch_step pn cn cur j fs) as [fs1|] eqn:E;
      [|discriminate].
    cbn [bind] in H. rewrite (IH _ _ H).
    unfold Fixed.stitch_step in E.
    destruct (py_mod j pn); [|discriminate]. cbn [bind] in E.
    destruct (py_mod j cn); [|discriminate]. cbn [bind] in E.
    destruct (py_mod (j + 1) pn); [|discriminate]. cbn [bind] in E.
    destruct (py_mod (j + 1) cn); [|discriminate]. cbn [bind] in E.
    injection E as <-. rewrite length_app. cbn [length]. lia.
Qed.

Lemma fixed_stitch_count (pn cn cur : nat) (fs fs' : list face) :
  for_each (seq 0 (Nat.max pn cn)) (Fixed.stitch_step pn cn cur) fs = Ok fs' ->
  length fs' = (length fs + 2 * Nat.max pn cn)%nat.
Proof.
  intros H. rewrite (fixed_stitch_loop_count _ _ _ _ _ _ H).
  now rewrite length_seq.
Qed.

(** What the three ring loops of the file leave in their state. *)
Lemma fixed_ring_loop_facts {Row : Type} (npts : Row -> nat)
      (pts : Row -> list vec3) (table : list Row) (st : asm_state) :
  (forall r, length (pts r) = npts r) ->
  for_each (enumerate table)
           (ring_loop_step npts pts Fixed.stitch_step table)
           (AsmState [] [] 0) = Ok st ->
  current_idx st = list_sum (map npts table) /\
  length (st_vertices st) = current_idx st /\
  faces_below (current_idx st) (st_faces st) /\
  length (st_faces st) = (2 * band_total (map npts table))%nat.
Proof.
  intros Hpts H.
  destruct (ring_loop_sound npts pts Fixed.stitch_step table Hpts
              fixed_stitch_loop_sound st H) as (Hc & Hl & Hf).
  repeat split; try assumption.
  exact (ring_loop_count npts pts Fixed.stitch_step table
           fixed_stitch_count st H).
Qed.

Lemma fixed_ring_loop_returns {Row : Type} (npts : Row -> nat)
      (pts : Row -> list vec3) (table : list Row) :
  Forall (fun r => (0 < npts r)%nat) table ->
  exists st,
    for_each (enumerate table)
             (ring_loop_step npts pts Fixed.stitch_step table)
             (AsmState [] [] 0) = Ok st.
Proof.
  apply ring_loop_total. exact fixed_stitch_loop_total.
Qed.

Lemma torso_ring_step_shape (table : list Fixed.torso_row) (height : R)
      (ir : nat * Fixed.torso_row) (st : asm_state) :
  Fixed.ring_step table height ir st
  = ring_loop_step Fixed.n_pts
      (fun r => map (Fixed.ring_point r height) (seq 0 (Fixed.n_pts r)))
      Fixed.stitch_step table ir st.
Proof. destruct ir as [i r]. reflexivity. Qed.

Lemma leg_ring_step_shape (table : list Fixed.leg_row) (height : R)
      (side : string) (ir : nat * Fixed.leg_row) (st : asm_state) :
  Fixed.leg_ring_step table height side ir st
  = ring_loop_step Fixed.leg_n_pts
      (fun r => map (Fixed.leg_point r height side)
                    (seq 0 (Fixed.leg_n_pts r)))
      Fixed.stitch_step table ir st.
Proof. destruct ir as [i r]. reflexivity. Qed.

Lemma arm_ring_step_shape (table : list Fixed.arm_row) (height : R)
      (side : string) (ir : nat * Fixed.arm_row) (st : asm_state) :
  Fixed.arm_ring_step table height side ir st
  = ring_loop_step Fixed.arm_n_pts
      (fun r => map (Fixed.arm_point r height side)
                    (seq 0 (Fixed.arm_n_pts r)))
      Fixed.stitch_step table ir st.
Proof. destruct ir as [i r]. reflexivity. Qed.

Lemma py_last_last {A : Type} (xs : list A) (x : A) (f : A -> nat) :
  py_last xs = Ok x -> last (map f xs) 0%nat = f x.
Proof.
  unfold py_last. intros H.
  destruct (rev xs) as [|y ys] eqn:E; [discriminate|]. injection H as ->.
  apply (f_equal (@rev A)) in E. rewrite rev_involutive in E. subst xs.
  cbn [rev]. rewrite map_app. cbn [map]. apply last_last.
Qed.

Lemma py_index_0_hd {A : Type} (xs : list A) (x : A) (f : A -> nat) :
  py_index xs 0 = Ok x -> hd 0%nat (map f xs) = f x.
Proof.
  destruct xs as [|y ys]; [discriminate|].
  cbn. intros H. now injection H as ->.
Qed.

Lemma torso_assemble_sound (table : list Fixed.torso_row) (height : R) (m : mesh) :
  Fixed.assemble table height = Ok m ->
     length (vertices m) = (list_sum (map Fixed.n_pts table) + 1)%nat /\
     length (faces m)
     = (2 * band_total (map Fixed.n_pts table)
        + last (map Fixed.n_pts table) 0)%nat /\
     well_indexed m.
Proof.
  intros H. unfold Fixed.assemble in H.
  rewrite (for_each_ext _ _ _ _ (torso_ring_step_shape table height)) in H.
  match type of H with
  | bind ?loop _ = _ => destruct loop as [st|] eqn:Eloop; [|discriminate]
  end.
  cbn [bind] in H.
  destruct (fixed_ring_loop_facts _ _ table st
              (fun r => eq_trans (length_map _ _) (length_seq _ _)) Eloop)
    as (Hc & Hl & Hf & Hn).
  destruct (py_last table) as [top|] eqn:Etop; [|discriminate].
  cbn [bind] in H. injection H as <-.
  assert (Htop : (Fixed.n_pts top <= current_idx st)%nat).
  { rewrite Hc. apply list_sum_in_le. apply in_map. now apply py_last_in. }
  unfold well_indexed, append_faces. cbn [vertices faces].
  rewrite !length_app, length_map, length_seq. cbn [length].
  rewrite Hl, Hn, (py_last_last table top Fixed.n_pts Etop).
  split; [lia|]. split; [lia|].
  apply faces_below_app. split.
  + eapply faces_below_mono; [|exact Hf]. lia.
  + apply faces_below_map_seq. intros j Hj.
    assert ((j + 1) mod Fixed.n_pts top < Fixed.n_pts top)%nat
      by (apply Nat.mod_upper_bound; lia).
    apply face_below_intro; lia.
Qed.

Lemma torso_assemble_returns (table : list Fixed.torso_row) (height : R) :
  table <> [] -> Forall (fun r => (0 < Fixed.n_pts r)%nat) table ->
  exists m, Fixed.assemble table height = Ok m.
Proof.
  intros Hne Hpos. unfold Fixed.assemble.
  destruct (fixed_ring_loop_returns Fixed.n_pts
              (fun r => map (Fixed.ring_point r height)
                            (seq 0 (Fixed.n_pts r))) table Hpos) as [st E].
  rewrite (for_each_ext _ _ _ _ (torso_ring_step_shape table height)).
  rewrite E. cbn [bind].
  destruct (py_last_ok table Hne) as [top ->]. cbn [bind]. now eexists.
Qed.

(** X2: whenever the torso assembler returns, its mesh has one vertex per
    ring point plus the apex centre, two faces per stitching step (the
    larger of the two ring sizes for every pair of adjacent rings) plus
    one fan face per point of the last ring, and every face index is
    below the vertex count.  It returns on every non-empty table whose
    rings all have at least one point, in particular on the table of
    [create_torso_mesh]. *)
Theorem torso_mesh_counts (table : list Fixed.torso_row) (height : R) :
  (forall m, Fixed.assemble table height = Ok m ->
     length (vertices m) = (list_sum (map Fixed.n_pts table) + 1)%nat /\
     length (faces m)
     = (2 * band_total (map Fixed.n_pts table)
        + last (map Fixed.n_pts table) 0)%nat /\
     well_indexed m) /\
  (table <> [] -> Forall (fun r => (0 < Fixed.n_pts r)%nat) table ->
   exists m, Fixed.assemble table height = Ok m) /\
  (exists m, Fixed.create_torso_mesh height = Ok m).
Proof.
  split; [|split].
  - intros m H. exact (torso_assemble_sound table height m H).
  - apply torso_assemble_returns.
  - apply torso_assemble_returns; [discriminate|].
    unfold Fixed.torso_profiles. repeat constructor.
Qed.

Lemma torso_mesh_counts_witness :
  exists m, Fixed.assemble [Fixed.trow 0.50 0.16 0.10 4;
                            Fixed.trow 1.085 0.02 0.03 3] 1.75 = Ok m.
Proof.
  apply (proj1 (proj2 (torso_mesh_counts
           [Fixed.trow 0.50 0.16 0.10 4; Fixed.trow 1.085 0.02 0.03 3] 1.75))).
  - discriminate.
  - repeat constructor.
Defined.

Lemma leg_assemble_sound (table : list Fixed.leg_row) (height : R)
        (side : string) (m : mesh) :
  Fixed.assemble_leg table height side = Ok m ->
     length (vertices m) = (list_sum (map Fixed.leg_n_pts table) + 1)%nat /\
     length (faces m)
     = (2 * band_total (map Fixed.leg_n_pts table)
        + hd 0%nat (map Fixed.leg_n_pts table))%nat /\
     well_indexed m.
Proof.
  intros H. unfold Fixed.assemble_leg in H.
  rewrite (for_each_ext _ _ _ _ (leg_ring_step_shape table height side))
    in H.
  match type of H with
  | bind ?loop _ = _ => destruct loop as [st|] eqn:Eloop; [|discriminate]
  end.
  cbn [bind] in H.
  destruct (fixed_ring_loop_facts _ _ table st
              (fun r => eq_trans (length_map _ _) (length_seq _ _)) Eloop)
    as (Hc & Hl & Hf & Hn).
  destruct (py_index table 0) as [bottom|] eqn:Ebot; [|discriminate].
  cbn [bind] in H. injection H as <-.
  assert (Hbot : (Fixed.leg_n_pts bottom <= current_idx st)%nat).
  { rewrite Hc. apply list_sum_in_le. apply in_map.
    eapply py_index_in; exact Ebot. }
  unfold well_indexed, append_faces. cbn [vertices faces].
  rewrite !length_app, length_map, length_seq. cbn [length].
  rewrite Hl, Hn, (py_index_0_hd table bottom Fixed.leg_n_pts Ebot).
  split; [lia|]. split; [lia|].
  apply faces_below_app. split.
  + eapply faces_below_mono; [|exact Hf]. lia.
  + apply faces_below_map_seq. intros j Hj.
    assert ((j + 1) mod Fixed.leg_n_pts bottom < Fixed.leg_n_pts bottom)%nat
      by (apply Nat.mod_upper_bound; lia).
    apply face_below_intro; lia.
Qed.

Lemma leg_assemble_returns (table : list Fixed.leg_row) (height : R)
        (side : string) :
  table <> [] -> Forall (fun r => (0 < Fixed.leg_n_pts r)%nat) table ->
  exists m, Fixed.assemble_leg table height side = Ok m.
Proof.
  intros Hne Hpos. unfold Fixed.assemble_leg.
  destruct (fixed_ring_loop_returns Fixed.leg_n_pts
              (fun r => map (Fixed.leg_point r height side)
                            (seq 0 (Fixed.leg_n_pts r))) table Hpos) as [st E].
  rewrite (for_each_ext _ _ _ _ (leg_ring_step_shape table height side)).
  rewrite E. cbn [bind].
  destruct table as [|r0 table]; [contradiction|].
  cbn [py_index nth_error bind]. now eexists.
Qed.

(** X3: whenever the leg assembler returns, its mesh has one vertex per
    ring point plus the sole centre, two faces per stitching step plus one
    fan face per point of the first ring, and every face index is below
    the vertex count.  It returns on every non-empty table of non-empty
    rings, in particular on the table of [create_leg_mesh], for either
    side. *)
Theorem leg_mesh_counts (table : list Fixed.leg_row) (height : R)
        (side : string) :
  (forall m, Fixed.assemble_leg table height side = Ok m ->
     length (vertices m) = (list_sum (map Fixed.leg_n_pts table) + 1)%nat /\
     length (faces m)
     = (2 * band_total (map Fixed.leg_n_pts table)
        + hd 0%nat (map Fixed.leg_n_pts table))%nat /\
     well_indexed m) /\
  (table <> [] -> Forall (fun r => (0 < Fixed.leg_n_pts r)%nat) table ->
   exists m, Fixed.assemble_leg table height side = Ok m) /\
  (exists m, Fixed.create_leg_mesh height side = Ok m).
Proof.
  split; [|split].
  - intros m H. exact (leg_assemble_sound table height side m H).
  - apply leg_assemble_returns.
  - apply leg_assemble_returns; [discriminate|].
    unfold Fixed.leg_profiles. repeat constructor.
Qed.

Lemma leg_mesh_counts_witness :
  exists m, Fixed.assemble_leg [Fixed.legrow 0.00 0.08 0.22 4;
                                Fixed.legrow 0.48 0.075 0.082 3] 1.75 "left"
            = Ok m.
Proof.
  apply (proj1 (proj2 (leg_mesh_counts
           [Fixed.legrow 0.00 0.08 0.22 4; Fixed.legrow 0.48 0.075 0.082 3]
           1.75 "left"))).
  - discriminate.
  - repeat constructor.
Defined.

Lemma arm_assemble_sound (table : list Fixed.arm_row) (height : R)
        (side : string) (m : mesh) :
  Fixed.assemble_arm table height side = Ok m ->
     length (vertices m) = (list_sum (map Fixed.arm_n_pts table) + 1)%nat /\
     length (faces m)
     = (2 * band_total (map Fixed.arm_n_pts table)
        + last (map Fixed.arm_n_pts table) 0)%nat /\
     well_indexed m.
Proof.
  intros H. unfold Fixed.assemble_arm in H.
  rewrite (for_each_ext _ _ _ _ (arm_ring_step_shape table height side))
    in H.
  match type of H with
  | bind ?loop _ = _ => destruct loop as [st|] eqn:Eloop; [|discriminate]
  end.
  cbn [bind] in H.
  destruct (fixed_ring_loop_facts _ _ table st
              (fun r => eq_trans (length_map _ _) (length_seq _ _)) Eloop)
    as (Hc & Hl & Hf & Hn).
  destruct (py_last table) as [top|] eqn:Etop; [|discriminate].
  cbn [bind] in H. injection H as <-.
  assert (Htop : (Fixed.arm_n_pts top <= current_idx st)%nat).
  { rewrite Hc. apply list_sum_in_le. apply in_map. now apply py_last_in. }
  unfold well_indexed, append_faces. cbn [vertices faces].
  rewrite !length_app, length_map, length_seq. cbn [length].
  rewrite Hl, Hn, (py_last_last table top Fixed.arm_n_pts Etop).
  split; [lia|]. split; [lia|].
  apply faces_below_app. split.
  + eapply faces_below_mono; [|exact Hf]. lia.
  + apply faces_below_map_seq. intros j Hj.
    assert ((j + 1) mod Fixed.arm_n_pts top < Fixed.arm_n_pts top)%nat
      by (apply Nat.mod_upper_bound; lia).
    apply face_below_intro; lia.
Qed.

Lemma arm_assemble_returns (table : list Fixed.arm_row) (height : R)
        (side : string) :
  table <> [] -> Forall (fun r => (0 < Fixed.arm_n_pts r)%nat) table ->
  exists m, Fixed.assemble_arm table height side = Ok m.
Proof.
  intros Hne Hpos. unfold Fixed.assemble_arm.
  destruct (fixed_ring_loop_returns Fixed.arm_n_pts
              (fun r => map (Fixed.arm_point r height side)
                            (seq 0 (Fixed.arm_n_pts r))) table Hpos) as [st E].
  rewrite (for_each_ext _ _ _ _ (arm_ring_step_shape table height side)).
  rewrite E. cbn [bind].
  destruct (py_last_ok table Hne) as [top ->]. cbn [bind]. now eexists.
Qed.

(** X4: whenever the arm assembler returns, its mesh has one vertex per
    ring point plus the hand centre, two faces per stitching step plus one
    fan face per point of the last ring, and every face index is below
    the vertex count.  It returns on every non-empty table of non-empty
    rings, in particular on the table of [create_arm_mesh], for either
    side. *)
Theorem arm_mesh_counts (table : list Fixed.arm_row) (height : R)
        (side : string) :
  (forall m, Fixed.assemble_arm table height side = Ok m ->
     length (vertices m) = (list_sum (map Fixed.arm_n_pts table) + 1)%nat /\
     length (faces m)
     = (2 * band_total (map Fixed.arm_n_pts table)
        + last (map Fixed.arm_n_pts table) 0)%nat /\
     well_indexed m) /\
  (table <> [] -> Forall (fun r => (0 < Fixed.arm_n_pts r)%nat) table ->
   exists m, Fixed.assemble_arm table height side = Ok m) /\
  (exists m, Fixed.create_arm_mesh height side = Ok m).
Proof.
  split; [|split].
  - intros m H. exact (arm_assemble_sound table height side m H).
  - apply arm_assemble_returns.
  - apply arm_assemble_returns; [discriminate|].
    unfold Fixed.arm_profiles. repeat constructor.
Qed.

Lemma arm_mesh_counts_witness :
  exists m, Fixed.assemble_arm [Fixed.armrow 0.22 0.88 0.04 4;
                                Fixed.armrow 0.36 0.48 0.028 3] 1.75 "left"
            = Ok m.
Proof.
  apply (proj1 (proj2 (arm_mesh_counts
           [Fixed.armrow 0.22 0.88 0.04 4; Fixed.armrow 0.36 0.48 0.028 3]
           1.75 "left"))).
  - discriminate.
  - repeat constructor.
Defined.

(** ** Merging parts *)

Lemma merge_fold (ms : list mesh) :
  forall (av : list vec3) (af : list face) (off : nat),
    fold_left Fixed.merge_step ms (av, af, off)
    = (av ++ concat (map vertices ms),
       af ++ offset_parts off ms,
       (off + length (concat (map vertices ms)))%nat).
Proof.
  induction ms as [|m ms IH]; intros av af off; cbn.
  - now rewrite !app_nil_r, Nat.add_0_r.
  - rewrite IH, <- !app_assoc, length_app, Nat.add_assoc. reflexivity.
Qed.

Lemma merge_meshes_eq (ms : list mesh) :
  Fixed.merge_meshes ms
  = Mesh (concat (map vertices ms)) (offset_parts 0 ms).
Proof.
  unfold Fixed.merge_meshes. now rewrite merge_fold.
Qed.

Lemma offset_parts_length (ms : list mesh) (off : nat) :
  length (offset_parts off ms)
  = list_sum (map (fun m => length (faces m)) ms).
Proof.
  revert off. induction ms as [|m ms IH]; intros off; [reflexivity|].
  cbn [offset_parts map]. unfold list_sum in *. cbn [fold_right].
  now rewrite length_app, length_map, IH.
Qed.

Lemma offset_face_below (k off : nat) (f : face) :
  face_below k f = true -> face_below (off + k) (Fixed.offset_face off f) = true.
Proof.
  intros H. apply face_below_elim in H. destruct f as [[a b] c].
  cbn in H. unfold Fixed.offset_face. cbn [fst snd].
  apply face_below_intro; lia.
Qed.

Lemma offset_parts_below (ms : list mesh) :
  Forall well_indexed ms ->
  forall off,
    faces_below (off + length (concat (map vertices ms)))
                (offset_parts off ms).
Proof.
  induction 1 as [|m ms Hm _ IH]; intros off; [constructor|].
  cbn [offset_parts map concat]. rewrite length_app.
  apply faces_below_app. split.
  - apply faces_below_mono with (k := (off + length (vertices m))%nat);
      [lia|].
    unfold faces_below. apply Forall_forall. intros f Hf.
    apply in_map_iff in Hf. destruct Hf as [g [<- Hg]].
    apply offset_face_below.
    unfold well_indexed, faces_below in Hm. rewrite Forall_forall in Hm.
    now apply Hm.
  - specialize (IH (off + length (vertices m))%nat).
    now rewrite <- Nat.add_assoc in IH.
Qed.

Lemma offset_parts_in (ms : list mesh) :
  forall off k m f,
    nth_error ms k = Some m -> In f (faces m) ->
    In (Fixed.offset_face
          (off + length (concat (map vertices (firstn k ms)))) f)
       (offset_parts off ms).
Proof.
  induction ms as [|m0 ms IH]; intros off k m f Hk Hf.
  - destruct k; discriminate.
  - destruct k as [|k]; cbn in Hk.
    + injection Hk as ->. cbn [firstn map concat length offset_parts].
      rewrite Nat.add_0_r. apply in_or_app. left. now apply in_map.
    + cbn [firstn map concat offset_parts]. rewrite length_app.
      apply in_or_app. right. rewrite Nat.add_assoc.
      exact (IH _ k m f Hk Hf).
Qed.

Lemma concat_part_nth {A : Type} (ls : list (list A)) (k a : nat)
      (l : list A) :
  nth_error ls k = Some l -> (a < length l)%nat ->
  nth_error (concat ls) (a + length (concat (firstn k ls))) = nth_error l a.
Proof.
  revert k. induction ls as [|l0 ls IH]; intros k Hk Ha.
  - destruct k; discriminate.
  - destruct k as [|k]; cbn in Hk.
    + injection Hk as ->. cbn [firstn concat length].
      rewrite Nat.add_0_r. now apply nth_error_app1.
    + cbn [firstn concat]. rewrite length_app.
      rewrite nth_error_app2 by lia.
      replace (a + (length l0 + length (concat (firstn k ls))) - length l0)%nat
        with (a + length (concat (firstn k ls)))%nat by lia.
      now apply IH.
Qed.

(** X5: [merge_meshes] lays the vertex lists of the parts end to end and
    shifts the faces of every part by the number of vertices before it:
    every face of a part occurs in the result shifted by that offset, the
    shifted indices denote the same vertices, the face count is the sum of
    the parts' face counts, and when every part is well indexed so is the
    result. *)
Theorem merge_meshes_keeps_parts (ms : list mesh) :
  vertices (Fixed.merge_meshes ms) = concat (map vertices ms) /\
  length (faces (Fixed.merge_meshes ms))
  = list_sum (map (fun m => length (faces m)) ms) /\
  (Forall well_indexed ms -> well_indexed (Fixed.merge_meshes ms)) /\
  (forall k m, nth_error ms k = Some m ->
     let off := length (concat (map vertices (firstn k ms))) in
     (forall f, In f (faces m) ->
                In (Fixed.offset_face off f) (faces (Fixed.merge_meshes ms))) /\
     (forall a, (a < length (vertices m))%nat ->
                nth_error (vertices (Fixed.merge_meshes ms)) (a + off)
                = nth_error (vertices m) a)).
Proof.
  rewrite merge_meshes_eq. cbn [vertices faces].
  split; [reflexivity|]. split; [apply offset_parts_length|]. split.
  - intros Hall. unfold well_indexed. cbn [vertices faces].
    exact (offset_parts_below ms Hall 0).
  - intros k m Hk. cbv zeta. split.
    + intros f Hf. exact (offset_parts_in ms 0 k m f Hk Hf).
    + intros a Ha. rewrite <- firstn_map.
      apply concat_part_nth; [|exact Ha].
      now rewrite (map_nth_error vertices k ms Hk).
Qed.

Lemma merge_meshes_keeps_parts_witness :
  well_indexed
    (Fixed.merge_meshes
       [Mesh [(0, 0, 0); (1, 0, 0); (0, 1, 0)] [(0, 1, 2)%nat];
        Mesh [(0, 0, 1); (1, 0, 1); (0, 1, 1)] [(2, 1, 0)%nat]]).
Proof.
  apply (proj1 (proj2 (proj2 (merge_meshes_keeps_parts
           [Mesh [(0, 0, 0); (1, 0, 0); (0, 1, 0)] [(0, 1, 2)%nat];
            Mesh [(0, 0, 1); (1, 0, 1); (0, 1, 1)] [(2, 1, 0)%nat]])))).
  repeat constructor.
Defined.

(** ** The parts that [main] of [create_fixed_avatar.py] merges *)

Lemma crotch_bridge_facts (height : R) :
  length (vertices (Fixed.create_crotch_bridge height)) = 24%nat /\
  length (faces (Fixed.create_crotch_bridge height)) = 22%nat /\
  well_indexed (Fixed.create_crotch_bridge height).
Proof.
  split; [reflexivity|]. split; [reflexivity|].
  unfold well_indexed, faces_below. cbn [vertices faces Fixed.create_crotch_bridge].
  repeat constructor.
Qed.

(** X6: for every height, the six parts of [main] are all built, and their
    merge is a well-indexed mesh of 3457 vertices and 6790 faces (torso
    1705 and 3396, each leg 621 and 1216, each arm 243 and 470, the bridge
    24 and 22). *)
Theorem main_parts_well_indexed (HEIGHT : R) :
  exists m,
    Fixed.main_parts HEIGHT = Ok m /\
    length (vertices m) = 3457%nat /\
    length (faces m) = 6790%nat /\
    well_indexed m.
Proof.
  unfold Fixed.main_parts, Fixed.create_torso_mesh, Fixed.create_leg_mesh,
    Fixed.create_arm_mesh.
  destruct (torso_assemble_returns Fixed.torso_profiles HEIGHT)
    as (torso & Et);
    [discriminate | unfold Fixed.torso_profiles; repeat constructor |].
  destruct (leg_assemble_returns Fixed.leg_profiles HEIGHT "left")
    as (leg_l & Ell);
    [discriminate | unfold Fixed.leg_profiles; repeat constructor |].
  destruct (leg_assemble_returns Fixed.leg_profiles HEIGHT "right")
    as (leg_r & Elr);
    [discriminate | unfold Fixed.leg_profiles; repeat constructor |].
  destruct (arm_assemble_returns Fixed.arm_profiles HEIGHT "left")
    as (arm_l & Eal);
    [discriminate | unfold Fixed.arm_profiles; repeat constructor |].
  destruct (arm_assemble_returns Fixed.arm_profiles HEIGHT "right")
    as (arm_r & Ear);
    [discriminate | unfold Fixed.arm_profiles; repeat constructor |].
  rewrite Et, Ell, Elr, Eal, Ear. cbn [bind].
  destruct (torso_assemble_sound _ _ torso Et) as (Vt & Ft & Wt).
  destruct (leg_assemble_sound _ _ _ leg_l Ell) as (Vll & Fll & Wll).
  destruct (leg_assemble_sound _ _ _ leg_r Elr) as (Vlr & Flr & Wlr).
  destruct (arm_assemble_sound _ _ _ arm_l Eal) as (Val & Fal & Wal).
  destruct (arm_assemble_sound _ _ _ arm_r Ear) as (Var & Far & War).
  destruct (crotch_bridge_facts HEIGHT) as (Vc & Fc & Wc).
  eexists. split; [reflexivity|].
  rewrite merge_meshes_eq. unfold well_indexed. cbn [vertices faces].
  rewrite offset_parts_length. cbn [map concat list_sum fold_right].
  rewrite ?app_nil_r, !length_app.
  rewrite Vt, Vll, Vlr, Val, Var, Vc, Ft, Fll, Flr, Fal, Far, Fc.
  split; [reflexivity|]. split; [reflexivity|].
  pose proof (offset_parts_below
                [torso; leg_l; leg_r; arm_l; arm_r;
                 Fixed.create_crotch_bridge HEIGHT]) as Hw.
  cbn [map concat] in Hw. rewrite ?app_nil_r, !length_app in Hw.
  rewrite Vt, Vll, Vlr, Val, Var, Vc in Hw.
  apply (Hw (Forall_cons _ Wt (Forall_cons _ Wll (Forall_cons _ Wlr
           (Forall_cons _ Wal (Forall_cons _ War
              (Forall_cons _ Wc (Forall_nil _)))))))
            0%nat).
Qed.

(** ** Arms of [create_ultra_detailed_avatar.py] *)

Lemma face_within_intro (lo hi a b c : nat) :
  (lo <= a < hi)%nat -> (lo <= b < hi)%nat -> (lo <= c < hi)%nat ->
  face_within lo hi (a, b, c) = true.
Proof.
  intros Ha Hb Hc. unfold face_within, index_within. cbn [fst snd].
  rewrite !(proj2 (Nat.leb_le _ _)), !(proj2 (Nat.ltb_lt _ _)) by lia.
  reflexivity.
Qed.

Lemma face_within_elim (lo hi : nat) (f : face) :
  face_within lo hi f = true ->
  (lo <= fst (fst f) < hi)%nat /\ (lo <= snd (fst f) < hi)%nat /\
  (lo <= snd f < hi)%nat.
Proof.
  unfold face_within, index_within. intros H.
  apply andb_prop in H. destruct H as [H H3].
  apply andb_prop in H. destruct H as [H1 H2].
  apply andb_prop in H1, H2, H3.
  destruct H1 as [A1 B1], H2 as [A2 B2], H3 as [A3 B3].
  apply Nat.leb_le in A1, A2, A3. apply Nat.ltb_lt in B1, B2, B3.
  lia.
Qed.

Lemma faces_within_mono (lo hi lo' hi' : nat) (fs : list face) :
  (lo' <= lo)%nat -> (hi <= hi')%nat ->
  faces_within lo hi fs -> faces_within lo' hi' fs.
Proof.
  intros Hlo Hhi H. unfold faces_within in *.
  eapply Forall_impl; [|exact H].
  intros [[a b] c] Hf. apply face_within_elim in Hf. cbn in Hf.
  apply face_within_intro; lia.
Qed.

Lemma faces_within_below (lo hi : nat) (fs : list face) :
  faces_within lo hi fs -> faces_below hi fs.
Proof.
  intros H. unfold faces_within, faces_below in *.
  eapply Forall_impl; [|exact H].
  intros [[a b] c] Hf. apply face_within_elim in Hf. cbn in Hf.
  apply face_below_intro; lia.
Qed.

Lemma arm_stitch_step_sound (pn cn ps cs j : nat) (fs fs' : list face) :
  (ps + pn <= cs)%nat ->
  Ultra.arm_stitch_step pn cn ps cs j fs = Ok fs' ->
  exists new, fs' = fs ++ new /\ faces_within ps (cs + cn) new.
Proof.
  intros Hle H. unfold Ultra.arm_stitch_step in H.
  destruct (py_floordiv (j * pn) (Nat.max pn cn)) as [pq|]; [|discriminate].
  cbn [bind] in H.
  destruct (py_mod pq pn) as [pr|] eqn:E1; [|discriminate]. cbn [bind] in H.
  destruct (py_floordiv (j * cn) (Nat.max pn cn)) as [cq|]; [|discriminate].
  cbn [bind] in H.
  destruct (py_mod cq cn) as [cr|] eqn:E2; [|discriminate]. cbn [bind] in H.
  destruct (py_floordiv ((j + 1) * pn) (Nat.max pn cn)) as [npq|];
    [|discriminate].
  cbn [bind] in H.
  destruct (py_mod npq pn) as [npr|] eqn:E3; [|discriminate]. cbn [bind] in H.
  destruct (py_floordiv ((j + 1) * cn) (Nat.max pn cn)) as [ncq|];
    [|discriminate].
  cbn [bind] in H.
  destruct (py_mod ncq cn) as [ncr|] eqn:E4; [|discriminate]. cbn [bind] in H.
  apply py_mod_ok in E1, E2, E3, E4.
  destruct E1 as (_ & E1 & _), E2 as (_ & E2 & _), E3 as (_ & E3 & _),
           E4 as (_ & E4 & _).
  assert (F1 : face_within ps (cs + cn)
                 ((ps + pr)%nat, (cs + cr)%nat, (cs + ncr)%nat) = true)
    by (apply face_within_intro; lia).
  assert (F2 : face_within ps (cs + cn)
                 ((ps + pr)%nat, (cs + ncr)%nat, (ps + npr)%nat) = true)
    by (apply face_within_intro; lia).
  destruct (negb (Nat.eqb (ps + pr) (ps + npr))); injection H as <-.
  - exists [((ps + pr)%nat, (cs + cr)%nat, (cs + ncr)%nat);
            ((ps + pr)%nat, (cs + ncr)%nat, (ps + npr)%nat)].
    split; [now rewrite <- app_assoc|]. now repeat constructor.
  - exists [((ps + pr)%nat, (cs + cr)%nat, (cs + ncr)%nat)].
    split; [reflexivity|]. now repeat constructor.
Qed.

Lemma arm_stitch_loop_sound (pn cn ps cs : nat) (js : list nat) :
  (ps + pn <= cs)%nat ->
  forall fs fs',
    for_each js (Ultra.arm_stitch_step pn cn ps cs) fs = Ok fs' ->
    exists new, fs' = fs ++ new /\ faces_within ps (cs + cn) new.
Proof.
  intros Hle. induction js as [|j js IH]; intros fs fs' H; cbn in H.
  - injection H as <-. exists []. split; [now rewrite app_nil_r|constructor].
  - destruct (Ultra.arm_stitch_step pn cn ps cs j fs) as [fs1|] eqn:E;
      [|discriminate].
    cbn [bind] in H.
    destruct (arm_stitch_step_sound _ _ _ _ _ _ _ Hle E) as (n1 & -> & H1).
    destruct (IH _ _ H) as (n2 & -> & H2).
    exists (n1 ++ n2). split; [now rewrite app_assoc|].
    apply Forall_app. now split.
Qed.

Lemma arm_stitch_loop_total (pn cn ps cs : nat) (js : list nat)
      (fs : list face) :
  (0 < pn)%nat -> (0 < cn)%nat ->
  exists fs', for_each js (Ultra.arm_stitch_step pn cn ps cs) fs = Ok fs'.
Proof.
  intros Hp Hc.
  destruct (for_each_total js (Ultra.arm_stitch_step pn cn ps cs)
                           (fun _ => True)) with (st := fs)
    as (fs' & E & _); [|exact I|now exists fs'].
  intros j s _ _. unfold Ultra.arm_stitch_step.
  rewrite !py_floordiv_pos by lia. cbn [bind].
  rewrite !py_mod_pos by lia. cbn [bind].
  destruct (negb _); now eexists.
Qed.

Lemma seg_total_snoc (segs : list Ultra.arm_segment) (i : nat)
      (s : Ultra.arm_segment) :
  nth_error segs i = Some s ->
  Ultra.seg_total (firstn (S i) segs)
  = (Ultra.seg_total (firstn i segs) + Ultra.seg_n s)%nat.
Proof.
  intros H. unfold Ultra.seg_total.
  rewrite (firstn_snoc segs i s H), map_app, list_sum_app. cbn. lia.
Qed.

Lemma arm_ring_loop_sound (segs : list Ultra.arm_segment) (height side : R)
      (v0 : list vec3) (f0 : list face) (st : list vec3 * list face) :
  for_each (enumerate segs)
           (Ultra.arm_ring_step segs height side (length v0)) (v0, f0)
  = Ok st ->
  exists nv nf,
    st = (v0 ++ nv, f0 ++ nf) /\
    length nv = Ultra.seg_total segs /\
    faces_within (length v0) (length v0 + Ultra.seg_total segs) nf.
Proof.
  intros H.
  pose (Inv := fun (i : nat) (s : list vec3 * list face) =>
                 exists nv nf,
                   s = (v0 ++ nv, f0 ++ nf) /\
                   length nv = Ultra.seg_total (firstn i segs) /\
                   faces_within (length v0)
                     (length v0 + Ultra.seg_total (firstn i segs)) nf).
  assert (HI : Inv (length segs) st).
  { apply (for_each_enumerate_preserves segs
             (Ultra.arm_ring_step segs height side (length v0)) Inv)
      with (st0 := (v0, f0)); [| |exact H].
    2:{ exists [], []. rewrite !app_nil_r. repeat split. constructor. }
    clear st H. intros i s st st' Hi (nv & nf & -> & Hl & Hf) Hstep.
    unfold Ultra.arm_ring_step in Hstep.
    pose proof (seg_total_snoc segs i s Hi) as Hsum.
    destruct (Nat.ltb 0 i) eqn:Ei.
    - apply Nat.ltb_lt in Ei. unfold py_index in Hstep.
      destruct (nth_error segs (i - 1)) as [prev|] eqn:Ep; [|discriminate].
      cbn [bind] in Hstep.
      destruct (for_each _ _ (f0 ++ nf)) as [fs'|] eqn:Es; [|discriminate].
      cbn [bind] in Hstep. injection Hstep as <-.
      assert (Hprev : Ultra.seg_total (firstn i segs)
                      = (Ultra.seg_total (firstn (i - 1) segs)
                         + Ultra.seg_n prev)%nat).
      { replace i with (S (i - 1)) at 1 by lia.
        now apply seg_total_snoc. }
      apply arm_stitch_loop_sound in Es; [|lia].
      destruct Es as (new & -> & Hnew).
      exists (nv ++ map (Ultra.arm_point s height side)
                        (seq 0 (Ultra.seg_n s))), (nf ++ new).
      rewrite <- !app_assoc. split; [reflexivity|].
      split; [rewrite length_app, length_map, length_seq; lia|].
      apply Forall_app. split.
      + eapply faces_within_mono; [| |exact Hf]; lia.
      + eapply faces_within_mono; [| |exact Hnew]; lia.
    - cbn [bind] in Hstep. injection Hstep as <-.
      exists (nv ++ map (Ultra.arm_point s height side)
                        (seq 0 (Ultra.seg_n s))), nf.
      rewrite <- !app_assoc. split; [reflexivity|].
      split; [rewrite length_app, length_map, length_seq; lia|].
      eapply faces_within_mono; [| |exact Hf]; lia. }
  unfold Inv in HI. now rewrite firstn_all in HI.
Qed.

Lemma arm_ring_loop_total (segs : list Ultra.arm_segment) (height side : R)
      (base : nat) (st0 : list vec3 * list face) :
  Forall (fun s => (0 < Ultra.seg_n s)%nat) segs ->
  exists st,
    for_each (enumerate segs) (Ultra.arm_ring_step segs height side base) st0
    = Ok st.
Proof.
  intros Hpos.
  destruct (for_each_enumerate_total segs
              (Ultra.arm_ring_step segs height side base) (fun _ _ => True))
    with (st0 := st0) as (st & E & _); [|exact I|now exists st].
  intros i s [av af] Hi _. unfold Ultra.arm_ring_step.
  destruct (Nat.ltb 0 i) eqn:Ei; [|cbn [bind]; now eexists].
  apply Nat.ltb_lt in Ei.
  assert (Hlt : (i - 1 < length segs)%nat).
  { assert (i < length segs)%nat by (apply nth_error_Some; now rewrite Hi).
    lia. }
  destruct (nth_error segs (i - 1)) as [prev|] eqn:Ep;
    [|apply nth_error_None in Ep; lia].
  unfold py_index. rewrite Ep. cbn [bind].
  rewrite Forall_forall in Hpos.
  match goal with
  | |- context [for_each ?js (Ultra.arm_stitch_step ?pn ?cn ?ps ?cs) ?fs] =>
      destruct (arm_stitch_loop_total pn cn ps cs js fs) as [fs' Es]
  end.
  { apply Hpos. eapply nth_error_In; exact Ep. }
  { apply Hpos. eapply nth_error_In; exact Hi. }
  rewrite Es. cbn [bind]. now eexists.
Qed.

Lemma py_last_removelast {A : Type} (xs : list A) (x : A) :
  py_last xs = Ok x -> xs = removelast xs ++ [x].
Proof.
  unfold py_last. intros H.
  destruct (rev xs) as [|y ys] eqn:E; [discriminate|]. injection H as ->.
  apply (f_equal (@rev A)) in E. rewrite rev_involutive in E. subst xs.
  cbn [rev]. now rewrite removelast_last.
Qed.

Lemma add_arm_side_sound (segs : list Ultra.arm_segment) (height side : R)
      (v0 : list vec3) (f0 : list face) (st : list vec3 * list face) :
  Ultra.add_arm_side segs height side (v0, f0) = Ok st ->
  exists nv nf,
    st = (v0 ++ nv, f0 ++ nf) /\
    length nv = (Ultra.seg_total segs + 1)%nat /\
    faces_within (length v0) (length v0 + (Ultra.seg_total segs + 1)) nf.
Proof.
  intros H. unfold Ultra.add_arm_side in H. cbn [fst] in H.
  destruct (for_each (enumerate segs)
              (Ultra.arm_ring_step segs height side (length v0)) (v0, f0))
    as [st1|] eqn:Eloop; [|discriminate].
  cbn [bind] in H.
  destruct (arm_ring_loop_sound _ _ _ _ _ _ Eloop) as (nv & nf & -> & Hl & Hf).
  destruct (py_last segs) as [lst|] eqn:El; [|discriminate].
  cbn [bind] in H. injection H as <-.
  pose proof (py_last_removelast segs lst El) as Hsplit.
  assert (Htot : Ultra.seg_total segs
                 = (Ultra.seg_total (removelast segs) + Ultra.seg_n lst)%nat).
  { rewrite Hsplit at 1. unfold Ultra.seg_total.
    rewrite map_app, list_sum_app. cbn. lia. }
  unfold append_faces.
  eexists. eexists. rewrite <- !app_assoc. split; [reflexivity|].
  split; [rewrite length_app; cbn [length]; lia|].
  apply Forall_app. split.
  - eapply faces_within_mono; [| |exact Hf]; lia.
  - apply Forall_forall. intros f Hin.
    apply in_map_iff in Hin. destruct Hin as [j [<- Hj]].
    apply in_seq in Hj.
    assert ((j + 1) mod Ultra.seg_n lst < Ultra.seg_n lst)%nat
      by (apply Nat.mod_upper_bound; lia).
    rewrite length_app, Hl.
    apply face_within_intro; lia.
Qed.

Lemma add_arms_sound (segs : list Ultra.arm_segment) (verts : list vec3)
      (fcs : list face) (height : R) (m : mesh) :
  Ultra.add_arms_with segs verts fcs height = Ok m ->
  exists nv nf,
    vertices m = verts ++ nv /\ faces m = fcs ++ nf /\
    length nv = (2 * (Ultra.seg_total segs + 1))%nat /\
    faces_within (length verts) (length (vertices m)) nf.
Proof.
  intros H. unfold Ultra.add_arms_with in H. cbn [for_each] in H.
  destruct (Ultra.add_arm_side segs height (-1) (verts, fcs)) as [st1|] eqn:E1;
    [|discriminate].
  cbn [bind] in H.
  destruct (add_arm_side_sound _ _ _ _ _ _ E1) as (nv1 & nf1 & -> & L1 & F1).
  destruct (Ultra.add_arm_side segs height 1 (verts ++ nv1, fcs ++ nf1))
    as [st2|] eqn:E2; [|discriminate].
  cbn [bind] in H. injection H as <-.
  destruct (add_arm_side_sound _ _ _ _ _ _ E2) as (nv2 & nf2 & -> & L2 & F2).
  cbn [vertices faces fst snd].
  exists (nv1 ++ nv2), (nf1 ++ nf2). rewrite !app_assoc.
  split; [reflexivity|]. split; [reflexivity|].
  split; [rewrite length_app; lia|].
  rewrite length_app in F2. rewrite !length_app.
  apply Forall_app. split.
  - eapply faces_within_mono; [| |exact F1]; lia.
  - eapply faces_within_mono; [| |exact F2]; lia.
Qed.

Lemma add_arms_returns (segs : list Ultra.arm_segment) (verts : list vec3)
      (fcs : list face) (height : R) :
  segs <> [] -> Forall (fun s => (0 < Ultra.seg_n s)%nat) segs ->
  exists m, Ultra.add_arms_with segs verts fcs height = Ok m.
Proof.
  intros Hne Hpos.
  assert (Hside : forall side st,
             exists st', Ultra.add_arm_side segs height side st = Ok st').
  { intros side st. unfold Ultra.add_arm_side.
    destruct (arm_ring_loop_total segs height side (length (fst st)) st Hpos)
      as [[av af] ->].
    cbn [bind]. destruct (py_last_ok segs Hne) as [lst ->]. cbn [bind].
    now eexists. }
  unfold Ultra.add_arms_with. cbn [for_each].
  destruct (Hside (-1) (verts, fcs)) as [st1 ->]. cbn [bind].
  destruct (Hside 1 st1) as [st2 ->]. cbn [bind]. now eexists.
Qed.

(** X7: [add_arms] only appends: the given vertices and faces stay at the
    front, the two arms add one vertex per ring point plus a hand centre
    each, every new face refers to new vertices only, and a well-indexed
    body stays well indexed.  It returns on every non-empty table of
    non-empty rings, in particular on [arm_segments]. *)
Theorem add_arms_appends (segs : list Ultra.arm_segment) (verts : list vec3)
        (fcs : list face) (height : R) :
  (forall m, Ultra.add_arms_with segs verts fcs height = Ok m ->
     exists nv nf,
       vertices m = verts ++ nv /\ faces m = fcs ++ nf /\
       length nv = (2 * (Ultra.seg_total segs + 1))%nat /\
       faces_within (length verts) (length (vertices m)) nf /\
       (faces_below (length verts) fcs -> well_indexed m)) /\
  (segs <> [] -> Forall (fun s => (0 < Ultra.seg_n s)%nat) segs ->
   exists m, Ultra.add_arms_with segs verts fcs height = Ok m) /\
  (exists m, Ultra.add_arms verts fcs height = Ok m).
Proof.
  split; [|split].
  - intros m H.
    destruct (add_arms_sound _ _ _ _ _ H) as (nv & nf & Ev & Ef & Hl & Hw).
    exists nv, nf. repeat (split; [assumption|]).
    intros Hb. unfold well_indexed. rewrite Ef.
    apply faces_below_app. split.
    + eapply faces_below_mono; [|exact Hb]. rewrite Ev, length_app. lia.
    + eapply faces_within_below; exact Hw.
  - apply add_arms_returns.
  - apply add_arms_returns; [discriminate|].
    unfold Ultra.arm_segments. repeat constructor.
Qed.

Lemma add_arms_appends_witness :
  exists m,
    Ultra.add_arms_with [Ultra.sgrow 0.195 0.870 0.045 0.040 4;
                         Ultra.sgrow 0.283 0.450 0.020 0.010 3]
                        [(0, 0, 0); (1, 0, 0); (0, 1, 0)] [(0, 1, 2)%nat] 1.75
    = Ok m.
Proof.
  apply (proj1 (proj2 (add_arms_appends
           [Ultra.sgrow 0.195 0.870 0.045 0.040 4;
            Ultra.sgrow 0.283 0.450 0.020 0.010 3]
           [(0, 0, 0); (1, 0, 0); (0, 1, 0)] [(0, 1, 2)%nat] 1.75))).
  - discriminate.
  - repeat constructor.
Defined.

(** X8: for every height, the body followed by the arms, as [main] builds
    them, is a well-indexed mesh of 2084 vertices: the 1690 of the body
    come first, unchanged. *)
Theorem main_geometry_well_indexed (height : R) :
  exists body m,
    Ultra.create_detailed_human_body height = Ok body /\
    Ultra.main_geometry height = Ok m /\
    length (vertices body) = 1690%nat /\
    length (vertices m) = 2084%nat /\
    firstn 1690 (vertices m) = vertices body /\
    firstn (length (faces body)) (faces m) = faces body /\
    well_indexed m.
Proof.
  destruct (ultra_assemble_returns Ultra.anatomy height) as [body Eb];
    [discriminate | unfold Ultra.anatomy; repeat constructor |].
  destruct (ultra_assemble_sound _ _ _ Eb) as (Vb & Wb).
  destruct (add_arms_returns Ultra.arm_segments (vertices body) (faces body)
              height) as [m Em];
    [discriminate | unfold Ultra.arm_segments; repeat constructor |].
  destruct (add_arms_sound _ _ _ _ _ Em) as (nv & nf & Ev & Ef & Hl & Hw).
  exists body, m.
  split; [exact Eb|].
  split.
  { unfold Ultra.main_geometry, Ultra.create_detailed_human_body,
      Ultra.add_arms. rewrite Eb. cbn [bind]. exact Em. }
  assert (Vb' : length (vertices body) = 1690%nat) by (rewrite Vb; reflexivity).
  split; [exact Vb'|].
  split; [rewrite Ev, length_app, Vb', Hl; reflexivity|].
  split.
  { rewrite Ev, <- Vb'. rewrite firstn_app, Nat.sub_diag, firstn_all.
    cbn [firstn]. now rewrite app_nil_r. }
  split.
  { rewrite Ef. rewrite firstn_app, Nat.sub_diag, firstn_all.
    cbn [firstn]. now rewrite app_nil_r. }
  unfold well_indexed. rewrite Ef. apply faces_below_app. split.
  - eapply faces_below_mono; [|exact Wb]. rewrite Ev, length_app. lia.
  - eapply faces_within_below; exact Hw.
Qed.

(** ** Edge cases of the assemblers *)

Lemma py_floordiv_raises (a b : nat) (e : PyError) :
  py_floordiv a b = Raise e -> e = ZeroDivisionError.
Proof.
  unfold py_floordiv. destruct (Nat.eqb b 0); [|discriminate].
  intros H. now injection H as <-.
Qed.

Lemma py_mod_raises (a b : nat) (e : PyError) :
  py_mod a b = Raise e -> e = ZeroDivisionError.
Proof.
  unfold py_mod. destruct (Nat.eqb b 0); [|discriminate].
  intros H. now injection H as <-.
Qed.

(** Every exception of a loop is an exception of one of its iterations. *)
Lemma for_each_raises {A S : Type} (xs : list A)
      (body : A -> S -> result S) (P : PyError -> Prop) :
  (forall x st e, In x xs -> body x st = Raise e -> P e) ->
  forall st e, for_each xs body st = Raise e -> P e.
Proof.
  induction xs as [|x xs IH]; intros Hstep st e H; cbn in H; [discriminate|].
  destruct (body x st) as [st1|e1] eqn:E; cbn in H.
  - apply (IH (fun y s e' Hy => Hstep y s e' (or_intror Hy)) st1 e H).
  - injection H as <-. apply (Hstep x st e1); [now left | exact E].
Qed.

Lemma combine_seq_in {A : Type} (xs : list A) (s k : nat) (x : A) :
  In (k, x) (combine (seq s (length xs)) xs) ->
  (s <= k)%nat /\ nth_error xs (k - s) = Some x.
Proof.
  revert s. induction xs as [|y xs IH]; intros s H; [contradiction|].
  cbn in H. destruct H as [H|H].
  - injection H as <- <-. rewrite Nat.sub_diag. now split.
  - destruct (IH (S s) H) as [Hle Hn]. split; [lia|].
    replace (k - s)%nat with (S (k - S s)) by lia. exact Hn.
Qed.

Lemma enumerate_in {A : Type} (xs : list A) (k : nat) (x : A) :
  In (k, x) (enumerate xs) -> nth_error xs k = Some x.
Proof.
  intros H. apply combine_seq_in in H. destruct H as [_ H].
  now rewrite Nat.sub_0_r in H.
Qed.

Lemma combine_seq_nth {A : Type} (xs : list A) (s k : nat) (x : A) :
  nth_error xs k = Some x ->
  nth_error (combine (seq s (length xs)) xs) k = Some ((s + k)%nat, x).
Proof.
  revert s k. induction xs as [|y xs IH]; intros s k H.
  - destruct k; discriminate.
  - destruct k as [|k]; cbn in *.
    + injection H as ->. now rewrite Nat.add_0_r.
    + rewrite (IH (S s) k H). f_equal. f_equal. lia.
Qed.

(** A loop over [enumerate(xs)] whose iterations raise nothing but [e0]
    raises [e0] as soon as one iteration raises from every state. *)
Lemma enumerate_loop_raises {A St : Type} (xs : list A)
      (body : nat * A -> St -> result St) (k : nat) (x : A) (e0 : PyError) :
  nth_error xs k = Some x ->
  (forall i y st e, nth_error xs i = Some y ->
                    body (i, y) st = Raise e -> e = e0) ->
  (forall st, body (k, x) st = Raise e0) ->
  forall st, for_each (enumerate xs) body st = Raise e0.
Proof.
  intros Hk Hkind Hbad st.
  pose proof (combine_seq_nth xs 0 k x Hk) as Hn. cbn [Nat.add] in Hn.
  destruct (nth_error_split _ _ Hn) as (l1 & l2 & Hsplit & _).
  assert (Hin : forall iy, In iy l1 -> In iy (enumerate xs)).
  { intros iy H. unfold enumerate. rewrite Hsplit. apply in_or_app. now left. }
  unfold enumerate. rewrite Hsplit, for_each_app.
  destruct (for_each l1 body st) as [st1|e] eqn:E; cbn [bind].
  - cbn [for_each]. now rewrite Hbad.
  - f_equal.
    apply (for_each_raises l1 body (fun e => e = e0)) with (st := st);
      [|exact E].
    intros [i y] s e' Hiy He. apply (Hkind i y s e'); [|exact He].
    apply enumerate_in. now apply Hin.
Qed.

(** The stitching loops raise nothing but [ZeroDivisionError]. *)
Lemma ultra_stitch_step_raises (pn cn ps cs j : nat) (fs : list face)
      (e : PyError) :
  Ultra.stitch_step pn cn ps cs j fs = Raise e -> e = ZeroDivisionError.
Proof.
  unfold Ultra.stitch_step. intros H.
  repeat match type of H with
         | bind ?m _ = _ =>
             let E := fresh "E" in
             destruct m eqn:E; cbn [bind] in H;
             [|injection H as <-;
               first [exact (py_floordiv_raises _ _ _ E)
                     |exact (py_mod_raises _ _ _ E)]]
         end.
  destruct (_ || _); [destruct (negb _)|]; discriminate.
Qed.

Lemma arm_stitch_step_raises (pn cn ps cs j : nat) (fs : list face)
      (e : PyError) :
  Ultra.arm_stitch_step pn cn ps cs j fs = Raise e -> e = ZeroDivisionError.
Proof.
  unfold Ultra.arm_stitch_step. intros H.
  repeat match type of H with
         | bind ?m _ = _ =>
             let E := fresh "E" in
             destruct m eqn:E; cbn [bind] in H;
             [|injection H as <-;
               first [exact (py_floordiv_raises _ _ _ E)
                     |exact (py_mod_raises _ _ _ E)]]
         end.
  destruct (negb _); discriminate.
Qed.

Lemma fixed_stitch_step_raises (pn cn cur j : nat) (fs : list face)
      (e : PyError) :
  Fixed.stitch_step pn cn cur j fs = Raise e -> e = ZeroDivisionError.
Proof.
  unfold Fixed.stitch_step. intros H.
  repeat match type of H with
         | bind ?m _ = _ =>
             let E := fresh "E" in
             destruct m eqn:E; cbn [bind] in H;
             [|injection H as <-; exact (py_mod_raises _ _ _ E)]
         end.
  discriminate.
Qed.

(** Between an empty ring and a ring with points the stitching loop runs
    at least once, and its first iteration reduces an index modulo 0. *)
Lemma ultra_stitch_gap (pn cn ps cs : nat) (fs : list face) :
  (pn = 0%nat /\ (0 < cn)%nat) \/ ((0 < pn)%nat /\ cn = 0%nat) ->
  for_each (seq 0 (Nat.max pn cn)) (Ultra.stitch_step pn cn ps cs) fs
  = Raise ZeroDivisionError.
Proof.
  intros H.
  destruct (Nat.max pn cn) as [|k] eqn:Em; [lia|].
  cbn [seq for_each]. unfold Ultra.stitch_step at 1. rewrite Em.
  rewrite (py_floordiv_pos _ (S k)) by lia. cbn [bind].
  destruct H as [[-> _] | [Hp ->]]; [reflexivity|].
  rewrite (py_mod_pos _ pn) by lia. cbn [bind].
  rewrite (py_floordiv_pos _ (S k)) by lia. cbn [bind].
  reflexivity.
Qed.

Lemma arm_stitch_gap (pn cn ps cs : nat) (fs : list face) :
  (pn = 0%nat /\ (0 < cn)%nat) \/ ((0 < pn)%nat /\ cn = 0%nat) ->
  for_each (seq 0 (Nat.max pn cn)) (Ultra.arm_stitch_step pn cn ps cs) fs
  = Raise ZeroDivisionError.
Proof.
  intros H.
  destruct (Nat.max pn cn) as [|k] eqn:Em; [lia|].
  cbn [seq for_each]. unfold Ultra.arm_stitch_step at 1. rewrite Em.
  rewrite (py_floordiv_pos _ (S k)) by lia. cbn [bind].
  destruct H as [[-> _] | [Hp ->]]; [reflexivity|].
  rewrite (py_mod_pos _ pn) by lia. cbn [bind].
  rewrite (py_floordiv_pos _ (S k)) by lia. cbn [bind].
  reflexivity.
Qed.

Lemma fixed_stitch_gap (pn cn cur : nat) (fs : list face) :
  (pn = 0%nat /\ (0 < cn)%nat) \/ ((0 < pn)%nat /\ cn = 0%nat) ->
  for_each (seq 0 (Nat.max pn cn)) (Fixed.stitch_step pn cn cur) fs
  = Raise ZeroDivisionError.
Proof.
  intros H.
  destruct (Nat.max pn cn) as [|k] eqn:Em; [lia|].
  cbn [seq for_each]. unfold Fixed.stitch_step at 1.
  destruct H as [[-> _] | [Hp ->]]; [reflexivity|].
  rewrite (py_mod_pos _ pn) by lia. cbn [bind].
  reflexivity.
Qed.

Section RingLoopGap.

Context {Row : Type}.
Variable npts : Row -> nat.
Variable pts : Row -> list vec3.
Variable stitch : nat -> nat -> nat -> nat -> list face -> result (list face).
Variable table : list Row.

Hypothesis stitch_raises :
  forall pn cn cur j fs e,
    stitch pn cn cur j fs = Raise e -> e = ZeroDivisionError.

Hypothesis stitch_gap :
  forall pn cn cur fs,
    (pn = 0%nat /\ (0 < cn)%nat) \/ ((0 < pn)%nat /\ cn = 0%nat) ->
    for_each (seq 0 (Nat.max pn cn)) (stitch pn cn cur) fs
    = Raise ZeroDivisionError.

Lemma ring_loop_gap (st : asm_state) :
  ring_gap npts table ->
  for_each (enumerate table) (ring_loop_step npts pts stitch table) st
  = Raise ZeroDivisionError.
Proof using stitch_raises stitch_gap.
  intros (i & r1 & r2 & H1 & H2 & Hgap).
  apply (enumerate_loop_raises table _ (S i) r2); [exact H2| |].
  - intros k r s e Hk He. unfold ring_loop_step in He.
    destruct (Nat.ltb 0 k) eqn:Ek; [|discriminate].
    apply Nat.ltb_lt in Ek.
    destruct (nth_error table (k - 1)) as [prev|] eqn:Ep.
    + unfold py_index in He. rewrite Ep in He. cbn [bind] in He.
      destruct (for_each _ _ (st_faces s)) as [fs'|e'] eqn:Es;
        [discriminate|].
      cbn [bind] in He. injection He as <-.
      apply (for_each_raises _ _ (fun e => e = ZeroDivisionError)
               (fun j fs e _ => stitch_raises _ _ _ j fs e) _ _ Es).
    + apply nth_error_None in Ep.
      assert (k < length table)%nat by (apply nth_error_Some; now rewrite Hk).
      lia.
  - intros s. unfold ring_loop_step. cbn [Nat.ltb Nat.leb Nat.sub].
    rewrite Nat.sub_0_r. unfold py_index. rewrite H1. cbn [bind].
    now rewrite (stitch_gap _ _ _ _ Hgap).
Qed.

End RingLoopGap.

Lemma ultra_ring_loop_gap (table : list Ultra.anatomy_row) (height : R) :
  ring_gap Ultra.n_pts table ->
  for_each (enumerate table) (Ultra.ring_step table height)
           (AsmState [] [] 0) = Raise ZeroDivisionError.
Proof.
  intros H.
  rewrite (for_each_ext _ _ _ _ (ultra_ring_step_shape table height)).
  apply ring_loop_gap; [| |exact H].
  - intros pn cn cur. apply ultra_stitch_step_raises.
  - intros pn cn cur. apply ultra_stitch_gap.
Qed.

Lemma fixed_ring_loop_gap {Row : Type} (npts : Row -> nat)
      (pts : Row -> list vec3) (table : list Row) :
  ring_gap npts table ->
  for_each (enumerate table)
           (ring_loop_step npts pts Fixed.stitch_step table)
           (AsmState [] [] 0) = Raise ZeroDivisionError.
Proof.
  apply ring_loop_gap.
  - exact fixed_stitch_step_raises.
  - exact fixed_stitch_gap.
Qed.

Lemma arm_ring_loop_gap (segs : list Ultra.arm_segment) (height side : R)
      (base : nat) (st : list vec3 * list face) :
  ring_gap Ultra.seg_n segs ->
  for_each (enumerate segs) (Ultra.arm_ring_step segs height side base) st
  = Raise ZeroDivisionError.
Proof.
  intros (i & r1 & r2 & H1 & H2 & Hgap).
  apply (enumerate_loop_raises segs _ (S i) r2); [exact H2| |].
  - intros k r [av af] e Hk He. unfold Ultra.arm_ring_step in He.
    destruct (Nat.ltb 0 k) eqn:Ek; [|discriminate].
    apply Nat.ltb_lt in Ek.
    destruct (nth_error segs (k - 1)) as [prev|] eqn:Ep.
    + unfold py_index in He. rewrite Ep in He. cbn [bind] in He.
      destruct (for_each _ _ af) as [fs'|e'] eqn:Es; [discriminate|].
      cbn [bind] in He. injection He as <-.
      apply (for_each_raises _ _ (fun e => e = ZeroDivisionError)
               (fun j fs e _ => arm_stitch_step_raises _ _ _ _ j fs e)
               _ _ Es).
    + apply nth_error_None in Ep.
      assert (k < length segs)%nat by (apply nth_error_Some; now rewrite Hk).
      lia.
  - intros [av af]. unfold Ultra.arm_ring_step.
    cbn [Nat.ltb Nat.leb Nat.sub]. rewrite Nat.sub_0_r.
    unfold py_index. rewrite H1. cbn [bind].
    now rewrite (arm_stitch_gap _ _ _ _ _ Hgap).
Qed.

(** X9: a ring without points right before or right after a ring with
    points, anywhere in the table, makes each of the five ring-stacking
    builders stop with [ZeroDivisionError] (an index is reduced modulo
    0), whichever of the two rings is the empty one: the body and the
    arms of create_ultra_detailed_avatar.py, and the torso, the leg and
    the arm of create_fixed_avatar.py. *)
Theorem empty_ring_next_to_ring_raises (height : R) :
  (forall table,
     ring_gap Ultra.n_pts table ->
     Ultra.assemble table height = Raise ZeroDivisionError) /\
  (forall segs verts fcs,
     ring_gap Ultra.seg_n segs ->
     Ultra.add_arms_with segs verts fcs height = Raise ZeroDivisionError) /\
  (forall table,
     ring_gap Fixed.n_pts table ->
     Fixed.assemble table height = Raise ZeroDivisionError) /\
  (forall table side,
     ring_gap Fixed.leg_n_pts table ->
     Fixed.assemble_leg table height side = Raise ZeroDivisionError) /\
  (forall table side,
     ring_gap Fixed.arm_n_pts table ->
     Fixed.assemble_arm table height side = Raise ZeroDivisionError).
Proof.
  split; [|split; [|split; [|split]]].
  - intros table H. unfold Ultra.assemble.
    now rewrite (ultra_ring_loop_gap table height H).
  - intros segs verts fcs H. unfold Ultra.add_arms_with.
    cbn [for_each]. unfold Ultra.add_arm_side at 1.
    now rewrite (arm_ring_loop_gap segs height _ _ _ H).
  - intros table H. unfold Fixed.assemble.
    rewrite (for_each_ext _ _ _ _ (torso_ring_step_shape table height)).
    now rewrite (fixed_ring_loop_gap _ _ table H).
  - intros table side H. unfold Fixed.assemble_leg.
    rewrite (for_each_ext _ _ _ _ (leg_ring_step_shape table height side)).
    now rewrite (fixed_ring_loop_gap _ _ table H).
  - intros table side H. unfold Fixed.assemble_arm.
    rewrite (for_each_ext _ _ _ _ (arm_ring_step_shape table height side)).
    now rewrite (fixed_ring_loop_gap _ _ table H).
Qed.

Lemma empty_ring_next_to_ring_raises_witness :
  Ultra.assemble [Ultra.arow 0 0.045 0.11 6 0 0 0;
                  Ultra.arow 0.5 0.04 0.1 4 0 0 0;
                  Ultra.arow 0.8 0.03 0.05 0 0 0 0;
                  Ultra.arow 1 0.02 0.022 5 0 0 0] 1.75
  = Raise ZeroDivisionError.
Proof.
  apply (proj1 (empty_ring_next_to_ring_raises 1.75)).
  exists 1%nat. do 2 eexists.
  split; [reflexivity|]. split; [reflexivity|].
  right. cbn [Ultra.n_pts]. split; [lia | reflexivity].
Defined.

(** ** Serializers: reading the container back *)

Lemma concat_section_bound {A : Type} (ls : list (list A)) (k : nat)
      (s : list A) :
  nth_error ls k = Some s ->
  (list_sum (map (@length A) (firstn k ls)) + length s
   <= length (concat ls))%nat.
Proof.
  revert k. induction ls as [|l ls IH]; intros k H.
  - destruct k; discriminate.
  - destruct k as [|k]; cbn [nth_error] in H.
    + injection H as ->. cbn [firstn map concat]. rewrite length_app.
      unfold list_sum. cbn [fold_right]. lia.
    + specialize (IH k H). cbn [firstn map concat]. rewrite length_app.
      unfold list_sum in *. cbn [fold_right]. lia.
Qed.

Lemma tiles_reads_back (g : GLTF2) (sections : list (list byte)) :
  tiles g sections -> reads_back g sections.
Proof.
  intros (Hblob & Hlen & Hoff & _). split.
  - rewrite <- (length_map byteLength), Hlen. apply length_map.
  - intros k v Hk.
    assert (Hs : exists s, nth_error sections k = Some s
                           /\ length s = byteLength v).
    { pose proof (map_nth_error byteLength k _ Hk) as E. rewrite Hlen in E.
      rewrite nth_error_map in E.
      destruct (nth_error sections k) as [s|]; [|discriminate].
      cbn in E. injection E as E. now exists s. }
    destruct Hs as (s & Hs & Hl).
    rewrite (Hoff k v Hk), <- firstn_map, Hlen, firstn_map, <- Hl, Hblob.
    split.
    + now apply concat_section_bound.
    + rewrite Hs. f_equal. symmetry.
      exact (slice_concat_nth [] sections k s Hs).
Qed.

Lemma tiles_same_layout (g g' : GLTF2) (sections : list (list byte)) :
  binary_blob g' = binary_blob g -> bufferViews g' = bufferViews g ->
  buffers g' = buffers g ->
  tiles g sections -> tiles g' sections.
Proof.
  unfold tiles. intros -> -> ->. tauto.
Qed.

Section SerializerReadBack.

Local Set Default Proof Using "Type*".

Variable f32_bytes : R -> list byte.
Hypothesis f32_bytes_len : forall x, length (f32_bytes x) = 4%nat.
Variable vertex_normals : field -> list face -> field.

Lemma ultra_export_tiles (verts : field) (fcs : list face) (normals : field)
      (morphs : dict field) (g : GLTF2) (names : list string) :
  dict_wf morphs ->
  Ultra.export_glb f32_bytes verts fcs normals morphs = Ok (g, names) ->
  tiles g (asset_sections f32_bytes verts normals fcs morphs).
Proof.
  intros Hwf H.
  destruct (ultra_export_shape f32_bytes f32_bytes_len
              verts fcs normals morphs g names Hwf H)
    as (bvs & acs & tgts & a0 & _ & Hblob & Hbuf & Hbv & _ & _ & _
        & Hlb & _ & _ & Hnth).
  unfold asset_sections.
  apply (tiles_intro f32_bytes f32_bytes_len g _ _ _ morphs bvs 34962 34962 34963 34962);
    try assumption.
  - rewrite Hbv.
    now rewrite !(tobytes_f32_length f32_bytes f32_bytes_len),
      tobytes_u32_length, length_app,
      !(tobytes_f32_length f32_bytes f32_bytes_len).
  - intros k [name delta] Hk.
    destruct (Hnth k name delta Hk) as (_ & Hb & _).
    rewrite Hb. unfold morph_section at 3. cbn [snd].
    now rewrite (tobytes_f32_length f32_bytes f32_bytes_len).
Qed.

Lemma fixed_export_tiles (verts : field) (fcs : list face)
      (morphs : dict field) (g : GLTF2) (names : list string) :
  dict_wf morphs ->
  Fixed.export_to_glb f32_bytes vertex_normals verts fcs morphs
  = Ok (g, names) ->
  tiles g (asset_sections f32_bytes verts (vertex_normals verts fcs)
                          fcs morphs).
Proof.
  intros Hwf H.
  destruct (fixed_export_shape f32_bytes f32_bytes_len vertex_normals
              verts fcs morphs g names Hwf H)
    as (bvs & acs & a0 & _ & Hblob & Hbuf & Hbv & _ & _ & _
        & Hlb & _ & Hnth).
  unfold asset_sections.
  apply (tiles_intro f32_bytes f32_bytes_len g _ _ _ morphs bvs 34962 34962 34963 34962);
    try assumption.
  intros k [name delta] Hk.
  destruct (Hnth k name delta Hk) as (Hb & _).
  exact Hb.
Qed.

Lemma hq_build_tiles (verts normals : field) (fcs : list face)
      (morphs : dict field) (g : GLTF2) :
  dict_wf morphs ->
  HQ.build_gltf f32_bytes verts normals fcs morphs = Ok g ->
  tiles g (asset_sections f32_bytes verts normals fcs morphs).
Proof.
  intros Hwf H. rewrite (hq_build_as_ultra f32_bytes f32_bytes_len) in H.
  destruct (Ultra.export_glb f32_bytes verts fcs normals morphs)
    as [[g' names]|e] eqn:E; [|discriminate].
  injection H as <-.
  apply (tiles_same_layout g'); try reflexivity.
  exact (ultra_export_tiles _ _ _ _ _ _ Hwf E).
Qed.

(** X10: in the container written by each of the three serializers, there
    is one bufferView per section (positions, normals, indices and one per
    morph target, in the order of the dict), every bufferView lies inside
    the binary blob, and the bytes between its byteOffset and its end
    are exactly the bytes of its section. *)
Theorem buffer_views_read_back (verts : field) (fcs : list face)
        (normals : field) (morphs : dict field) :
  dict_wf morphs ->
  (forall g names,
     Ultra.export_glb f32_bytes verts fcs normals morphs = Ok (g, names) ->
     reads_back g (asset_sections f32_bytes verts normals fcs morphs)) /\
  (forall g names,
     Fixed.export_to_glb f32_bytes vertex_normals verts fcs morphs
     = Ok (g, names) ->
     reads_back g (asset_sections f32_bytes verts (vertex_normals verts fcs)
                                  fcs morphs)) /\
  (forall g,
     HQ.build_gltf f32_bytes verts normals fcs morphs = Ok g ->
     reads_back g (asset_sections f32_bytes verts normals fcs morphs)).
Proof.
  intros Hwf. split; [|split].
  - intros g names H. apply tiles_reads_back.
    exact (ultra_export_tiles _ _ _ _ _ _ Hwf H).
  - intros g names H. apply tiles_reads_back.
    exact (fixed_export_tiles _ _ _ _ _ Hwf H).
  - intros g H. apply tiles_reads_back.
    exact (hq_build_tiles _ _ _ _ _ Hwf H).
Qed.

End SerializerReadBack.

Lemma buffer_views_read_back_witness :
  exists g names,
    Ultra.export_glb zero_image [(0, 1, 0)] [(0, 0, 0)%nat] [(0, 0, 1)]
                     [("Weight"%string, [(0.07, 0, 0)])] = Ok (g, names) /\
    reads_back g (asset_sections zero_image [(0, 1, 0)] [(0, 0, 1)]
                                 [(0, 0, 0)%nat]
                                 [("Weight"%string, [(0.07, 0, 0)])]).
Proof.
  destruct (ultra_export_returns zero_image (fun _ => eq_refl)
              [(0, 1, 0)] [(0, 0, 0)%nat] [(0, 0, 1)]
              [("Weight"%string, [(0.07, 0, 0)])] sample_morphs_wf)
    as (g & names & E).
  - discriminate.
  - intros name delta [H|[]]. injection H as _ <-. discriminate.
  - exists g, names. split; [exact E|].
    exact (proj1 (buffer_views_read_back zero_image (fun _ => eq_refl)
                    (fun vs _ => vs) [(0, 1, 0)] [(0, 0, 0)%nat] [(0, 0, 1)]
                    [("Weight"%string, [(0.07, 0, 0)])] sample_morphs_wf)
                 g names E).
Defined.

(** ** Serializers: accessors *)

Lemma fold_left_Rmax_spec (rest : list R) (x : R) :
  In (fold_left Rmax rest x) (x :: rest) /\
  forall y, In y (x :: rest) -> y <= fold_left Rmax rest x.
Proof.
  revert x. induction rest as [|r rest IH]; intros x; cbn [fold_left].
  - split; [now left|]. intros y [<-|[]]. apply Rle_refl.
  - destruct (IH (Rmax x r)) as [Hin Hle]. split.
    + destruct Hin as [E|Hin].
      * rewrite <- E. apply Rmax_case; [now left | right; now left].
      * right; right; exact Hin.
    + intros y [<-|[<-|Hy]].
      * eapply Rle_trans; [apply Rmax_l | apply Hle; now left].
      * eapply Rle_trans; [apply Rmax_r | apply Hle; now left].
      * apply Hle. now right.
Qed.

Lemma fold_left_Rmin_spec (rest : list R) (x : R) :
  In (fold_left Rmin rest x) (x :: rest) /\
  forall y, In y (x :: rest) -> fold_left Rmin rest x <= y.
Proof.
  revert x. induction rest as [|r rest IH]; intros x; cbn [fold_left].
  - split; [now left|]. intros y [<-|[]]. apply Rle_refl.
  - destruct (IH (Rmin x r)) as [Hin Hle]. split.
    + destruct Hin as [E|Hin].
      * rewrite <- E. apply Rmin_case; [now left | right; now left].
      * right; right; exact Hin.
    + intros y [<-|[<-|Hy]].
      * eapply Rle_trans; [apply Hle; now left | apply Rmin_l].
      * eapply Rle_trans; [apply Hle; now left | apply Rmin_r].
      * apply Hle. now right.
Qed.

Lemma arr_max_column (col : vec3 -> R) (a : field) (m : R) :
  arr_max (map col a) = Ok m -> column_max col a m.
Proof.
  destruct a as [|v a]; [discriminate|]. cbn [map arr_max].
  intros H. injection H as <-.
  destruct (fold_left_Rmax_spec (map col a) (col v)) as [Hin Hle].
  split.
  - change (col v :: map col a) with (map col (v :: a)) in Hin.
    apply in_map_iff in Hin. destruct Hin as (w & E & Hw). now exists w.
  - intros w Hw. apply Hle.
    change (col v :: map col a) with (map col (v :: a)).
    now apply in_map.
Qed.

Lemma arr_min_column (col : vec3 -> R) (a : field) (m : R) :
  arr_min (map col a) = Ok m -> column_min col a m.
Proof.
  destruct a as [|v a]; [discriminate|]. cbn [map arr_min].
  intros H. injection H as <-.
  destruct (fold_left_Rmin_spec (map col a) (col v)) as [Hin Hle].
  split.
  - change (col v :: map col a) with (map col (v :: a)) in Hin.
    apply in_map_iff in Hin. destruct Hin as (w & E & Hw). now exists w.
  - intros w Hw. apply Hle.
    change (col v :: map col a) with (map col (v :: a)).
    now apply in_map.
Qed.

Lemma axis0_true_bounds (a : field) (hi lo : list R) (bv : nat) (c : N)
      (n : nat) (t : string) :
  axis0_max a = Ok hi -> axis0_min a = Ok lo ->
  true_bounds a (mkAccessor bv c n t (Some hi) (Some lo)).
Proof.
  unfold axis0_max, axis0_min. intros Hhi Hlo.
  destruct (arr_max (map vx a)) as [hx|] eqn:Ehx; [|discriminate].
  destruct (arr_max (map vy a)) as [hy|] eqn:Ehy; [|discriminate].
  destruct (arr_max (map vz a)) as [hz|] eqn:Ehz; [|discriminate].
  destruct (arr_min (map vx a)) as [lx|] eqn:Elx; [|discriminate].
  destruct (arr_min (map vy a)) as [ly|] eqn:Ely; [|discriminate].
  destruct (arr_min (map vz a)) as [lz|] eqn:Elz; [|discriminate].
  cbn [bind] in Hhi, Hlo. injection Hhi as <-. injection Hlo as <-.
  exists hx, hy, hz, lx, ly, lz. cbn [acc_max acc_min].
  split; [reflexivity|]. split; [reflexivity|].
  split; [now apply arr_max_column|]. split; [now apply arr_max_column|].
  split; [now apply arr_max_column|]. split; [now apply arr_min_column|].
  split; now apply arr_min_column.
Qed.

Lemma flatten_length (fs : list face) :
  length (flatten fs) = (length fs * 3)%nat.
Proof.
  unfold flatten. induction fs as [|f fs IH]; [reflexivity|].
  cbn [flat_map]. rewrite length_app, IH. cbn [length]. lia.
Qed.

Lemma accessors_fit_intro (g : GLTF2) (a0 a1 a2 : Accessor)
      (v0 v1 v2 : BufferView) (acs : list Accessor) (bvs : list BufferView)
      (ms : list (string * field)) :
  accessors g = [a0; a1; a2] ++ acs ->
  bufferViews g = [v0; v1; v2] ++ bvs ->
  length acs = length ms -> length bvs = length ms ->
  bufferView a0 = 0%nat ->
  byteLength v0 = (count a0 * element_bytes a0)%nat ->
  bufferView a1 = 1%nat ->
  byteLength v1 = (count a1 * element_bytes a1)%nat ->
  bufferView a2 = 2%nat ->
  byteLength v2 = (count a2 * element_bytes a2)%nat ->
  (forall k nd, nth_error ms k = Some nd ->
     exists a v, nth_error acs k = Some a /\ nth_error bvs k = Some v /\
                 bufferView a = (3 + k)%nat /\
                 byteLength v = (count a * element_bytes a)%nat) ->
  accessors_fit g.
Proof.
  intros Hac Hbv Hla Hlb H0 L0 H1 L1 H2 L2 Hnth. split.
  - rewrite Hac, Hbv, !length_app, Hla, Hlb. reflexivity.
  - intros i a Hi. rewrite Hac in Hi. rewrite Hbv.
    destruct i as [|[|[|k]]]; cbn [app nth_error] in Hi |- *.
    + injection Hi as <-. split; [exact H0|]. now exists v0.
    + injection Hi as <-. split; [exact H1|]. now exists v1.
    + injection Hi as <-. split; [exact H2|]. now exists v2.
    + assert (Hk : (k < length ms)%nat).
      { rewrite <- Hla. apply nth_error_Some. now rewrite Hi. }
      destruct (nth_error ms k) as [nd|] eqn:End;
        [|apply nth_error_None in End; lia].
      destruct (Hnth k nd End) as (a' & v & Ha & Hv & Hb & Hl).
      rewrite Ha in Hi. injection Hi as <-.
      split; [exact Hb|]. now exists v.
Qed.

Lemma accessors_fit_same_layout (g g' : GLTF2) :
  accessors g' = accessors g -> bufferViews g' = bufferViews g ->
  accessors_fit g -> accessors_fit g'.
Proof.
  unfold accessors_fit. intros -> ->. tauto.
Qed.

Lemma bounds_recorded_same_accessors (verts : field) (morphs : dict field)
      (g g' : GLTF2) :
  accessors g' = accessors g ->
  bounds_recorded verts morphs g -> bounds_recorded verts morphs g'.
Proof.
  unfold bounds_recorded. intros ->. tauto.
Qed.

Section SerializerAccessors.

Local Set Default Proof Using "Type*".

Variable f32_bytes : R -> list byte.
Hypothesis f32_bytes_len : forall x, length (f32_bytes x) = 4%nat.
Variable vertex_normals : field -> list face -> field.

Lemma ultra_export_accessors (verts : field) (fcs : list face)
      (normals : field) (morphs : dict field) (g : GLTF2)
      (names : list string) :
  Ultra.export_glb f32_bytes verts fcs normals morphs = Ok (g, names) ->
  exists vmax vmin acs,
    axis0_max verts = Ok vmax /\ axis0_min verts = Ok vmin /\
    accessors g
    = [mkAccessor 0 5126 (length verts) "VEC3" (Some vmax) (Some vmin);
       mkAccessor 1 5126 (length normals) "VEC3" None None;
       mkAccessor 2 5125 (length (flatten fcs)) "SCALAR" None None] ++ acs /\
    length acs = length morphs /\
    forall k name delta, nth_error morphs k = Some (name, delta) ->
      exists mx mn,
        axis0_max delta = Ok mx /\ axis0_min delta = Ok mn /\
        nth_error acs k
        = Some (mkAccessor (3 + k) 5126 (length delta) "VEC3"
                           (Some mx) (Some mn)).
Proof.
  intros H. unfold Ultra.export_glb in H.
  cbn [app length] in H. unfold dict_items in H.
  match type of H with
  | context [fold_left ?f ?l ?s] =>
      destruct (fold_left f l s) as [m_offs buf]
  end.
  destruct (axis0_max verts) as [vmax|] eqn:Evmax; [|discriminate].
  cbn [bind] in H.
  destruct (axis0_min verts) as [vmin|] eqn:Evmin; [|discriminate].
  cbn [bind] in H.
  match type of H with
  | bind (for_each morphs ?body ?st0) _ = _ =>
      destruct (for_each morphs body st0) as [[[bv ac] m_acc]|] eqn:Eloop;
        [|discriminate]
  end.
  cbn [bind] in H.
  destruct (map_result (fun n => dict_get m_acc n) (dict_keys morphs))
    as [tgts|] eqn:Etg; [|discriminate].
  cbn [bind] in H. injection H as <- <-.
  destruct (describe_morph_loop _ _ _ _ _ _ _ _ Eloop)
    as (bvs & acs & -> & -> & Hlb & Hla & Hnth & _ & _).
  exists vmax, vmin, acs. cbn [accessors].
  split; [reflexivity|]. split; [reflexivity|]. split; [reflexivity|].
  split; [exact Hla|].
  intros k name delta Hk.
  destruct (Hnth k name delta Hk) as (off & mx & mn & _ & Hmx & Hmn & _ & Ha).
  exists mx, mn. split; [exact Hmx|]. split; [exact Hmn|]. exact Ha.
Qed.

Lemma fixed_describe_loop_accessors (mt : dict field) (ns : list string) :
  forall (deltas : list field) (s : nat) bvs acs idxs off bvs' acs' idxs' off',
    map_result (dict_get mt) ns = Ok deltas ->
    for_each (combine (seq s (length ns)) ns)
             (Fixed.describe_morph f32_bytes mt) (bvs, acs, idxs, off)
    = Ok (bvs', acs', idxs', off') ->
    exists acs1,
      acs' = acs ++ acs1 /\
      forall k delta, nth_error deltas k = Some delta ->
        exists mx mn,
          axis0_max delta = Ok mx /\ axis0_min delta = Ok mn /\
          nth_error acs1 k
          = Some (mkAccessor (3 + (s + k)) 5126 (length delta) "VEC3"
                             (Some mx) (Some mn)).
Proof.
  induction ns as [|n ns IH];
    intros deltas s bvs acs idxs off bvs' acs' idxs' off' Hd H.
  - cbn in Hd. injection Hd as <-. cbn in H. injection H as <- <- <- <-.
    exists []. rewrite app_nil_r. split; [reflexivity|].
    intros k delta Hk. destruct k; discriminate.
  - cbn in Hd.
    destruct (dict_get mt n) as [d|] eqn:Ed; [|discriminate]. cbn [bind] in Hd.
    destruct (map_result (dict_get mt) ns) as [ds|] eqn:Eds; [|discriminate].
    cbn [bind] in Hd. injection Hd as <-.
    cbn [length seq combine for_each] in H.
    unfold Fixed.describe_morph at 1 in H. rewrite Ed in H. cbn [bind] in H.
    destruct (axis0_max d) as [mx|] eqn:Emx; [|discriminate]. cbn [bind] in H.
    destruct (axis0_min d) as [mn|] eqn:Emn; [|discriminate]. cbn [bind] in H.
    destruct (IH ds (S s) _ _ _ _ _ _ _ _ eq_refl H) as (acs1 & -> & Hnth).
    exists (mkAccessor (3 + s) 5126 (length d) "VEC3" (Some mx) (Some mn)
                       :: acs1).
    split; [now rewrite <- app_assoc|].
    intros k delta Hk. destruct k as [|k]; cbn in Hk.
    + injection Hk as <-. exists mx, mn. rewrite Nat.add_0_r.
      now repeat split.
    + destruct (Hnth k delta Hk) as (mx' & mn' & H1 & H2 & H3).
      exists mx', mn'. split; [exact H1|]. split; [exact H2|].
      cbn [nth_error]. rewrite H3. do 2 f_equal. lia.
Qed.

Lemma fixed_export_accessors (verts : field) (fcs : list face)
      (mt : dict field) (g : GLTF2) (names : list string) :
  dict_wf mt ->
  Fixed.export_to_glb f32_bytes vertex_normals verts fcs mt = Ok (g, names) ->
  exists vmax vmin acs,
    axis0_max verts = Ok vmax /\ axis0_min verts = Ok vmin /\
    accessors g
    = [mkAccessor 0 5126 (length verts) "VEC3" (Some vmax) (Some vmin);
       mkAccessor 1 5126 (length (vertex_normals verts fcs)) "VEC3" None None;
       mkAccessor 2 5125 (length fcs * 3) "SCALAR" None None] ++ acs /\
    forall k name delta, nth_error mt k = Some (name, delta) ->
      exists mx mn,
        axis0_max delta = Ok mx /\ axis0_min delta = Ok mn /\
        nth_error acs k
        = Some (mkAccessor (3 + k) 5126 (length delta) "VEC3"
                           (Some mx) (Some mn)).
Proof.
  intros Hwf H. unfold Fixed.export_to_glb in H.
  pose proof (map_result_dict_items mt Hwf) as Hds.
  rewrite (add_morph_bytes_loop f32_bytes f32_bytes_len
             mt (dict_keys mt) (map snd mt) [] Hds) in H.
  cbn [bind app] in H.
  destruct (axis0_max verts) as [vmax|] eqn:Evmax; [|discriminate].
  cbn [bind] in H.
  destruct (axis0_min verts) as [vmin|] eqn:Evmin; [|discriminate].
  cbn [bind] in H.
  match type of H with
  | bind (for_each ?l ?body ?st0) _ = _ =>
      destruct (for_each l body st0) as [[[[bv ac] idxs] off']|] eqn:Eloop;
        [|discriminate]
  end.
  cbn [bind] in H. injection H as <- <-.
  unfold enumerate in Eloop.
  destruct (fixed_describe_loop_accessors mt (dict_keys mt) (map snd mt) 0
              _ _ _ _ _ _ _ _ Hds Eloop) as (acs1 & -> & Hnth).
  exists vmax, vmin, acs1. cbn [accessors app].
  split; [reflexivity|]. split; [reflexivity|]. split; [reflexivity|].
  intros k name delta Hk.
  assert (Hkd : nth_error (map snd mt) k = Some delta).
  { now rewrite (map_nth_error snd k mt Hk). }
  exact (Hnth k delta Hkd).
Qed.

Lemma ultra_export_fit (verts : field) (fcs : list face) (normals : field)
      (morphs : dict field) (g : GLTF2) (names : list string) :
  dict_wf morphs ->
  Ultra.export_glb f32_bytes verts fcs normals morphs = Ok (g, names) ->
  accessors_fit g.
Proof.
  intros Hwf H.
  destruct (ultra_export_shape f32_bytes f32_bytes_len
              verts fcs normals morphs g names Hwf H)
    as (bvs & acs0 & tgts & a0 & _ & _ & _ & Hbv & _ & _ & _
        & Hlb & _ & _ & Hnth).
  destruct (ultra_export_accessors verts fcs normals morphs g names H)
    as (vmax & vmin & acs & _ & _ & Hac & Hla & Hacc).
  apply (accessors_fit_intro g _ _ _ _ _ _ acs bvs morphs Hac Hbv Hla Hlb);
    try reflexivity.
  - unfold nbytes_f32, element_bytes. cbn. lia.
  - unfold nbytes_f32, element_bytes. cbn. lia.
  - unfold nbytes_u32, element_bytes. cbn. lia.
  - intros k [name delta] Hk.
    destruct (Hnth k name delta Hk) as (_ & Hb & _).
    destruct (Hacc k name delta Hk) as (mx & mn & _ & _ & Ha).
    eexists. eexists. split; [exact Ha|]. split; [exact Hb|].
    split; [reflexivity|].
    unfold nbytes_f32, element_bytes. cbn. lia.
Qed.

Lemma fixed_export_fit (verts : field) (fcs : list face)
      (morphs : dict field) (g : GLTF2) (names : list string) :
  dict_wf morphs ->
  Fixed.export_to_glb f32_bytes vertex_normals verts fcs morphs
  = Ok (g, names) ->
  accessors_fit g.
Proof.
  intros Hwf H.
  destruct (fixed_export_shape f32_bytes f32_bytes_len vertex_normals
              verts fcs morphs g names Hwf H)
    as (bvs & acs0 & a0 & _ & _ & _ & Hbv & Hac0 & _ & _
        & Hlb & Hla0 & Hnth).
  destruct (fixed_export_accessors verts fcs morphs g names Hwf H)
    as (vmax & vmin & acs & _ & _ & Hac & Hacc).
  assert (Hla : length acs = length morphs).
  { rewrite Hac in Hac0. injection Hac0 as _ E. rewrite E. exact Hla0. }
  apply (accessors_fit_intro g _ _ _ _ _ _ acs bvs morphs Hac Hbv Hla Hlb);
    try reflexivity.
  - cbn [byteLength count].
    rewrite (tobytes_f32_length f32_bytes f32_bytes_len).
    unfold nbytes_f32, element_bytes. cbn. lia.
  - cbn [byteLength count].
    rewrite (tobytes_f32_length f32_bytes f32_bytes_len).
    unfold nbytes_f32, element_bytes. cbn. lia.
  - cbn [byteLength count].
    rewrite tobytes_u32_length. unfold nbytes_u32.
    rewrite flatten_length. unfold element_bytes. cbn. lia.
  - intros k [name delta] Hk.
    destruct (Hnth k name delta Hk) as (Hb & _).
    destruct (Hacc k name delta Hk) as (mx & mn & _ & _ & Ha).
    eexists. eexists. split; [exact Ha|]. split; [exact Hb|].
    split; [reflexivity|]. cbn [byteLength count].
    rewrite (tobytes_f32_length f32_bytes f32_bytes_len).
    unfold nbytes_f32, element_bytes. cbn. lia.
Qed.

Lemma ultra_export_bounds (verts : field) (fcs : list face) (normals : field)
      (morphs : dict field) (g : GLTF2) (names : list string) :
  Ultra.export_glb f32_bytes verts fcs normals morphs = Ok (g, names) ->
  bounds_recorded verts morphs g.
Proof.
  intros H.
  destruct (ultra_export_accessors verts fcs normals morphs g names H)
    as (vmax & vmin & acs & Hmax & Hmin & Hac & _ & Hacc).
  split.
  - eexists. rewrite Hac. split; [reflexivity|].
    now apply axis0_true_bounds.
  - intros k name delta Hk.
    destruct (Hacc k name delta Hk) as (mx & mn & Hmx & Hmn & Ha).
    eexists. rewrite Hac. cbn [app nth_error Nat.add].
    split; [exact Ha|]. now apply axis0_true_bounds.
Qed.

Lemma fixed_export_bounds (verts : field) (fcs : list face)
      (morphs : dict field) (g : GLTF2) (names : list string) :
  dict_wf morphs ->
  Fixed.export_to_glb f32_bytes vertex_normals verts fcs morphs
  = Ok (g, names) ->
  bounds_recorded verts morphs g.
Proof.
  intros Hwf H.
  destruct (fixed_export_accessors verts fcs morphs g names Hwf H)
    as (vmax & vmin & acs & Hmax & Hmin & Hac & Hacc).
  split.
  - eexists. rewrite Hac. split; [reflexivity|].
    now apply axis0_true_bounds.
  - intros k name delta Hk.
    destruct (Hacc k name delta Hk) as (mx & mn & Hmx & Hmn & Ha).
    eexists. rewrite Hac. cbn [app nth_error Nat.add].
    split; [exact Ha|]. now apply axis0_true_bounds.
Qed.

(** X11: in the container written by each of the three serializers there
    are as many accessors as bufferViews, accessor [i] reads bufferView
    [i], and the byteLength of that view is the accessor's count times
    the size of one element (12 bytes for a float32 VEC3, 4 bytes for a
    uint32 SCALAR). *)
Theorem accessors_match_buffer_views (verts : field) (fcs : list face)
        (normals : field) (morphs : dict field) :
  dict_wf morphs ->
  (forall g names,
     Ultra.export_glb f32_bytes verts fcs normals morphs = Ok (g, names) ->
     accessors_fit g) /\
  (forall g names,
     Fixed.export_to_glb f32_bytes vertex_normals verts fcs morphs
     = Ok (g, names) ->
     accessors_fit g) /\
  (forall g,
     HQ.build_gltf f32_bytes verts normals fcs morphs = Ok g ->
     accessors_fit g).
Proof.
  intros Hwf. split; [|split].
  - intros g names H. exact (ultra_export_fit _ _ _ _ _ _ Hwf H).
  - intros g names H. exact (fixed_export_fit _ _ _ _ _ Hwf H).
  - intros g H. rewrite (hq_build_as_ultra f32_bytes f32_bytes_len) in H.
    destruct (Ultra.export_glb f32_bytes verts fcs normals morphs)
      as [[g' names]|e] eqn:E; [|discriminate].
    injection H as <-.
    apply (accessors_fit_same_layout g'); try reflexivity.
    exact (ultra_export_fit _ _ _ _ _ _ Hwf E).
Qed.

(** X12: the [max] and [min] that each serializer records on the position
    accessor are the per-axis extrema of the vertex array, and the ones
    it records on the accessor of a morph target are the per-axis
    extrema of that target's own displacement array: every bound is
    attained by a row and no row lies outside it. *)
Theorem accessor_bounds_are_extrema (verts : field) (fcs : list face)
        (normals : field) (morphs : dict field) :
  dict_wf morphs ->
  (forall g names,
     Ultra.export_glb f32_bytes verts fcs normals morphs = Ok (g, names) ->
     bounds_recorded verts morphs g) /\
  (forall g names,
     Fixed.export_to_glb f32_bytes vertex_normals verts fcs morphs
     = Ok (g, names) ->
     bounds_recorded verts morphs g) /\
  (forall g,
     HQ.build_gltf f32_bytes verts normals fcs morphs = Ok g ->
     bounds_recorded verts morphs g).
Proof.
  intros Hwf. split; [|split].
  - intros g names H. exact (ultra_export_bounds _ _ _ _ _ _ H).
  - intros g names H. exact (fixed_export_bounds _ _ _ _ _ Hwf H).
  - intros g H. rewrite (hq_build_as_ultra f32_bytes f32_bytes_len) in H.
    destruct (Ultra.export_glb f32_bytes verts fcs normals morphs)
      as [[g' names]|e] eqn:E; [|discriminate].
    injection H as <-.
    apply (bounds_recorded_same_accessors verts morphs g'); [reflexivity|].
    exact (ultra_export_bounds _ _ _ _ _ _ E).
Qed.

End SerializerAccessors.

Lemma accessors_match_buffer_views_witness :
  exists g names,
    Ultra.export_glb zero_image [(0, 1, 0)] [(0, 0, 0)%nat] [(0, 0, 1)]
                     [("Weight"%string, [(0.07, 0, 0)])] = Ok (g, names) /\
    accessors_fit g.
Proof.
  destruct (ultra_export_returns zero_image (fun _ => eq_refl)
              [(0, 1, 0)] [(0, 0, 0)%nat] [(0, 0, 1)]
              [("Weight"%string, [(0.07, 0, 0)])] sample_morphs_wf)
    as (g & names & E).
  - discriminate.
  - intros name delta [H|[]]. injection H as _ <-. discriminate.
  - exists g, names. split; [exact E|].
    exact (proj1 (accessors_match_buffer_views zero_image (fun _ => eq_refl)
                    (fun vs _ => vs) [(0, 1, 0)] [(0, 0, 0)%nat] [(0, 0, 1)]
                    [("Weight"%string, [(0.07, 0, 0)])] sample_morphs_wf)
                 g names E).
Defined.

Lemma accessor_bounds_are_extrema_witness :
  exists g names,
    Ultra.export_glb zero_image [(0, 1, 0)] [(0, 0, 0)%nat] [(0, 0, 1)]
                     [("Weight"%string, [(0.07, 0, 0)])] = Ok (g, names) /\
    bounds_recorded [(0, 1, 0)] [("Weight"%string, [(0.07, 0, 0)])] g.
Proof.
  destruct (ultra_export_returns zero_image (fun _ => eq_refl)
              [(0, 1, 0)] [(0, 0, 0)%nat] [(0, 0, 1)]
              [("Weight"%string, [(0.07, 0, 0)])] sample_morphs_wf)
    as (g & names & E).
  - discriminate.
  - intros name delta [H|[]]. injection H as _ <-. discriminate.
  - exists g, names. split; [exact E|].
    exact (proj1 (accessor_bounds_are_extrema zero_image (fun _ => eq_refl)
                    (fun vs _ => vs) [(0, 1, 0)] [(0, 0, 0)%nat] [(0, 0, 1)]
                    [("Weight"%string, [(0.07, 0, 0)])] sample_morphs_wf)
                 g names E).
Defined.

(** ** Serializers: failure cases and the files of a run *)

Lemma list_index_in (xs : list string) (x : string) :
  In x xs -> exists i, list_index xs x = Ok i /\ (i < length xs)%nat.
Proof.
  induction xs as [|y xs IH]; intros H; [contradiction|].
  cbn [list_index]. destruct (String.eqb y x) eqn:E.
  - exists 0%nat. split; [reflexivity | cbn; lia].
  - destruct H as [H|H]; [subst; now rewrite String.eqb_refl in E|].
    destruct (IH H) as (i & -> & Hi). exists (S i).
    split; [reflexivity | cbn; lia].
Qed.

Lemma list_index_not_in (xs : list string) (x : string) :
  ~ In x xs -> list_index xs x = Raise ValueError.
Proof.
  induction xs as [|y xs IH]; intros H; [reflexivity|].
  cbn [list_index]. destruct (String.eqb y x) eqn:E.
  - apply String.eqb_eq in E. exfalso. apply H. now left.
  - rewrite IH; [reflexivity|]. intros Hin. apply H. now right.
Qed.

Lemma list_set_in_range {A : Type} (xs : list A) (i : nat) (v : A) :
  (i < length xs)%nat ->
  exists ys, list_set xs i v = Ok ys /\ length ys = length xs.
Proof.
  revert i. induction xs as [|y xs IH]; intros i Hi; [cbn in Hi; lia|].
  destruct i as [|i].
  - eexists. split; reflexivity.
  - destruct (IH i) as (ys & E & Hl); [cbn in Hi; lia|].
    exists (y :: ys). cbn [list_set]. rewrite E. cbn [bind length].
    split; [reflexivity | now rewrite Hl].
Qed.

(** The three assignments [ws[names.index(k)] = v] on a zero vector go
    through when the three keys are among the names, and stop with
    [ValueError] otherwise. *)
Lemma three_assignments_run {B : Type} (names : list string) (n : nat)
      (k1 k2 k3 : string) (v1 v2 v3 : R) (K : list R -> result B) :
  length names = n ->
  (In k1 names /\ In k2 names /\ In k3 names ->
   exists ws,
     length ws = n /\
     (i <- list_index names k1 ;;
      ws <- list_set (repeat 0.0 n) i v1 ;;
      i <- list_index names k2 ;;
      ws <- list_set ws i v2 ;;
      i <- list_index names k3 ;;
      ws <- list_set ws i v3 ;;
      K ws) = K ws) /\
  (~ (In k1 names /\ In k2 names /\ In k3 names) ->
   (i <- list_index names k1 ;;
    ws <- list_set (repeat 0.0 n) i v1 ;;
    i <- list_index names k2 ;;
    ws <- list_set ws i v2 ;;
    i <- list_index names k3 ;;
    ws <- list_set ws i v3 ;;
    K ws) = Raise ValueError).
Proof.
  intros Hlen.
  assert (Hstep : forall k (ws : list R), length ws = n -> In k names ->
            forall v, exists i ws',
              list_index names k = Ok i /\ list_set ws i v = Ok ws'
              /\ length ws' = n).
  { intros k ws Hws Hin v.
    destruct (list_index_in names k Hin) as (i & Ei & Hi).
    destruct (list_set_in_range ws i v) as (ws' & Es & Hl); [lia|].
    exists i, ws'. split; [exact Ei|]. split; [exact Es | lia]. }
  split.
  - intros (H1 & H2 & H3).
    destruct (Hstep k1 (repeat 0.0 n) (repeat_length _ _) H1 v1)
      as (i1 & ws1 & Ei1 & Es1 & L1).
    rewrite Ei1; cbn [bind]; rewrite Es1; cbn [bind].
    destruct (Hstep k2 ws1 L1 H2 v2) as (i2 & ws2 & Ei2 & Es2 & L2).
    rewrite Ei2; cbn [bind]; rewrite Es2; cbn [bind].
    destruct (Hstep k3 ws2 L2 H3 v3) as (i3 & ws3 & Ei3 & Es3 & L3).
    rewrite Ei3; cbn [bind]; rewrite Es3; cbn [bind].
    now exists ws3.
  - intros Hnot.
    destruct (in_dec string_dec k1 names) as [H1|H1];
      [|now rewrite (list_index_not_in names k1 H1)].
    destruct (Hstep k1 (repeat 0.0 n) (repeat_length _ _) H1 v1)
      as (i1 & ws1 & Ei1 & Es1 & L1).
    rewrite Ei1; cbn [bind]; rewrite Es1; cbn [bind].
    destruct (in_dec string_dec k2 names) as [H2|H2];
      [|now rewrite (list_index_not_in names k2 H2)].
    destruct (Hstep k2 ws1 L1 H2 v2) as (i2 & ws2 & Ei2 & Es2 & L2).
    rewrite Ei2; cbn [bind]; rewrite Es2; cbn [bind].
    destruct (in_dec string_dec k3 names) as [H3|H3];
      [|now rewrite (list_index_not_in names k3 H3)].
    exfalso. apply Hnot. now repeat split.
Qed.

Lemma set_zero_weights_again (g : GLTF2) (p : Primitive) (ws : list R)
      (names : list string) :
  meshes g = [mkGLTFMesh [p] ws names] ->
  set_mesh_weights g ws = Ok g.
Proof.
  intros Hm. unfold set_mesh_weights. rewrite Hm.
  destruct g as [b bv ac ma ms nd sc s bl]. cbn in *. now subst.
Qed.

Lemma describe_morph_loop_raises (offs : dict nat)
      (ms : list (string * field)) :
  (forall name delta, In (name, delta) ms ->
     exists off, dict_get offs name = Ok off) ->
  (exists name, In (name, []) ms) ->
  forall st, for_each ms (Ultra.describe_morph offs) st = Raise ValueError.
Proof.
  induction ms as [|[n d] ms IH]; intros Hoff (name & Hin) st;
    [contradiction|].
  destruct st as [[bv ac] acc].
  destruct (Hoff n d (or_introl eq_refl)) as [off Eoff].
  cbn [for_each Ultra.describe_morph]. rewrite Eoff. cbn [bind].
  destruct d as [|v d]; [reflexivity|].
  destruct (axis0_max_ok (v :: d)) as [mx ->]; [discriminate|].
  destruct (axis0_min_ok (v :: d)) as [mn ->]; [discriminate|].
  cbn [bind]. apply IH.
  - intros name' delta' H. apply (Hoff name' delta'). now right.
  - exists name. destruct Hin as [E|Hin]; [discriminate | exact Hin].
Qed.

Section SerializerFailures.

Local Set Default Proof Using "Type*".

Variable f32_bytes : R -> list byte.
Hypothesis f32_bytes_len : forall x, length (f32_bytes x) = 4%nat.
Variable vertex_normals : field -> list face -> field.

Lemma ultra_export_raises (verts : field) (fcs : list face) (normals : field)
      (morphs : dict field) :
  dict_wf morphs ->
  verts = [] \/ (exists name, In (name, []) morphs) ->
  Ultra.export_glb f32_bytes verts fcs normals morphs = Raise ValueError.
Proof.
  intros Hwf Hempty. unfold Ultra.export_glb.
  cbn [app length]. unfold dict_items.
  match goal with
  | |- context [fold_left ?f ?l ?s] =>
      destruct (fold_left f l s) as [m_offs buf] eqn:Efold;
      pose proof (fun k name delta =>
                    write_morph_offs_nth f32_bytes f32_bytes_len
                      morphs [] (snd s) k name delta Hwf)
        as Hoffs
  end.
  cbn [snd] in Hoffs.
  pose proof (f_equal fst Efold) as Hfst. cbn [fst] in Hfst.
  destruct verts as [|v verts]; [reflexivity|].
  destruct Hempty as [Hv|Hd]; [discriminate|].
  destruct (axis0_max_ok (v :: verts)) as [vmax ->]; [discriminate|].
  destruct (axis0_min_ok (v :: verts)) as [vmin ->]; [discriminate|].
  cbn [bind].
  rewrite (describe_morph_loop_raises m_offs morphs); [reflexivity| |exact Hd].
  intros name delta Hin.
  destruct (In_nth_error _ _ Hin) as [k Hk].
  eexists. rewrite <- Hfst. exact (Hoffs k name delta Hk).
Qed.

Lemma fixed_describe_loop_raises (mt : dict field) (ns : list string) :
  forall (s : nat) st,
    (forall name, In name ns -> exists delta, dict_get mt name = Ok delta) ->
    (exists name, In name ns /\ dict_get mt name = Ok []) ->
    for_each (combine (seq s (length ns)) ns)
             (Fixed.describe_morph f32_bytes mt) st
    = Raise ValueError.
Proof.
  induction ns as [|n ns IH]; intros s st Hget (name & Hin & Hempty);
    [contradiction|].
  destruct st as [[[bv ac] idxs] off].
  destruct (Hget n (or_introl eq_refl)) as [d Ed].
  cbn [length seq combine for_each]. unfold Fixed.describe_morph at 1.
  rewrite Ed. cbn [bind].
  destruct d as [|v d]; [reflexivity|].
  destruct (axis0_max_ok (v :: d)) as [mx ->]; [discriminate|].
  destruct (axis0_min_ok (v :: d)) as [mn ->]; [discriminate|].
  cbn [bind]. apply IH.
  - intros name' H. apply Hget. now right.
  - exists name. split; [|exact Hempty].
    destruct Hin as [E|Hin]; [|exact Hin].
    subst n. rewrite Hempty in Ed. discriminate.
Qed.

Lemma fixed_export_raises (verts : field) (fcs : list face)
      (mt : dict field) :
  dict_wf mt ->
  verts = [] \/ (exists name, In (name, []) mt) ->
  Fixed.export_to_glb f32_bytes vertex_normals verts fcs mt
  = Raise ValueError.
Proof.
  intros Hwf Hempty. unfold Fixed.export_to_glb.
  pose proof (map_result_dict_items mt Hwf) as Hds.
  rewrite (add_morph_bytes_loop f32_bytes f32_bytes_len
             mt (dict_keys mt) (map snd mt) [] Hds).
  cbn [bind app].
  destruct verts as [|v verts]; [reflexivity|].
  destruct Hempty as [Hv|(name & Hin)]; [discriminate|].
  destruct (axis0_max_ok (v :: verts)) as [vmax ->]; [discriminate|].
  destruct (axis0_min_ok (v :: verts)) as [vmin ->]; [discriminate|].
  cbn [bind]. unfold enumerate.
  rewrite (fixed_describe_loop_raises mt (dict_keys mt)); [reflexivity| |].
  - intros n Hn. unfold dict_keys in Hn. apply in_map_iff in Hn.
    destruct Hn as [[n' d] [<- Hn]].
    destruct (In_nth_error _ _ Hn) as [k Hk].
    exists d. exact (dict_get_nth mt k n' d Hwf Hk).
  - exists name. split.
    + unfold dict_keys. apply in_map_iff. now exists (name, []).
    + destruct (In_nth_error _ _ Hin) as [k Hk].
      exact (dict_get_nth mt k name [] Hwf Hk).
Qed.

(** X13: when the vertex array is empty, or some morph target has no
    rows, each of the three serializers stops with [ValueError] (the
    extremum of an empty array), and the runs that would save the three
    variants write no file at all. *)
Theorem empty_array_stops_the_export (verts : field) (fcs : list face)
        (normals : field) (morphs : dict field) :
  dict_wf morphs ->
  verts = [] \/ (exists name, In (name, []) morphs) ->
  Ultra.export_glb f32_bytes verts fcs normals morphs = Raise ValueError /\
  Ultra.main_export f32_bytes verts fcs normals morphs
  = ([], Raise ValueError) /\
  Fixed.export_to_glb f32_bytes vertex_normals verts fcs morphs
  = Raise ValueError /\
  HQ.build_gltf f32_bytes verts normals fcs morphs = Raise ValueError /\
  HQ.write_variants f32_bytes verts normals fcs morphs
  = ([], Raise ValueError).
Proof.
  intros Hwf Hempty.
  pose proof (ultra_export_raises verts fcs normals morphs Hwf Hempty) as HU.
  assert (HH : HQ.build_gltf f32_bytes verts normals fcs morphs
               = Raise ValueError).
  { rewrite (hq_build_as_ultra f32_bytes f32_bytes_len). now rewrite HU. }
  split; [exact HU|]. split.
  - unfold Ultra.main_export. now rewrite HU.
  - split; [exact (fixed_export_raises verts fcs morphs Hwf Hempty)|].
    split; [exact HH|].
    unfold HQ.write_variants. now rewrite HH.
Qed.

Lemma ultra_main_export_by_keys (verts : field) (fcs : list face)
      (normals : field) (morphs : dict field) (g : GLTF2)
      (names : list string) :
  dict_wf morphs ->
  Ultra.export_glb f32_bytes verts fcs normals morphs = Ok (g, names) ->
  (In "Weight"%string (dict_keys morphs) /\
   In "AbdomenGirth"%string (dict_keys morphs) /\
   In "DiabetesEffect"%string (dict_keys morphs) ->
   exists g2,
     Ultra.main_export f32_bytes verts fcs normals morphs
     = ([("avatar_morphable.glb"%string, g);
         ("avatar_baseline.glb"%string, g);
         ("avatar_clinical.glb"%string, g2)], Ok tt)) /\
  (~ (In "Weight"%string (dict_keys morphs) /\
      In "AbdomenGirth"%string (dict_keys morphs) /\
      In "DiabetesEffect"%string (dict_keys morphs)) ->
   Ultra.main_export f32_bytes verts fcs normals morphs
   = ([("avatar_morphable.glb"%string, g);
       ("avatar_baseline.glb"%string, g)], Raise ValueError)).
Proof.
  intros Hwf H.
  destruct (ultra_export_mesh f32_bytes f32_bytes_len
              verts fcs normals morphs g names Hwf H) as (-> & p & Hm).
  pose proof (set_zero_weights_again g p _ _ Hm) as Hz.
  assert (Hlen : length (dict_keys morphs) = length morphs).
  { unfold dict_keys. apply length_map. }
  destruct (three_assignments_run (dict_keys morphs) (length morphs)
              "Weight" "AbdomenGirth" "DiabetesEffect" 0.6 0.7 0.5
              (set_mesh_weights g) Hlen) as [Hyes Hno].
  unfold Ultra.main_export. rewrite H, Hz. cbn [app]. split.
  - intros Hin. destruct (Hyes Hin) as (ws & _ & ->).
    destruct (set_mesh_weights_single g _ ws Hm) as (g2 & -> & _).
    now exists g2.
  - intros Hnot. now rewrite (Hno Hnot).
Qed.

Lemma hq_write_variants_by_keys (verts normals : field) (fcs : list face)
      (morphs : dict field) (g : GLTF2) :
  dict_wf morphs ->
  HQ.build_gltf f32_bytes verts normals fcs morphs = Ok g ->
  (In "DiabetesEffect"%string (dict_keys morphs) /\
   In "HypertensionEffect"%string (dict_keys morphs) /\
   In "HeartDiseaseEffect"%string (dict_keys morphs) ->
   exists g2,
     HQ.write_variants f32_bytes verts normals fcs morphs
     = ([("avatar_morphable.glb"%string, g);
         ("avatar_baseline.glb"%string, g);
         ("avatar_clinical.glb"%string, g2)], Ok tt)) /\
  (~ (In "DiabetesEffect"%string (dict_keys morphs) /\
      In "HypertensionEffect"%string (dict_keys morphs) /\
      In "HeartDiseaseEffect"%string (dict_keys morphs)) ->
   HQ.write_variants f32_bytes verts normals fcs morphs
   = ([("avatar_morphable.glb"%string, g);
       ("avatar_baseline.glb"%string, g)], Raise ValueError)).
Proof.
  intros Hwf H.
  destruct (hq_build_mesh f32_bytes f32_bytes_len
              verts normals fcs morphs g Hwf H) as (p & Hm).
  pose proof (set_zero_weights_again g p _ _ Hm) as Hz.
  assert (Hlen : length (dict_keys morphs) = length morphs).
  { unfold dict_keys. apply length_map. }
  destruct (three_assignments_run (dict_keys morphs) (length morphs)
              "DiabetesEffect" "HypertensionEffect" "HeartDiseaseEffect"
              0.5 0.3 0.4 (set_mesh_weights g) Hlen) as [Hyes Hno].
  unfold HQ.write_variants. rewrite H, Hz. cbn [app]. split.
  - intros Hin. destruct (Hyes Hin) as (ws & _ & ->).
    destruct (set_mesh_weights_single g _ ws Hm) as (g2 & -> & _).
    now exists g2.
  - intros Hnot. now rewrite (Hno Hnot).
Qed.

(** X14: once the serializer has returned, the run writes the morphable
    file and the baseline file, both holding the container just built,
    and then the clinical file exactly when the three target names it
    looks up are keys of the morph dict; when one of them is missing the
    run stops with [ValueError] after the first two files, which stay
    written.  The names are Weight, AbdomenGirth and DiabetesEffect in
    create_ultra_detailed_avatar.py and DiabetesEffect,
    HypertensionEffect and HeartDiseaseEffect in generate_hq_avatar.py. *)
Theorem clinical_file_needs_its_three_keys (verts : field) (fcs : list face)
        (normals : field) (morphs : dict field) :
  dict_wf morphs ->
  (forall g names,
     Ultra.export_glb f32_bytes verts fcs normals morphs = Ok (g, names) ->
     (In "Weight"%string (dict_keys morphs) /\
      In "AbdomenGirth"%string (dict_keys morphs) /\
      In "DiabetesEffect"%string (dict_keys morphs) ->
      exists g2,
        Ultra.main_export f32_bytes verts fcs normals morphs
        = ([("avatar_morphable.glb"%string, g);
            ("avatar_baseline.glb"%string, g);
            ("avatar_clinical.glb"%string, g2)], Ok tt)) /\
     (~ (In "Weight"%string (dict_keys morphs) /\
         In "AbdomenGirth"%string (dict_keys morphs) /\
         In "DiabetesEffect"%string (dict_keys morphs)) ->
      Ultra.main_export f32_bytes verts fcs normals morphs
      = ([("avatar_morphable.glb"%string, g);
          ("avatar_baseline.glb"%string, g)], Raise ValueError))) /\
  (forall g,
     HQ.build_gltf f32_bytes verts normals fcs morphs = Ok g ->
     (In "DiabetesEffect"%string (dict_keys morphs) /\
      In "HypertensionEffect"%string (dict_keys morphs) /\
      In "HeartDiseaseEffect"%string (dict_keys morphs) ->
      exists g2,
        HQ.write_variants f32_bytes verts normals fcs morphs
        = ([("avatar_morphable.glb"%string, g);
            ("avatar_baseline.glb"%string, g);
            ("avatar_clinical.glb"%string, g2)], Ok tt)) /\
     (~ (In "DiabetesEffect"%string (dict_keys morphs) /\
         In "HypertensionEffect"%string (dict_keys morphs) /\
         In "HeartDiseaseEffect"%string (dict_keys morphs)) ->
      HQ.write_variants f32_bytes verts normals fcs morphs
      = ([("avatar_morphable.glb"%string, g);
          ("avatar_baseline.glb"%string, g)], Raise ValueError))).
Proof.
  intros Hwf. split.
  - intros g names H. exact (ultra_main_export_by_keys _ _ _ _ _ _ Hwf H).
  - intros g H. exact (hq_write_variants_by_keys _ _ _ _ _ Hwf H).
Qed.

End SerializerFailures.

Lemma empty_array_stops_the_export_witness :
  Ultra.main_export zero_image [] [] []
                    [("Weight"%string, [(0.07, 0, 0)])]
  = ([], Raise ValueError).
Proof.
  apply (empty_array_stops_the_export zero_image (fun _ => eq_refl)
           (fun vs _ => vs) [] [] [] [("Weight"%string, [(0.07, 0, 0)])]
           sample_morphs_wf).
  left. reflexivity.
Defined.

Lemma clinical_file_needs_its_three_keys_witness :
  exists g,
    Ultra.main_export zero_image [(0, 1, 0)] [(0, 0, 0)%nat] [(0, 0, 1)]
                      [("Weight"%string, [(0.07, 0, 0)])]
    = ([("avatar_morphable.glb"%string, g);
        ("avatar_baseline.glb"%string, g)], Raise ValueError).
Proof.
  destruct (ultra_export_returns zero_image (fun _ => eq_refl)
              [(0, 1, 0)] [(0, 0, 0)%nat] [(0, 0, 1)]
              [("Weight"%string, [(0.07, 0, 0)])] sample_morphs_wf)
    as (g & names & E).
  - discriminate.
  - intros name delta [H|[]]. injection H as _ <-. discriminate.
  - exists g.
    apply (proj2 (proj1 (clinical_file_needs_its_three_keys zero_image
                           (fun _ => eq_refl)
                           [(0, 1, 0)] [(0, 0, 0)%nat] [(0, 0, 1)]
                           [("Weight"%string, [(0.07, 0, 0)])]
                           sample_morphs_wf)
                        g names E)).
    intros (_ & H & _). cbn in H. destruct H as [H|[]]. discriminate.
Defined.

(** ** Serializers: the parallel lists of the exported variants *)

Lemma aligned_with_intro (f32 : R -> list byte) (morphs : dict field)
      (w : string -> R) (g : GLTF2) (m : GLTFMesh) :
  dict_wf morphs ->
  meshes g = [m] -> targetNames m = dict_keys morphs ->
  index_consistent f32 morphs w g ->
  one_weight_per_target (length morphs) g ->
  aligned_with f32 morphs w g.
Proof.
  intros Hwf Hm Hn (m1 & p & Hm1 & Hp & Hall)
         (m2 & p2 & Hm2 & Hp2 & Hw & Ht & _).
  rewrite Hm in Hm1, Hm2. injection Hm1 as <-. injection Hm2 as <-.
  rewrite Hp in Hp2. injection Hp2 as <-.
  exists m, p. repeat (split; [assumption|]).
  intros i name delta Hi.
  assert (Hk : nth_error (targetNames m) i = Some name).
  { rewrite Hn. unfold dict_keys.
    now rewrite (map_nth_error fst i morphs Hi). }
  destruct (Hall i name Hk) as (delta' & a & acc & bv & Hg & H2 & H3 & H4
                                & H5 & H6 & H7).
  rewrite (dict_get_nth morphs i name delta Hwf Hi) in Hg.
  injection Hg as <-.
  exists a, acc, bv. now repeat split.
Qed.

(** [gltf.meshes[0].weights = ws] keeps the alignment when [ws] has one
    weight per pair. *)
Lemma aligned_with_set_weights (f32 : R -> list byte) (morphs : dict field)
      (w w' : string -> R) (g g' : GLTF2) (ws : list R) :
  aligned_with f32 morphs w g ->
  set_mesh_weights g ws = Ok g' ->
  length ws = length morphs ->
  (forall i name, nth_error (dict_keys morphs) i = Some name ->
                  nth_error ws i = Some (w' name)) ->
  aligned_with f32 morphs w' g'.
Proof.
  intros (m & p & Hm & Hp & Hn & Ht & Hw & Hall) Hset Hl Hws.
  unfold set_mesh_weights in Hset. rewrite Hm in Hset. injection Hset as <-.
  eexists. exists p.
  cbn [meshes primitives targetNames weights accessors bufferViews
       binary_blob].
  split; [reflexivity|]. split; [exact Hp|]. split; [exact Hn|].
  split; [exact Ht|]. split; [exact Hl|].
  intros i name delta Hi.
  destruct (Hall i name delta Hi) as (a & acc & bv & H1 & H2 & H3 & H4
                                      & H5 & H6 & _).
  exists a, acc, bv. repeat (split; [assumption|]).
  apply Hws. now rewrite <- Hn.
Qed.

Lemma set_mesh_weights_reads (g g' : GLTF2) (ws : list R) :
  set_mesh_weights g ws = Ok g' -> mesh_weights g' = ws.
Proof.
  unfold set_mesh_weights, mesh_weights.
  destruct (meshes g) as [|m rest]; [discriminate|].
  intros H. now injection H as <-.
Qed.

Section ExportedVariants.

Local Set Default Proof Using "Type*".

Variable f32_bytes : R -> list byte.
Hypothesis f32_bytes_len : forall x, length (f32_bytes x) = 4%nat.
Variable vertex_normals : field -> list face -> field.

Lemma ultra_export_aligned (verts : field) (fcs : list face)
      (normals : field) (morphs : dict field) (g : GLTF2)
      (names : list string) :
  dict_wf morphs ->
  Ultra.export_glb f32_bytes verts fcs normals morphs = Ok (g, names) ->
  names = dict_keys morphs /\ aligned_with f32_bytes morphs zero_weight g.
Proof.
  intros Hwf H.
  destruct (ultra_export_consistent f32_bytes f32_bytes_len
              _ _ _ _ _ _ Hwf H) as (Hn & Hic & Hone).
  destruct (ultra_export_mesh f32_bytes f32_bytes_len
              _ _ _ _ _ _ Hwf H) as (_ & p & Hm).
  split; [exact Hn|].
  now apply (aligned_with_intro f32_bytes morphs zero_weight g _ Hwf Hm).
Qed.

Lemma fixed_export_aligned (verts : field) (fcs : list face)
      (morphs : dict field) (g : GLTF2) (names : list string) :
  dict_wf morphs ->
  Fixed.export_to_glb f32_bytes vertex_normals verts fcs morphs
  = Ok (g, names) ->
  names = dict_keys morphs /\ aligned_with f32_bytes morphs zero_weight g.
Proof.
  intros Hwf H.
  destruct (fixed_export_consistent f32_bytes f32_bytes_len vertex_normals
              _ _ _ _ _ Hwf H) as (Hn & Hic & Hone).
  destruct (fixed_export_shape f32_bytes f32_bytes_len vertex_normals
              _ _ _ _ _ Hwf H)
    as (bvs & acs & a0 & _ & _ & _ & _ & _ & _ & Hm & _).
  split; [exact Hn|].
  now apply (aligned_with_intro f32_bytes morphs zero_weight g _ Hwf Hm).
Qed.

(** Every file written by the export part of [Ultra.main] is aligned with
    the dict: with zero weights in the first two files, with the clinical
    weights in the third. *)
Lemma ultra_saved_aligned (verts : field) (fcs : list face)
      (normals : field) (morphs : dict field) (saved : saved_files)
      (r : result unit) (g : GLTF2) :
  dict_wf morphs ->
  Ultra.main_export f32_bytes verts fcs normals morphs = (saved, r) ->
  (In ("avatar_morphable.glb"%string, g) saved ->
   aligned_with f32_bytes morphs zero_weight g) /\
  (In ("avatar_baseline.glb"%string, g) saved ->
   aligned_with f32_bytes morphs zero_weight g) /\
  (In ("avatar_clinical.glb"%string, g) saved ->
   aligned_with f32_bytes morphs ultra_clinical_weight g).
Proof.
  intros Hwf H.
  destruct (ultra_main_export_cases f32_bytes f32_bytes_len
              _ _ _ _ _ _ Hwf H)
    as [(e & _ & -> & _) | (g0 & names & m0 & g1 & Eexp & Hm0 & Hs1 & Hc)];
    [repeat split; contradiction|].
  destruct (ultra_export_aligned _ _ _ _ _ _ Hwf Eexp) as (Hn & H0).
  assert (H1 : aligned_with f32_bytes morphs zero_weight g1).
  { apply (aligned_with_set_weights f32_bytes morphs zero_weight zero_weight
             g0 g1 _ H0 Hs1); [apply repeat_length|].
    intros i name Hi. apply nth_error_repeat.
    rewrite <- (length_map fst morphs). apply nth_error_Some.
    unfold dict_keys in Hi. now rewrite Hi. }
  assert (H2 : forall ws g2,
             set_mesh_weights g1 ws = Ok g2 -> length ws = length morphs ->
             (forall j name, nth_error names j = Some name ->
                nth_error ws j = Some (ultra_clinical_weight name)) ->
             aligned_with f32_bytes morphs ultra_clinical_weight g2).
  { intros ws g2 Hs2 Hl Hw.
    apply (aligned_with_set_weights f32_bytes morphs zero_weight
             ultra_clinical_weight g1 g2 ws H1 Hs2 Hl).
    now rewrite <- Hn. }
  destruct Hc as [(e & -> & _) | (ws & g2 & i & -> & _ & Hs2 & Hl & _ & Hw)].
  - split; [|split]; intros Hin;
      destruct Hin as [E|[E|[]]]; try discriminate;
      now injection E as <-.
  - split; [|split]; intros Hin;
      destruct Hin as [E|[E|[E|[]]]]; try discriminate;
      injection E as <-; try assumption.
    exact (H2 ws g2 Hs2 Hl Hw).
Qed.

(** On non-empty arrays the export part of [Ultra.main] writes the
    morphable and the baseline file, both holding the container of
    [export_glb], and then the clinical file, whose weights are the
    clinical ones, when the dict has the three keys it looks up; it
    stops after the first two files otherwise. *)
Lemma ultra_variants_run (verts : field) (fcs : list face)
      (normals : field) (morphs : dict field) :
  dict_wf morphs -> verts <> [] ->
  (forall name delta, In (name, delta) morphs -> delta <> []) ->
  exists g0,
    Ultra.export_glb f32_bytes verts fcs normals morphs
    = Ok (g0, dict_keys morphs) /\
    (In "Weight"%string (dict_keys morphs) /\
     In "AbdomenGirth"%string (dict_keys morphs) /\
     In "DiabetesEffect"%string (dict_keys morphs) ->
     exists g2,
       Ultra.main_export f32_bytes verts fcs normals morphs
       = ([("avatar_morphable.glb"%string, g0);
           ("avatar_baseline.glb"%string, g0);
           ("avatar_clinical.glb"%string, g2)], Ok tt) /\
       forall j name, nth_error (dict_keys morphs) j = Some name ->
         nth_error (mesh_weights g2) j = Some (ultra_clinical_weight name)) /\
    (~ (In "Weight"%string (dict_keys morphs) /\
        In "AbdomenGirth"%string (dict_keys morphs) /\
        In "DiabetesEffect"%string (dict_keys morphs)) ->
     Ultra.main_export f32_bytes verts fcs normals morphs
     = ([("avatar_morphable.glb"%string, g0);
         ("avatar_baseline.glb"%string, g0)], Raise ValueError)).
Proof.
  intros Hwf Hv Hd.
  destruct (ultra_export_returns f32_bytes f32_bytes_len
              verts fcs normals morphs Hwf Hv Hd) as (g0 & names & E).
  destruct (ultra_export_mesh f32_bytes f32_bytes_len
              _ _ _ _ _ _ Hwf E) as (-> & _).
  destruct (ultra_main_export_by_keys f32_bytes f32_bytes_len
              _ _ _ _ _ _ Hwf E) as [Hyes Hno].
  exists g0. split; [exact E|]. split; [|exact Hno].
  intros Hk. destruct (Hyes Hk) as (g2 & Em). exists g2.
  split; [exact Em|].
  destruct (ultra_main_export_cases f32_bytes f32_bytes_len
              _ _ _ _ _ _ Hwf Em)
    as [(e & _ & Hs & _) | (g0' & names & m0 & g1 & Eexp & _ & _ & Hc)];
    [discriminate|].
  rewrite E in Eexp. injection Eexp as <- <-.
  destruct Hc as [(e & _ & He) | (ws & g2' & i & Hs & _ & Hs2 & _ & _ & Hw)];
    [discriminate|].
  injection Hs as _ <-.
  now rewrite (set_mesh_weights_reads _ _ _ Hs2).
Qed.

(** C9: every container written by the export part of [Ultra.main]
    (morphable, baseline and clinical) and the container written by
    either serializer has exactly one weight, one [targets] entry and one
    target name per morph target.  On non-empty arrays both serializers
    return, and the export part of [Ultra.main] writes the morphable and
    the baseline file and, when the dict holds the three keys it looks
    up, the clinical file, whose weights are then the overridden ones
    (0.6, 0.7 and 0.5 at the positions of Weight, AbdomenGirth and
    DiabetesEffect, zero elsewhere) and still number one per morph
    target; without the three keys it stops with [ValueError] after the
    first two files. *)
Theorem one_weight_per_morph_target (verts : field) (fcs : list face)
        (normals : field) (morphs : dict field) :
  dict_wf morphs ->
  (forall saved r fname g,
     Ultra.main_export f32_bytes verts fcs normals morphs = (saved, r) ->
     In (fname, g) saved ->
     one_weight_per_target (length morphs) g) /\
  (forall g names,
     Ultra.export_glb f32_bytes verts fcs normals morphs = Ok (g, names) ->
     one_weight_per_target (length morphs) g) /\
  (forall g names,
     Fixed.export_to_glb f32_bytes vertex_normals verts fcs morphs
     = Ok (g, names) ->
     one_weight_per_target (length morphs) g) /\
  (verts <> [] ->
   (forall name delta, In (name, delta) morphs -> delta <> []) ->
   (exists g names,
      Ultra.export_glb f32_bytes verts fcs normals morphs = Ok (g, names)) /\
   (exists g names,
      Fixed.export_to_glb f32_bytes vertex_normals verts fcs morphs
      = Ok (g, names)) /\
   (In "Weight"%string (dict_keys morphs) /\
    In "AbdomenGirth"%string (dict_keys morphs) /\
    In "DiabetesEffect"%string (dict_keys morphs) ->
    exists g0 g2,
      Ultra.main_export f32_bytes verts fcs normals morphs
      = ([("avatar_morphable.glb"%string, g0);
          ("avatar_baseline.glb"%string, g0);
          ("avatar_clinical.glb"%string, g2)], Ok tt) /\
      one_weight_per_target (length morphs) g0 /\
      one_weight_per_target (length morphs) g2 /\
      length (mesh_weights g2) = length morphs /\
      forall j name, nth_error (dict_keys morphs) j = Some name ->
        nth_error (mesh_weights g2) j = Some (ultra_clinical_weight name)) /\
   (~ (In "Weight"%string (dict_keys morphs) /\
       In "AbdomenGirth"%string (dict_keys morphs) /\
       In "DiabetesEffect"%string (dict_keys morphs)) ->
    exists g0,
      Ultra.main_export f32_bytes verts fcs normals morphs
      = ([("avatar_morphable.glb"%string, g0);
          ("avatar_baseline.glb"%string, g0)], Raise ValueError) /\
      one_weight_per_target (length morphs) g0)).
Proof.
  intros Hwf.
  assert (Hsaved : forall saved r fname g,
             Ultra.main_export f32_bytes verts fcs normals morphs
             = (saved, r) ->
             In (fname, g) saved ->
             one_weight_per_target (length morphs) g).
  { intros saved r fname g H Hin.
    destruct (ultra_main_export_cases f32_bytes f32_bytes_len
                _ _ _ _ _ _ Hwf H)
      as [(e & _ & -> & _) | (g0 & names & m0 & g1 & Eexp & Hm0 & Hs1 & Hc)];
      [contradiction|].
    destruct (ultra_export_consistent f32_bytes f32_bytes_len
                _ _ _ _ _ _ Hwf Eexp) as (_ & _ & H0).
    assert (H1 : one_weight_per_target (length morphs) g1).
    { apply (one_weight_set_weights _ g0 g1 _ H0 Hs1). apply repeat_length. }
    destruct Hc as [(e & -> & _) | (ws & g2 & i & -> & _ & Hs2 & Hl & _)].
    + destruct Hin as [E|[E|[]]]; injection E as _ <-; assumption.
    + destruct Hin as [E|[E|[E|[]]]]; injection E as _ <-; try assumption.
      exact (one_weight_set_weights _ g1 g2 ws H1 Hs2 Hl). }
  split; [exact Hsaved|]. split; [|split].
  - intros g names H.
    now destruct (ultra_export_consistent f32_bytes f32_bytes_len
                    _ _ _ _ _ _ Hwf H) as (_ & _ & H0).
  - intros g names H.
    now destruct (fixed_export_consistent f32_bytes f32_bytes_len
                    vertex_normals _ _ _ _ _ Hwf H) as (_ & _ & H0).
  - intros Hv Hd.
    destruct (ultra_variants_run verts fcs normals morphs Hwf Hv Hd)
      as (g0 & E & Hyes & Hno).
    split; [now exists g0, (dict_keys morphs)|].
    split; [now apply (fixed_export_returns f32_bytes f32_bytes_len)|].
    split.
    + intros Hk. destruct (Hyes Hk) as (g2 & Em & Hw).
      exists g0, g2. split; [exact Em|].
      assert (H2 : one_weight_per_target (length morphs) g2).
      { apply (Hsaved _ _ "avatar_clinical.glb"%string g2 Em).
        cbn. tauto. }
      split; [apply (Hsaved _ _ "avatar_morphable.glb"%string g0 Em);
              cbn; tauto|].
      split; [exact H2|]. split; [|exact Hw].
      destruct H2 as (m & p & Hm & _ & Hl & _).
      unfold mesh_weights. now rewrite Hm.
    + intros Hk. exists g0. split; [exact (Hno Hk)|].
      apply (Hsaved _ _ "avatar_morphable.glb"%string g0 (Hno Hk)).
      cbn. tauto.
Qed.

(** C10: in the container written by either serializer, and in each of
    the three files of the export part of [Ultra.main], the names, the
    [targets] entries and the weights follow the one ordered list of
    (name, field) pairs of the dict: the target names are exactly the
    keys in dict order, there is one [targets] entry and one weight per
    pair, and at the position of every pair the accessor of the
    [targets] entry views exactly the bytes of that pair's field and the
    weight is the weight of that pair's name (zero in the container of a
    serializer and in the morphable and baseline files, the clinical
    value in the clinical file).  On non-empty arrays both serializers
    return and, when the dict holds the three keys looked up, the three
    files are written. *)
Theorem names_targets_weights_aligned (verts : field) (fcs : list face)
        (normals : field) (morphs : dict field) :
  dict_wf morphs ->
  (forall g names,
     Ultra.export_glb f32_bytes verts fcs normals morphs = Ok (g, names) ->
     names = dict_keys morphs /\
     aligned_with f32_bytes morphs zero_weight g) /\
  (forall g names,
     Fixed.export_to_glb f32_bytes vertex_normals verts fcs morphs
     = Ok (g, names) ->
     names = dict_keys morphs /\
     aligned_with f32_bytes morphs zero_weight g) /\
  (forall saved r g,
     Ultra.main_export f32_bytes verts fcs normals morphs = (saved, r) ->
     (In ("avatar_morphable.glb"%string, g) saved ->
      aligned_with f32_bytes morphs zero_weight g) /\
     (In ("avatar_baseline.glb"%string, g) saved ->
      aligned_with f32_bytes morphs zero_weight g) /\
     (In ("avatar_clinical.glb"%string, g) saved ->
      aligned_with f32_bytes morphs ultra_clinical_weight g)) /\
  (verts <> [] ->
   (forall name delta, In (name, delta) morphs -> delta <> []) ->
   (exists g names,
      Ultra.export_glb f32_bytes verts fcs normals morphs = Ok (g, names) /\
      aligned_with f32_bytes morphs zero_weight g) /\
   (exists g names,
      Fixed.export_to_glb f32_bytes vertex_normals verts fcs morphs
      = Ok (g, names) /\
      aligned_with f32_bytes morphs zero_weight g) /\
   (In "Weight"%string (dict_keys morphs) /\
    In "AbdomenGirth"%string (dict_keys morphs) /\
    In "DiabetesEffect"%string (dict_keys morphs) ->
    exists g0 g2,
      Ultra.main_export f32_bytes verts fcs normals morphs
      = ([("avatar_morphable.glb"%string, g0);
          ("avatar_baseline.glb"%string, g0);
          ("avatar_clinical.glb"%string, g2)], Ok tt) /\
      aligned_with f32_bytes morphs zero_weight g0 /\
      aligned_with f32_bytes morphs ultra_clinical_weight g2)).
Proof.
  intros Hwf. split; [|split; [|split]].
  - intros g names H. exact (ultra_export_aligned _ _ _ _ _ _ Hwf H).
  - intros g names H. exact (fixed_export_aligned _ _ _ _ _ Hwf H).
  - intros saved r g H. exact (ultra_saved_aligned _ _ _ _ _ _ _ Hwf H).
  - intros Hv Hd.
    destruct (ultra_variants_run verts fcs normals morphs Hwf Hv Hd)
      as (g0 & E & Hyes & _).
    split; [|split].
    + exists g0, (dict_keys morphs). split; [exact E|].
      exact (proj2 (ultra_export_aligned _ _ _ _ _ _ Hwf E)).
    + destruct (fixed_export_returns f32_bytes f32_bytes_len vertex_normals
                  verts fcs morphs Hwf Hv Hd) as (g & names & Ef).
      exists g, names. split; [exact Ef|].
      exact (proj2 (fixed_export_aligned _ _ _ _ _ Hwf Ef)).
    + intros Hk. destruct (Hyes Hk) as (g2 & Em & _).
      exists g0, g2. split; [exact Em|].
      destruct (ultra_saved_aligned _ _ _ _ _ _ g0 Hwf Em) as (H0 & _ & _).
      destruct (ultra_saved_aligned _ _ _ _ _ _ g2 Hwf Em) as (_ & _ & H2).
      split; [apply H0 | apply H2]; cbn; tauto.
Qed.

End ExportedVariants.

Lemma sample_targets_nonempty (name : string) (delta : field) :
  In (name, delta) (Ultra.create_morph_targets [(0, 1, 0)] 1) ->
  delta <> [].
Proof.
  intros Hin Hnil. apply ultra_morph_lengths in Hin. now subst delta.
Qed.

Lemma sample_targets_keys :
  In "Weight"%string (dict_keys (Ultra.create_morph_targets [(0, 1, 0)] 1)) /\
  In "AbdomenGirth"%string
     (dict_keys (Ultra.create_morph_targets [(0, 1, 0)] 1)) /\
  In "DiabetesEffect"%string
     (dict_keys (Ultra.create_morph_targets [(0, 1, 0)] 1)).
Proof. rewrite ultra_morph_keys. cbn. tauto. Qed.

Lemma one_weight_per_morph_target_witness :
  exists g0 g2,
    Ultra.main_export zero_image [(0, 1, 0)] [(0, 0, 0)%nat] [(0, 0, 1)]
                      (Ultra.create_morph_targets [(0, 1, 0)] 1)
    = ([("avatar_morphable.glb"%string, g0);
        ("avatar_baseline.glb"%string, g0);
        ("avatar_clinical.glb"%string, g2)], Ok tt) /\
    one_weight_per_target 7 g0 /\
    one_weight_per_target 7 g2 /\
    length (mesh_weights g2) = 7%nat /\
    nth_error (mesh_weights g2) 0 = Some 0.6 /\
    nth_error (mesh_weights g2) 1 = Some 0.7 /\
    nth_error (mesh_weights g2) 4 = Some 0.5.
Proof.
  destruct (proj2 (proj2 (proj2
              (one_weight_per_morph_target zero_image (fun _ => eq_refl)
                 (fun vs _ => vs) [(0, 1, 0)] [(0, 0, 0)%nat] [(0, 0, 1)]
                 (Ultra.create_morph_targets [(0, 1, 0)] 1)
                 (ultra_morph_wf [(0, 1, 0)] 1))))
              ltac:(discriminate) sample_targets_nonempty)
    as (_ & _ & Hrun & _).
  destruct (Hrun sample_targets_keys) as (g0 & g2 & E & H0 & H2 & Hl & Hw).
  exists g0, g2. split; [exact E|]. split; [exact H0|]. split; [exact H2|].
  split; [exact Hl|].
  split; [exact (Hw 0%nat "Weight"%string eq_refl)|].
  split; [exact (Hw 1%nat "AbdomenGirth"%string eq_refl)
         |exact (Hw 4%nat "DiabetesEffect"%string eq_refl)].
Defined.

Lemma names_targets_weights_aligned_witness :
  exists g0 g2,
    Ultra.main_export zero_image [(0, 1, 0)] [(0, 0, 0)%nat] [(0, 0, 1)]
                      (Ultra.create_morph_targets [(0, 1, 0)] 1)
    = ([("avatar_morphable.glb"%string, g0);
        ("avatar_baseline.glb"%string, g0);
        ("avatar_clinical.glb"%string, g2)], Ok tt) /\
    aligned_with zero_image (Ultra.create_morph_targets [(0, 1, 0)] 1)
                 zero_weight g0 /\
    aligned_with zero_image (Ultra.create_morph_targets [(0, 1, 0)] 1)
                 ultra_clinical_weight g2.
Proof.
  destruct (proj2 (proj2 (proj2
              (names_targets_weights_aligned zero_image (fun _ => eq_refl)
                 (fun vs _ => vs) [(0, 1, 0)] [(0, 0, 0)%nat] [(0, 0, 1)]
                 (Ultra.create_morph_targets [(0, 1, 0)] 1)
                 (ultra_morph_wf [(0, 1, 0)] 1))))
              ltac:(discriminate) sample_targets_nonempty)
    as (_ & _ & Hrun).
  exact (Hrun sample_targets_keys).
Defined.

(** ** Morph targets: shape and size of the displacements *)

Lemma exp_nonpos_le_1 (x : R) : x <= 0 -> exp x <= 1.
Proof.
  intros [Hx|Hx].
  - rewrite <- exp_0. left. now apply exp_increasing.
  - subst x. rewrite exp_0. apply Rle_refl.
Qed.

(** The bell factor [exp(-(t ** 2) / c)] lies in (0, 1]. *)
Lemma bell_factor_bounds (t c : R) :
  0 < c -> 0 < exp ((- (t ^ 2)) / c) <= 1.
Proof.
  intros Hc. split; [apply exp_pos|]. apply exp_nonpos_le_1.
  pose proof (pow2_ge_0 t) as Ht.
  assert (Hi : 0 < / c) by now apply Rinv_0_lt_compat.
  unfold Rdiv. nra.
Qed.

Lemma norm3_vzero : norm3 vzero = 0.
Proof.
  unfold norm3, vzero. cbn [vx vy vz fst snd].
  replace (0 ^ 2 + 0 ^ 2 + 0 ^ 2) with 0 by ring. apply sqrt_0.
Qed.

Lemma norm3_flat (x z : R) : norm3 (x, 0, z) = radial x z.
Proof.
  unfold norm3, radial. cbn [vx vy vz fst snd]. f_equal. ring.
Qed.

(** The norm of a non-negative multiple of the radial direction. *)
Lemma norm3_radial_multiple (w : vec3) (x z k : R) :
  0 <= k -> vx w = k * x -> vy w = 0 -> vz w = k * z ->
  norm3 w = k * radial x z.
Proof.
  intros Hk Hx Hy Hz. unfold norm3, radial. rewrite Hx, Hy, Hz.
  pose proof (sqrt_pos (x ^ 2 + z ^ 2)) as Hs.
  apply sqrt_of_square; [nra|].
  replace (k * sqrt (x ^ 2 + z ^ 2) * (k * sqrt (x ^ 2 + z ^ 2)))
    with (k * k * (sqrt (x ^ 2 + z ^ 2) * sqrt (x ^ 2 + z ^ 2))) by ring.
  rewrite sqrt_sqrt by nra. ring.
Qed.

Lemma vscale_vscale (v : vec3) (a b : R) :
  vscale (vscale v a) b = vscale v (a * b).
Proof.
  unfold vscale. cbn [vx vy vz fst snd]. f_equal; [f_equal|]; ring.
Qed.

(** A scaled radial direction of create_fixed_avatar.py is shorter than
    the scale: the direction is divided by its norm plus [1e-6]. *)
Lemma fixed_scaled_direction_norm (v : vec3) (c : R) :
  0 < c -> norm3 (vscale (Fixed.radial_direction v) c) < c.
Proof.
  intros Hc. unfold Fixed.radial_direction, Fixed.vdiv. cbv zeta.
  rewrite norm3_flat. cbn [vx vy vz fst snd].
  pose proof (radial_nonneg (vx v) (vz v)) as Hn.
  set (n := radial (vx v) (vz v)) in *.
  assert (Hq : 0 < / (n + 1e-6)) by (apply Rinv_0_lt_compat; lra).
  assert (Hone : (n + 1e-6) * / (n + 1e-6) = 1) by (apply Rinv_r; lra).
  rewrite (norm3_radial_multiple _ (vx v) (vz v) (c * / (n + 1e-6))).
  - fold n. set (q := / (n + 1e-6)) in *.
    assert (n * q < 1) by nra. nra.
  - nra.
  - unfold vscale. cbn [vx vy vz fst snd]. unfold Rdiv. ring.
  - unfold vscale. cbn [vx vy vz fst snd]. unfold Rdiv. ring.
  - unfold vscale. cbn [vx vy vz fst snd]. unfold Rdiv. ring.
Qed.

Lemma ultra_weight_row_far (height : R) (v : vec3) :
  0.01 < radial (vx v) (vz v) ->
  let f := 0.07 * (0.25 + 0.75 * exp ((- ((vy v / height - 0.65) ^ 2)) / 0.08)) in
  Ultra.weight_row height v
  = (f / radial (vx v) (vz v) * vx v, 0, f / radial (vx v) (vz v) * vz v).
Proof.
  intros Hd. unfold Ultra.weight_row. cbv zeta.
  fold (radial (vx v) (vz v)).
  rewrite (proj2 (Rltb_true _ _) Hd).
  f_equal; [f_equal|]; field; lra.
Qed.

Lemma ultra_weight_row_near (height : R) (v : vec3) :
  radial (vx v) (vz v) <= 0.01 -> Ultra.weight_row height v = vzero.
Proof.
  intros Hd. unfold Ultra.weight_row. cbv zeta.
  fold (radial (vx v) (vz v)).
  rewrite (proj2 (Rltb_false _ _)) by lra. reflexivity.
Qed.

Lemma ultra_weight_row_norm (height : R) (v : vec3) :
  0.01 < radial (vx v) (vz v) ->
  norm3 (Ultra.weight_row height v)
  = 0.07 * (0.25 + 0.75 * exp ((- ((vy v / height - 0.65) ^ 2)) / 0.08)).
Proof.
  intros Hd. rewrite ultra_weight_row_far by exact Hd. cbv zeta.
  destruct (bell_factor_bounds (vy v / height - 0.65) 0.08) as [He1 He2];
    [lra|].
  set (e := exp _) in *. set (n := radial (vx v) (vz v)) in *.
  rewrite (norm3_radial_multiple _ (vx v) (vz v)
             (0.07 * (0.25 + 0.75 * e) / n)); try reflexivity.
  - fold n. field. lra.
  - apply Rmult_le_pos; [nra|]. left. apply Rinv_0_lt_compat. lra.
Qed.

(** X15: the Weight displacement of create_ultra_detailed_avatar.py is
    horizontal and radial.  A vertex within 0.01 of the vertical axis is not
    moved; any other vertex is pushed away from the axis, along its own
    radial direction, by [0.07 * (0.25 + 0.75 * torso_factor)], which is
    more than 0.0175 and at most 0.07 whatever the height of the vertex. *)
Theorem ultra_weight_radial_and_bounded (height : R) (v : vec3) :
  let d := Ultra.weight_row height v in
  vy d = 0 /\ norm3 d <= 0.07 /\
  (radial (vx v) (vz v) <= 0.01 -> d = vzero) /\
  (0.01 < radial (vx v) (vz v) ->
   0.0175 < norm3 d /\
   exists k, 0 < k /\ d = (k * vx v, 0, k * vz v)).
Proof.
  cbv zeta.
  destruct (bell_factor_bounds (vy v / height - 0.65) 0.08) as [He1 He2];
    [lra|].
  destruct (Rlt_dec 0.01 (radial (vx v) (vz v))) as [Hd|Hd].
  - split; [rewrite ultra_weight_row_far by exact Hd; reflexivity|].
    split; [rewrite ultra_weight_row_norm by exact Hd; lra|].
    split; [intros H; lra|]. intros _.
    split; [rewrite ultra_weight_row_norm by exact Hd; lra|].
    eexists. split; [|apply ultra_weight_row_far; exact Hd].
    apply Rmult_lt_0_compat; [lra|]. apply Rinv_0_lt_compat. lra.
  - rewrite ultra_weight_row_near by lra.
    split; [reflexivity|]. split; [rewrite norm3_vzero; lra|].
    split; [reflexivity|]. intros H. lra.
Qed.

Lemma ultra_weight_radial_and_bounded_witness :
  norm3 (Ultra.weight_row 1.75 (0, 1, 0)) <= 0.07.
Proof.
  exact (proj1 (proj2 (ultra_weight_radial_and_bounded 1.75 (0, 1, 0)))).
Defined.

Lemma np_sign_abs (x : R) : Rabs (np_sign x) <= 1.
Proof.
  unfold np_sign. case_Rltb; unfold Rabs; destruct (Rcase_abs _); lra.
Qed.

Lemma ultra_abdomen_bounds (height : R) (v : vec3) :
  Rabs (vx (Ultra.abdomen_row height v)) <= 0.03 /\
  vy (Ultra.abdomen_row height v) = 0 /\
  0 <= vz (Ultra.abdomen_row height v) <= 0.15.
Proof.
  destruct (bell_factor_bounds (vy v / height - 0.60) 0.015) as [He1 He2];
    [lra|].
  destruct (Rlt_dec 0 (vz v)) as [Hz|Hz].
  - rewrite ultra_abdomen_front by exact Hz. cbv zeta. cbn [vx vy vz fst snd].
    set (e := exp _) in *.
    assert (Hm : 0 < Rmin (vz v / 0.08) 1.0 <= 1).
    { split; [apply Rmin_glb_lt; lra|].
      eapply Rle_trans; [apply Rmin_r | lra]. }
    split; [|split; [reflexivity | nra]].
    destruct (Rltb 0.05 (Rabs (vx v))).
    + pose proof (np_sign_abs (vx v)) as Hs.
      rewrite !Rabs_mult. rewrite (Rabs_pos_eq 0.03) by lra.
      rewrite (Rabs_pos_eq e) by lra.
      pose proof (Rabs_pos (np_sign (vx v))). nra.
    + rewrite Rabs_R0. lra.
  - rewrite ultra_abdomen_posterior by lra. cbn [vzero vx vy vz fst snd].
    rewrite Rabs_R0. lra.
Qed.

(** X16: sizes of two other displacements of
    create_ultra_detailed_avatar.py.  AbdomenGirth never moves a vertex
    vertically or backwards, at most 0.15 forwards and at most 0.03
    sideways.  Posture leaves every vertex at or below 82 per cent of the
    height where it is; above it the vertex is moved down and forwards
    with no lateral part, and up to the top of the body ([y_norm <= 1])
    by at most 0.07 down and 0.08 forwards. *)
Theorem ultra_abdomen_and_posture_bounds (height : R) (v : vec3) :
  (Rabs (vx (Ultra.abdomen_row height v)) <= 0.03 /\
   vy (Ultra.abdomen_row height v) = 0 /\
   0 <= vz (Ultra.abdomen_row height v) <= 0.15) /\
  (vy v / height <= 0.82 -> Ultra.posture_row height v = vzero) /\
  (0.82 < vy v / height ->
   vx (Ultra.posture_row height v) = 0 /\
   vy (Ultra.posture_row height v) < 0 /\
   0 < vz (Ultra.posture_row height v)) /\
  (vy v / height <= 1 ->
   - 0.07 <= vy (Ultra.posture_row height v) <= 0 /\
   0 <= vz (Ultra.posture_row height v) <= 0.08).
Proof.
  split; [apply ultra_abdomen_bounds|].
  unfold Ultra.posture_row. cbv zeta.
  set (yn := vy v / height).
  split; [|split].
  - intros H. rewrite (proj2 (Rltb_false 0.82 yn)) by lra. reflexivity.
  - intros H. rewrite (proj2 (Rltb_true 0.82 yn)) by lra.
    cbn [vx vy vz fst snd]. split; [reflexivity|].
    assert (Hf : 0 < (yn - 0.82) / 0.18) by (unfold Rdiv; nra).
    split; nra.
  - intros H. case_Rltb; cbn [vzero vx vy vz fst snd]; [|lra].
    assert (Hf : 0 < (yn - 0.82) / 0.18 <= 1) by (unfold Rdiv; lra).
    set (f := (yn - 0.82) / 0.18) in *.
    split; nra.
Qed.

Lemma ultra_abdomen_and_posture_bounds_witness :
  Ultra.posture_row 2 (0, 1, 0) = vzero.
Proof.
  apply (proj1 (proj2 (ultra_abdomen_and_posture_bounds 2 (0, 1, 0)))).
  cbn [vy fst snd]. lra.
Defined.

Lemma fixed_weight_row_norm (y_min y_max : R) (v : vec3) :
  norm3 (Fixed.weight_row y_min y_max v) < 0.075.
Proof.
  unfold Fixed.weight_row. cbv zeta.
  set (yn := Fixed.y_norm_of y_min y_max v).
  destruct (Rltb 0.2 yn && Rltb yn 0.9);
    [destruct (Rltb 0.02 (sqrt (vx v ^ 2 + vz v ^ 2)))|];
    try (rewrite norm3_vzero; lra).
  rewrite vscale_vscale. unfold Fixed.SCALE.
  destruct (Rltb 0.5 yn && Rltb yn 0.7);
    [|destruct (Rltb 0.3 yn && Rltb yn 0.5)];
    (eapply Rlt_le_trans; [apply fixed_scaled_direction_norm|]; lra).
Qed.

Lemma fixed_abdomen_row_norm (y_min y_max : R) (v : vec3) :
  norm3 (Fixed.abdomen_row y_min y_max v) < 0.1125.
Proof.
  unfold Fixed.abdomen_row. cbv zeta.
  set (yn := Fixed.y_norm_of y_min y_max v).
  destruct (Rltb 0.5 yn && Rltb yn 0.75);
    [destruct (Rltb 0.02 (sqrt (vx v ^ 2 + vz v ^ 2)))|];
    try (rewrite norm3_vzero; lra).
  rewrite !vscale_vscale. unfold Fixed.SCALE.
  destruct (bell_factor_bounds (yn - 0.62) 0.01) as [He1 He2]; [lra|].
  set (e := exp _) in *.
  assert (Hm : 0 <= Rmax 0 (vz v / (Rabs (vz v) + 0.01)) <= 1).
  { split; [apply Rmax_l|]. apply Rmax_lub; [lra|].
    pose proof (Rabs_pos (vz v)) as Ha.
    pose proof (Rle_abs (vz v)) as Hle.
    assert (Hq : 0 < / (Rabs (vz v) + 0.01))
      by (apply Rinv_0_lt_compat; lra).
    assert (Hone : (Rabs (vz v) + 0.01) * / (Rabs (vz v) + 0.01) = 1)
      by (apply Rinv_r; lra).
    unfold Rdiv. nra. }
  set (m := Rmax 0 (vz v / (Rabs (vz v) + 0.01))) in *.
  eapply Rlt_le_trans; [apply fixed_scaled_direction_norm|]; nra.
Qed.

Lemma fixed_muscle_row_norm (y_min y_max : R) (v : vec3) :
  norm3 (Fixed.muscle_row y_min y_max v) < 0.04.
Proof.
  unfold Fixed.muscle_row. cbv zeta.
  set (yn := Fixed.y_norm_of y_min y_max v).
  destruct (Rltb 0.02 (sqrt (vx v ^ 2 + vz v ^ 2)));
    [|rewrite norm3_vzero; lra].
  destruct ((Rltb 0.75 yn && Rltb yn 0.90) || Rltb 0.15 (Rabs (vx v)));
    [|destruct (Rltb 0.1 yn && Rltb yn 0.45)];
    try (rewrite norm3_vzero; lra);
    rewrite vscale_vscale; unfold Fixed.SCALE;
    (eapply Rlt_le_trans; [apply fixed_scaled_direction_norm|]; lra).
Qed.

Lemma fixed_posture_row_bounds (y_min y_max : R) (v : vec3) :
  vx (Fixed.posture_row y_min y_max v) = 0 /\
  vy (Fixed.posture_row y_min y_max v) = 0 /\
  0 <= vz (Fixed.posture_row y_min y_max v) < 0.00225.
Proof.
  unfold Fixed.posture_row. cbv zeta.
  set (yn := Fixed.y_norm_of y_min y_max v).
  case_Rltb; cbn [andb vzero vx vy vz fst snd]; unfold Fixed.SCALE;
    repeat split; try reflexivity; nra.
Qed.

Lemma fixed_rows_horizontal (y_min y_max : R) (v : vec3) :
  vy (Fixed.weight_row y_min y_max v) = 0 /\
  vy (Fixed.abdomen_row y_min y_max v) = 0 /\
  vy (Fixed.muscle_row y_min y_max v) = 0.
Proof.
  unfold Fixed.weight_row, Fixed.abdomen_row, Fixed.muscle_row. cbv zeta.
  repeat split;
    repeat match goal with
           | |- context [if ?b then _ else _] => destruct b
           end;
    unfold Fixed.radial_direction, Fixed.vdiv, vscale, vzero;
    cbn [vx vy vz fst snd]; unfold Rdiv; ring.
Qed.

(** X17: in create_fixed_avatar.py the Weight, AbdomenGirth and
    MuscleMass displacements of a vertex are horizontal (their Y
    component is 0) and shorter than 0.0751, 0.1126 and 0.0401, whatever
    the vertex and the vertical extent of the mesh: each is the radial
    direction, divided by its norm plus [1e-6], times factors whose
    product is at most 0.075, 0.1125 and 0.04.  The bounds are stated
    with a margin above these products, so that they do not depend on
    how the stored single-precision rows are rounded.  Posture moves a
    vertex forwards only, by less than 0.0023. *)
Theorem fixed_displacements_bounded (y_min y_max : R) (v : vec3) :
  (vy (Fixed.weight_row y_min y_max v) = 0 /\
   norm3 (Fixed.weight_row y_min y_max v) < 0.0751) /\
  (vy (Fixed.abdomen_row y_min y_max v) = 0 /\
   norm3 (Fixed.abdomen_row y_min y_max v) < 0.1126) /\
  (vy (Fixed.muscle_row y_min y_max v) = 0 /\
   norm3 (Fixed.muscle_row y_min y_max v) < 0.0401) /\
  vx (Fixed.posture_row y_min y_max v) = 0 /\
  vy (Fixed.posture_row y_min y_max v) = 0 /\
  0 <= vz (Fixed.posture_row y_min y_max v) < 0.0023.
Proof.
  destruct (fixed_rows_horizontal y_min y_max v) as (Hw & Ha & Hm).
  pose proof (fixed_weight_row_norm y_min y_max v).
  pose proof (fixed_abdomen_row_norm y_min y_max v).
  pose proof (fixed_muscle_row_norm y_min y_max v).
  destruct (fixed_posture_row_bounds y_min y_max v) as (Hx & Hy & Hz).
  repeat split; try assumption; lra.
Qed.

(** *** The seven targets *)

Lemma fixed_morph_lengths (vs : field) (height : R) (m : dict field)
      (name : string) (delta : field) :
  Fixed.create_morph_targets vs height = Ok m ->
  In (name, delta) m -> length delta = length vs.
Proof.
  intros Hm.
  destruct (fixed_morph_items vs height m Hm) as (y_min & y_max & _ & _ & E).
  cbv zeta in E. unfold dict_items in E. rewrite E. clear E.
  unfold Fixed.diabetes_field, Fixed.hypertension_field, Fixed.heart_field.
  cbn [In]. intros H.
  repeat (destruct H as [H|H]; [injection H as _ <-|]); try contradiction;
    repeat (rewrite ?length_map, ?arr_add_length, ?arr_scale_length);
    reflexivity.
Qed.

Lemma fixed_morph_keys (vs : field) (height : R) (m : dict field) :
  Fixed.create_morph_targets vs height = Ok m ->
  dict_keys m
  = ["Weight"; "AbdomenGirth"; "MuscleMass"; "Posture"; "DiabetesEffect";
     "HypertensionEffect"; "HeartDiseaseEffect"]%string.
Proof.
  intros Hm.
  destruct (fixed_morph_items vs height m Hm) as (y_min & y_max & _ & _ & E).
  cbv zeta in E. unfold dict_items in E. rewrite E. reflexivity.
Qed.

(** X18: both synthesizers build the same seven targets, in the same
    order, and every target has exactly one displacement row per vertex
    (the composites included).  The synthesizer of
    create_ultra_detailed_avatar.py returns on every array, also the empty
    one; the one of create_fixed_avatar.py stops with [ValueError] on an
    empty vertex array, where it takes the minimum of the heights, and
    returns on every other. *)
Theorem morph_targets_cover_every_vertex (vs : field) (height : R) :
  (dict_keys (Ultra.create_morph_targets vs height)
   = ["Weight"; "AbdomenGirth"; "MuscleMass"; "Posture"; "DiabetesEffect";
      "HypertensionEffect"; "HeartDiseaseEffect"]%string /\
   forall name delta,
     In (name, delta) (Ultra.create_morph_targets vs height) ->
     length delta = length vs) /\
  (vs = [] -> Fixed.create_morph_targets vs height = Raise ValueError) /\
  (vs <> [] ->
   exists m,
     Fixed.create_morph_targets vs height = Ok m /\
     dict_keys m
     = ["Weight"; "AbdomenGirth"; "MuscleMass"; "Posture"; "DiabetesEffect";
        "HypertensionEffect"; "HeartDiseaseEffect"]%string /\
     forall name delta, In (name, delta) m -> length delta = length vs).
Proof.
  split; [split|split].
  - apply ultra_morph_keys.
  - intros name delta. apply ultra_morph_lengths.
  - intros ->. reflexivity.
  - intros Hne. destruct (fixed_morph_returns vs height Hne) as [m Hm].
    exists m. split; [exact Hm|].
    split; [exact (fixed_morph_keys vs height m Hm)|].
    intros name delta. exact (fixed_morph_lengths vs height m name delta Hm).
Qed.

Lemma morph_targets_cover_every_vertex_witness :
  exists m,
    Fixed.create_morph_targets [(0, 1, 0)] 1.75 = Ok m /\
    dict_keys m
    = ["Weight"; "AbdomenGirth"; "MuscleMass"; "Posture"; "DiabetesEffect";
       "HypertensionEffect"; "HeartDiseaseEffect"]%string /\
    forall name delta, In (name, delta) m -> length delta = 1%nat.
Proof.
  apply (proj2 (proj2 (morph_targets_cover_every_vertex [(0, 1, 0)] 1.75))).
  discriminate.
Defined.

(** ** Cylinder segment *)

Lemma cylinder_loop (center : vec3) (radius_x radius_z height : R)
      (n_radial n_height : nat) (hs : list nat) :
  n_height <> 0%nat ->
  forall vs,
    for_each hs
      (Fixed.cylinder_ring center radius_x radius_z height n_radial n_height)
      vs
    = Ok (vs ++ flat_map
            (fun h =>
               map (fun r =>
                      (vx center
                       + radius_x * cos (2 * PI * INR r / INR n_radial),
                       vy center
                       + (INR h / INR n_height - 0.5) * height,
                       vz center
                       + radius_z * sin (2 * PI * INR r / INR n_radial)))
                   (seq 0 n_radial))
            hs).
Proof.
  intros Hn. apply Nat.eqb_neq in Hn.
  induction hs as [|h hs IH]; intros vs; cbn [for_each flat_map].
  - now rewrite app_nil_r.
  - unfold Fixed.cylinder_ring at 1. rewrite Hn. cbv zeta. cbn [bind].
    rewrite IH. now rewrite <- app_assoc.
Qed.

Lemma flat_map_const_length {A B : Type} (f : A -> list B) (n : nat)
      (xs : list A) :
  (forall x, length (f x) = n) ->
  length (flat_map f xs) = (length xs * n)%nat.
Proof.
  intros H. induction xs as [|x xs IH]; [reflexivity|].
  cbn [flat_map length]. rewrite length_app, H, IH. lia.
Qed.

(** X19: [create_cylinder_segment] with [n_height = 0] stops with
    [ZeroDivisionError] ([h / n_height]).  With [n_height > 0] it returns
    [(n_height + 1) * n_radial] points; each lies on the ellipse of
    semi-axes [radius_x] and [radius_z] around the centre, and, for a
    non-negative height, at most [height / 2] above or below the centre. *)
Theorem cylinder_segment_points (center : vec3) (radius_x radius_z height : R)
        (n_radial n_height : nat) :
  (n_height = 0%nat ->
   Fixed.create_cylinder_segment center radius_x radius_z height
                                 n_radial n_height
   = Raise ZeroDivisionError) /\
  ((0 < n_height)%nat ->
   exists vs,
     Fixed.create_cylinder_segment center radius_x radius_z height
                                   n_radial n_height = Ok vs /\
     length vs = ((n_height + 1) * n_radial)%nat /\
     forall v, In v vs ->
       (vx v - vx center) ^ 2 * radius_z ^ 2
       + (vz v - vz center) ^ 2 * radius_x ^ 2
       = radius_x ^ 2 * radius_z ^ 2 /\
       (0 <= height -> Rabs (vy v - vy center) <= height / 2)).
Proof.
  split.
  - intros ->. reflexivity.
  - intros Hn. unfold Fixed.create_cylinder_segment.
    rewrite cylinder_loop by lia. cbn [app].
    eexists. split; [reflexivity|]. split.
    + rewrite (flat_map_const_length _ n_radial).
      * now rewrite length_seq.
      * intros h. now rewrite length_map, length_seq.
    + intros v Hv. apply in_flat_map in Hv. destruct Hv as (h & Hh & Hv).
      apply in_map_iff in Hv. destruct Hv as (r & <- & _).
      cbn [vx vy vz fst snd]. split.
      * set (a := 2 * PI * INR r / INR n_radial).
        pose proof (sin2_cos2 a) as Hsc. unfold Rsqr in Hsc.
        replace ((vx center + radius_x * cos a - vx center) ^ 2
                   * radius_z ^ 2
                 + (vz center + radius_z * sin a - vz center) ^ 2
                   * radius_x ^ 2)
          with (radius_x ^ 2 * radius_z ^ 2
                * (sin a * sin a + cos a * cos a)) by ring.
        rewrite Hsc. ring.
      * intros Hh0. apply in_seq in Hh.
        assert (Hpos : 0 < INR n_height) by (apply lt_0_INR; lia).
        assert (Hle : INR h <= INR n_height) by (apply le_INR; lia).
        assert (H0 : 0 <= INR h) by apply pos_INR.
        assert (Hq : 0 <= INR h / INR n_height <= 1).
        { assert (Hi : 0 < / INR n_height) by now apply Rinv_0_lt_compat.
          assert (Hone : INR n_height * / INR n_height = 1)
            by (apply Rinv_r; lra).
          unfold Rdiv. split; nra. }
        set (q := INR h / INR n_height) in *.
        replace (vy center + (q - 0.5) * height - vy center)
          with ((q - 0.5) * height) by ring.
        apply Rabs_le. split; nra.
Qed.

Lemma cylinder_segment_points_witness :
  Fixed.create_cylinder_segment (0, 0, 0) 1 1 2 24 0
  = Raise ZeroDivisionError.
Proof.
  apply (proj1 (cylinder_segment_points (0, 0, 0) 1 1 2 24 0)).
  reflexivity.
Defined.

(** ** The morph targets and the run of generate_hq_avatar.py *)

Lemma nth_error_arr_sub (a b : field) (i : nat) (x y : vec3) :
  nth_error a i = Some x -> nth_error b i = Some y ->
  nth_error (HQ.arr_sub a b) i = Some (HQ.vsub x y).
Proof.
  revert b i. induction a as [|x0 a IH]; intros b i Ha Hb.
  - destruct i; discriminate.
  - destruct b as [|y0 b]; [destruct i; discriminate|].
    destruct i as [|i]; cbn in *.
    + now injection Ha as ->; injection Hb as ->.
    + now apply IH.
Qed.

Lemma arr_sub_length (a b : field) :
  length a = length b -> length (HQ.arr_sub a b) = length a.
Proof.
  revert b. induction a as [|x a IH]; intros b H; [reflexivity|].
  destruct b as [|y b]; [discriminate|]. cbn. f_equal. apply IH.
  cbn in H. lia.
Qed.

Lemma hq_morph_keys (vs : field) :
  dict_keys (HQ.morph_targets_data vs)
  = ["Weight"; "AbdomenGirth"; "MuscleMass"; "Posture"; "DiabetesEffect";
     "HypertensionEffect"; "HeartDiseaseEffect"]%string.
Proof. reflexivity. Qed.

Lemma hq_morph_wf (vs : field) : dict_wf (HQ.morph_targets_data vs).
Proof.
  unfold dict_wf. rewrite hq_morph_keys.
  repeat (constructor; [cbn; intuition discriminate|]). constructor.
Qed.

Lemma hq_morph_lengths (vs : field) (name : string) (delta : field) :
  In (name, delta) (HQ.morph_targets_data vs) -> length delta = length vs.
Proof.
  unfold HQ.morph_targets_data. cbv zeta.
  cbn [dict_set String.eqb Ascii.eqb Bool.eqb In]. intros H.
  repeat (destruct H as [H|H]; [injection H as _ <-|]); try contradiction;
    repeat (rewrite ?length_map, ?arr_sub_length, ?arr_add_length,
            ?arr_scale_length);
    reflexivity.
Qed.

(** X20: in generate_hq_avatar.py the three composite targets are, row
    by row, [0.12 W + 0.18 A] (DiabetesEffect),
    [0.08 W + 0.10 A - 0.05 M] (HypertensionEffect) and [0.15 W + 0.3 P]
    (HeartDiseaseEffect), where W, A, M and P are the rows of Weight,
    AbdomenGirth, MuscleMass and Posture at the same vertex. *)
Theorem hq_composite_blends (vs : field) :
  exists w a m p d h hd,
    dict_get (HQ.morph_targets_data vs) "Weight" = Ok w /\
    dict_get (HQ.morph_targets_data vs) "AbdomenGirth" = Ok a /\
    dict_get (HQ.morph_targets_data vs) "MuscleMass" = Ok m /\
    dict_get (HQ.morph_targets_data vs) "Posture" = Ok p /\
    dict_get (HQ.morph_targets_data vs) "DiabetesEffect" = Ok d /\
    dict_get (HQ.morph_targets_data vs) "HypertensionEffect" = Ok h /\
    dict_get (HQ.morph_targets_data vs) "HeartDiseaseEffect" = Ok hd /\
    forall i, (i < length vs)%nat ->
      exists wi ai mi pi,
        nth_error w i = Some wi /\ nth_error a i = Some ai /\
        nth_error m i = Some mi /\ nth_error p i = Some pi /\
        nth_error d i = Some (blend2 0.12 wi 0.18 ai) /\
        nth_error h i = Some (blend3 0.08 wi 0.10 ai (- 0.05) mi) /\
        nth_error hd i = Some (blend2 0.15 wi 0.3 pi).
Proof.
  do 7 eexists. repeat (split; [reflexivity|]).
  intros i Hi.
  destruct (nth_error_in_range vs i Hi) as [vi Hvi].
  exists (HQ.weight_row (HQ.mean_axis0 vs) vi), (HQ.abdomen_row vi),
         (HQ.muscle_row vi), (HQ.posture_row vi).
  assert (Hw := map_nth_error (HQ.weight_row (HQ.mean_axis0 vs)) i vs Hvi).
  assert (Ha := map_nth_error HQ.abdomen_row i vs Hvi).
  assert (Hm := map_nth_error HQ.muscle_row i vs Hvi).
  assert (Hp := map_nth_error HQ.posture_row i vs Hvi).
  repeat (split; [assumption|]).
  split; [|split].
  - rewrite <- vadd_vscale_blend2.
    apply nth_error_arr_add; now apply nth_error_arr_scale.
  - match goal with
    | |- _ = Some (blend3 _ ?x _ ?y _ ?z) =>
        replace (blend3 0.08 x 0.10 y (- 0.05) z)
          with (HQ.vsub (vadd (vscale x 0.08) (vscale y 0.10))
                        (vscale z 0.05))
    end.
    2:{ unfold HQ.vsub, vadd, vscale, blend3. cbn [vx vy vz fst snd].
        f_equal; [f_equal|]; lra. }
    apply nth_error_arr_sub.
    + apply nth_error_arr_add; now apply nth_error_arr_scale.
    + now apply nth_error_arr_scale.
  - rewrite <- vadd_vscale_blend2.
    apply nth_error_arr_add; now apply nth_error_arr_scale.
Qed.

Lemma weights_by_name (ws : list R) :
  length ws = 7%nat ->
  (forall j name,
     nth_error ["Weight"; "AbdomenGirth"; "MuscleMass"; "Posture";
                "DiabetesEffect"; "HypertensionEffect";
                "HeartDiseaseEffect"]%string j = Some name ->
     nth_error ws j = Some (hq_clinical_weight name)) ->
  ws = [0.0; 0.0; 0.0; 0.0; 0.5; 0.3; 0.4].
Proof.
  intros Hl Hw.
  destruct ws as [|w0 [|w1 [|w2 [|w3 [|w4 [|w5 [|w6 [|w7 ws]]]]]]]];
    try discriminate.
  pose proof (Hw 0%nat _ eq_refl) as H0.
  pose proof (Hw 1%nat _ eq_refl) as H1.
  pose proof (Hw 2%nat _ eq_refl) as H2.
  pose proof (Hw 3%nat _ eq_refl) as H3.
  pose proof (Hw 4%nat _ eq_refl) as H4.
  pose proof (Hw 5%nat _ eq_refl) as H5.
  pose proof (Hw 6%nat _ eq_refl) as H6.
  cbn in H0, H1, H2, H3, H4, H5, H6.
  congruence.
Qed.

Section HQRun.

Local Set Default Proof Using "Type*".

Variable f32_bytes : R -> list byte.
Hypothesis f32_bytes_len : forall x, length (f32_bytes x) = 4%nat.

Lemma hq_run_empty (normals : field) (fcs : list face) :
  HQ.create_glb_with_morphs f32_bytes [] normals fcs = ([], Raise ValueError).
Proof.
  unfold HQ.create_glb_with_morphs, HQ.write_variants.
  rewrite (hq_build_as_ultra f32_bytes f32_bytes_len).
  rewrite (ultra_export_raises f32_bytes f32_bytes_len [] fcs normals
             (HQ.morph_targets_data []) (hq_morph_wf []));
    [reflexivity | now left].
Qed.

Lemma hq_run_returns (verts normals : field) (fcs : list face) :
  verts <> [] ->
  exists g g2,
    HQ.create_glb_with_morphs f32_bytes verts normals fcs
    = ([("avatar_morphable.glb"%string, g);
        ("avatar_baseline.glb"%string, g);
        ("avatar_clinical.glb"%string, g2)], Ok tt) /\
    mesh_weights g = repeat 0.0 7 /\
    mesh_weights g2 = [0.0; 0.0; 0.0; 0.0; 0.5; 0.3; 0.4] /\
    same_but_weights g g2.
Proof.
  intros Hv. unfold HQ.create_glb_with_morphs.
  set (morphs := HQ.morph_targets_data verts).
  assert (Hwf : dict_wf morphs) by apply hq_morph_wf.
  assert (Hd : forall name delta, In (name, delta) morphs -> delta <> []).
  { intros name delta Hin Hnil. apply hq_morph_lengths in Hin. subst delta.
    destruct verts; [contradiction|discriminate]. }
  destruct (ultra_export_returns f32_bytes f32_bytes_len
              verts fcs normals morphs Hwf Hv Hd) as (g' & names & Eexp).
  pose proof (hq_build_as_ultra f32_bytes f32_bytes_len
                verts normals fcs morphs) as Eb.
  rewrite Eexp in Eb.
  destruct (hq_write_variants_by_keys f32_bytes f32_bytes_len
              verts normals fcs morphs _ Hwf Eb) as [Hyes _].
  destruct Hyes as [g2 Erun].
  { unfold morphs. rewrite hq_morph_keys. cbn. tauto. }
  destruct (hq_write_variants_cases f32_bytes f32_bytes_len
              verts normals fcs morphs _ _ Hwf Erun eq_refl)
    as (g0 & p & g1 & ws & g2' & i & Eb' & Hmesh & Hs1 & Hsaved & Hs2 & Hl
        & _ & Hw).
  injection Hsaved as <- <- <-.
  assert (Hws : ws = [0.0; 0.0; 0.0; 0.0; 0.5; 0.3; 0.4]).
  { apply weights_by_name; [exact Hl|].
    intros j name Hj. apply Hw. unfold morphs. now rewrite hq_morph_keys. }
  destruct (set_mesh_weights_single _ _ ws Hmesh) as (g3 & Hs3 & Hsame & Hm3).
  rewrite Hs2 in Hs3. injection Hs3 as <-.
  eexists. exists g2. split; [exact Erun|].
  split; [unfold mesh_weights; rewrite Hmesh; reflexivity|].
  split; [unfold mesh_weights; rewrite Hm3; cbn [weights]; exact Hws|].
  exact Hsame.
Qed.

(** X21: [create_glb_with_morphs] on a mesh without vertices stops with
    [ValueError] before any file is written.  On every other mesh it
    writes three files: the morphable and the baseline file hold one and
    the same container, whose seven weights are zero, and the clinical
    file holds that container with the weights
    [0, 0, 0, 0, 0.5, 0.3, 0.4] and nothing else changed. *)
Theorem hq_run_writes_three_variants (verts normals : field)
        (fcs : list face) :
  (verts = [] ->
   HQ.create_glb_with_morphs f32_bytes verts normals fcs
   = ([], Raise ValueError)) /\
  (verts <> [] ->
   exists g g2,
     HQ.create_glb_with_morphs f32_bytes verts normals fcs
     = ([("avatar_morphable.glb"%string, g);
         ("avatar_baseline.glb"%string, g);
         ("avatar_clinical.glb"%string, g2)], Ok tt) /\
     mesh_weights g = repeat 0.0 7 /\
     mesh_weights g2 = [0.0; 0.0; 0.0; 0.0; 0.5; 0.3; 0.4] /\
     same_but_weights g g2).
Proof.
  split.
  - intros ->. apply hq_run_empty.
  - apply hq_run_returns.
Qed.

End HQRun.

Lemma hq_run_writes_three_variants_witness :
  HQ.create_glb_with_morphs zero_image [] [] [] = ([], Raise ValueError).
Proof.
  apply (proj1 (hq_run_writes_three_variants zero_image (fun _ => eq_refl)
                  [] [] [])).
  reflexivity.
Defined.

(** *** Shape of the displacements of generate_hq_avatar.py *)

Lemma norm3_along_z (z : R) : norm3 (0, 0, z) = Rabs z.
Proof.
  unfold norm3. cbn [vx vy vz fst snd].
  replace (0 ^ 2 + 0 ^ 2 + z ^ 2) with (Rsqr z) by (unfold Rsqr; ring).
  apply sqrt_Rsqr_abs.
Qed.

Lemma hq_weight_row_scales (center v : vec3) :
  (0 < norm3 (HQ.vsub v center) ->
   exists k, 0.15 < k <= 0.225 /\
             HQ.weight_row center v = vscale (HQ.vsub v center) k) /\
  (norm3 (HQ.vsub v center) <= 0 -> HQ.weight_row center v = vzero).
Proof.
  unfold HQ.weight_row. cbv zeta. split; intros H.
  - rewrite (proj2 (Rltb_true _ _) H). rewrite vscale_vscale.
    destruct (bell_factor_bounds (vy v - 1.0) 0.3) as [He1 He2]; [lra|].
    eexists. split; [|reflexivity]. lra.
  - rewrite (proj2 (Rltb_false _ _)) by lra. reflexivity.
Qed.

Lemma hq_abdomen_row_eq (v : vec3) :
  let z0 := if Rltb 0.01 (Rabs (vz v)) then vz v else 0.01 in
  let c := 0.08 * exp ((- ((vy v - 1.0) ^ 2)) / 0.1)
           * (0.5 + 0.5 * (Rmax 0 (vz v) / (Rabs (vz v) + 0.01))) in
  HQ.abdomen_row v = (0, 0, z0 * / (Rabs z0 + 0.001) * c) /\
  0 < c < 0.08.
Proof.
  cbv zeta. split.
  - unfold HQ.abdomen_row. cbv zeta. rewrite !vscale_vscale.
    destruct (Rltb 0.01 (Rabs (vz v)));
      rewrite norm3_along_z; unfold vscale, HQ.vdiv;
      cbn [vx vy vz fst snd]; unfold Rdiv;
      (f_equal; [f_equal|]); ring.
  - destruct (bell_factor_bounds (vy v - 1.0) 0.1) as [He1 He2]; [lra|].
    set (e := exp _) in *.
    assert (Hm : 0 <= Rmax 0 (vz v) / (Rabs (vz v) + 0.01) < 1).
    { pose proof (Rabs_pos (vz v)) as Ha.
      pose proof (Rle_abs (vz v)) as Hle.
      assert (Hmx : 0 <= Rmax 0 (vz v) <= Rabs (vz v)).
      { split; [apply Rmax_l | apply Rmax_lub; lra]. }
      assert (Hq : 0 < / (Rabs (vz v) + 0.01))
        by (apply Rinv_0_lt_compat; lra).
      assert (Hone : (Rabs (vz v) + 0.01) * / (Rabs (vz v) + 0.01) = 1)
        by (apply Rinv_r; lra).
      unfold Rdiv. split; nra. }
    set (zf := Rmax 0 (vz v) / (Rabs (vz v) + 0.01)) in *.
    split; nra.
Qed.

Lemma unit_fraction (z : R) :
  let t := z * / (Rabs z + 0.001) in
  Rabs t < 1 /\ (0 < z -> 0 < t) /\ (z < 0 -> t < 0).
Proof.
  cbv zeta.
  pose proof (Rabs_pos z) as Ha.
  assert (Hq : 0 < / (Rabs z + 0.001)) by (apply Rinv_0_lt_compat; lra).
  assert (Hone : (Rabs z + 0.001) * / (Rabs z + 0.001) = 1)
    by (apply Rinv_r; lra).
  set (q := / (Rabs z + 0.001)) in *.
  split; [|split; intros Hz; nra].
  rewrite Rabs_mult, (Rabs_pos_eq q) by lra. nra.
Qed.

(** X22: shape of three displacements of generate_hq_avatar.py.  Weight
    moves a vertex away from the centroid of the mesh, by between 15 and
    22.5 per cent of its offset from the centroid.  AbdomenGirth moves
    along Z only, by less than 0.08: backwards when the vertex lies more
    than 0.01 behind the plane [z = 0], forwards otherwise.  Posture
    leaves a vertex outside [1 < y < 1.5] where it is, and moves one
    inside down by less than 0.02 and forwards by less than 0.03. *)
Theorem hq_displacement_shapes (center v : vec3) :
  ((0 < norm3 (HQ.vsub v center) ->
    exists k, 0.15 < k <= 0.225 /\
              HQ.weight_row center v = vscale (HQ.vsub v center) k) /\
   (norm3 (HQ.vsub v center) <= 0 -> HQ.weight_row center v = vzero)) /\
  (vx (HQ.abdomen_row v) = 0 /\ vy (HQ.abdomen_row v) = 0 /\
   Rabs (vz (HQ.abdomen_row v)) < 0.08 /\
   (vz v < - 0.01 -> vz (HQ.abdomen_row v) < 0) /\
   (- 0.01 <= vz v -> 0 < vz (HQ.abdomen_row v))) /\
  ((vy v <= 1 \/ 1.5 <= vy v -> HQ.posture_row v = vzero) /\
   (1 < vy v < 1.5 ->
    vx (HQ.posture_row v) = 0 /\
    - 0.02 < vy (HQ.posture_row v) < 0 /\
    0 < vz (HQ.posture_row v) < 0.03)).
Proof.
  split; [apply hq_weight_row_scales|]. split.
  - destruct (hq_abdomen_row_eq v) as [E Hc]. cbv zeta in E, Hc.
    rewrite E. cbn [vx vy vz fst snd]. clear E.
    set (c := 0.08 * _ * _) in *.
    split; [reflexivity|]. split; [reflexivity|].
    destruct (Rltb 0.01 (Rabs (vz v))) eqn:Eab;
      [apply Rltb_true in Eab | apply Rltb_false in Eab].
    + destruct (unit_fraction (vz v)) as (Ht & Hp & Hn). cbv zeta in *.
      set (t := vz v * / (Rabs (vz v) + 0.001)) in *.
      split; [|split].
      * rewrite Rabs_mult, (Rabs_pos_eq c) by lra.
        pose proof (Rabs_pos t). nra.
      * intros Hz. specialize (Hn ltac:(lra)). nra.
      * intros Hz.
        assert (0 < vz v).
        { unfold Rabs in Eab. destruct (Rcase_abs (vz v)); lra. }
        specialize (Hp ltac:(lra)). nra.
    + destruct (unit_fraction 0.01) as (Ht & Hp & _). cbv zeta in *.
      set (t := 0.01 * / (Rabs 0.01 + 0.001)) in *.
      specialize (Hp ltac:(lra)).
      split; [|split].
      * rewrite Rabs_mult, (Rabs_pos_eq c) by lra.
        pose proof (Rabs_pos t). nra.
      * intros Hz. exfalso. apply Eab.
        unfold Rabs. destruct (Rcase_abs (vz v)); lra.
      * intros _. nra.
  - unfold HQ.posture_row. cbv zeta. split.
    + intros [H|H]; case_Rltb; cbn [andb]; try reflexivity; lra.
    + intros [H1 H2].
      rewrite (proj2 (Rltb_true 1.0 (vy v))) by lra.
      rewrite (proj2 (Rltb_true (vy v) 1.5)) by lra.
      cbn [andb vx vy vz fst snd].
      split; [reflexivity|]. split; lra.
Qed.

Lemma hq_displacement_shapes_witness :
  HQ.posture_row (0, 1, 0) = vzero.
Proof.
  apply (proj1 (proj2 (proj2 (hq_displacement_shapes (0, 0, 0) (0, 1, 0))))).
  left. cbn [vy fst snd]. lra.
Defined.
